(** * mvsim: the ellipse-curve tire friction model and the 2.5D shape reducer

    A shallow embedding of
    - [modules/simulator/src/FrictionModels/EllipseCurveMethod.cpp]
      ([miH], [miS], [EllipseCurveMethod::evaluate_friction]) and
    - [modules/simulator/src/Shape2p5.cpp] ([Shape2p5]: rasterisation,
      seed fill, contour tracing, merging).

    C++ [double] and [float] values are IEEE-754 binary64 and binary32
    numbers: they are embedded as [spec_float] with the operations of the
    standard library's [SpecFloat] at precision 53/24, so that NaN,
    infinities, signed zeros and rounding are those of the machine.
    Exceptions ([ASSERT_], [throw]) and undefined behaviour are values of an
    error monad; objects mutated in place are passed and returned. *)

From Stdlib Require Import ZArith Bool String List Lia.
From Stdlib Require Import Floats.SpecFloat.
From stdpp Require Import base list.

Local Open Scope string_scope.
Local Open Scope Z_scope.

(** ** Failures *)

Inductive error : Type :=
| AssertionFailed (cond : string)      (* ASSERT_(cond) did not hold *)
| RuntimeError (what : string)         (* throw std::runtime_error(what) *)
| UndefinedBehaviour (why : string)    (* null/empty dereference, bad index *)
| OutOfFuel.                           (* of the model only: the bound given to a
                                          [while] loop was too small *)

Inductive result (A : Type) : Type :=
| Ok (a : A)
| Err (e : error).
Arguments Ok {A} a.
Arguments Err {A} e.

#[global] Instance result_ret : MRet result := fun A a => Ok a.
#[global] Instance result_bind : MBind result := fun A B k r =>
  match r with
  | Ok a => k a
  | Err e => Err e
  end.

Definition ASSERT_ (cond : bool) (text : string) : result unit :=
  if cond then Ok tt else Err (AssertionFailed text).

Definition is_ok {A : Type} (r : result A) : bool :=
  match r with Ok _ => true | Err _ => false end.

(** ** IEEE-754 numbers *)

(** [double]: binary64. *)
Definition double : Type := spec_float.
(** [float]: binary32. *)
Definition float : Type := spec_float.

Definition dadd : double -> double -> double := SFadd 53 1024.
Definition dsub : double -> double -> double := SFsub 53 1024.
Definition dmul : double -> double -> double := SFmul 53 1024.
Definition ddiv : double -> double -> double := SFdiv 53 1024.
Definition dsqrt : double -> double := SFsqrt 53 1024.

Definition fadd : float -> float -> float := SFadd 24 128.
Definition fsub : float -> float -> float := SFsub 24 128.
Definition fmul : float -> float -> float := SFmul 24 128.
Definition fdiv : float -> float -> float := SFdiv 24 128.
Definition fsqrt : float -> float := SFsqrt 24 128.

(** Conversions: an integer to the nearest number of the format, and a
    number of one format to the other ([float] to [double] is exact). *)
Definition double_of_Z (z : Z) : double := binary_normalize 53 1024 z 0 false.
Definition float_of_Z (z : Z) : float := binary_normalize 24 128 z 0 false.
Definition double_of_float (x : float) : double := SFldexp 53 1024 x 0.
Definition float_of_double (x : double) : float := SFldexp 24 128 x 0.

(** A decimal literal [n/d] of the source, rounded once as the compiler
    does: [0.40] is [dlit 40 100]. *)
Definition dlit (n d : Z) : double := ddiv (double_of_Z n) (double_of_Z d).
Definition flit (n d : Z) : float := fdiv (float_of_Z n) (float_of_Z d).

Definition is_nan (x : spec_float) : bool :=
  match x with S754_nan => true | _ => false end.
Definition is_zero (x : spec_float) : bool :=
  match x with S754_zero _ => true | _ => false end.
(** Neither NaN nor an infinity. *)
Definition is_finite (x : spec_float) : bool :=
  match x with S754_zero _ | S754_finite _ _ _ => true | _ => false end.

(** The same number: equal, up to the sign of a zero. *)
Definition same_value (a b : spec_float) : Prop :=
  match a, b with
  | S754_zero _, S754_zero _ => True
  | _, _ => a = b
  end.

Declare Scope dbl_scope.
Delimit Scope dbl_scope with dbl.
Bind Scope dbl_scope with double.
Infix "+" := dadd : dbl_scope.
Infix "-" := dsub : dbl_scope.
Infix "*" := dmul : dbl_scope.
Infix "/" := ddiv : dbl_scope.
Notation "- x" := (SFopp x) : dbl_scope.
Notation "x >? y" := (SFltb y x) : dbl_scope.
Notation "x <? y" := (SFltb x y) : dbl_scope.
Notation "x =? y" := (SFeqb x y) : dbl_scope.

Declare Scope flt_scope.
Delimit Scope flt_scope with flt.
Infix "+" := fadd : flt_scope.
Infix "-" := fsub : flt_scope.
Infix "*" := fmul : flt_scope.
Infix "/" := fdiv : flt_scope.
Notation "x >? y" := (SFltb y x) : flt_scope.
Notation "x <? y" := (SFltb x y) : flt_scope.

(** [M_PI] of <cmath>: 3.14159265358979323846 as a binary64 number. *)
Definition M_PI : double := S754_finite false 7074237752028440 (-51).

(** The functions of the C math library that the friction model calls and
    that have no exact IEEE definition. [sqrt] and [std::abs] are exact and
    are [dsqrt] and [SFabs]. *)
Class LibM : Type := {
  cos : double -> double;
  sin : double -> double;
  atan2 : double -> double -> double;
  pow : double -> double -> double
}.

(** ** EllipseCurveMethod.cpp *)

Record TVector2D : Type := { v_x : double; v_y : double }.
Record TPoint3D : Type := { p3_x : double; p3_y : double; p3_z : double }.
Record TTwist2D : Type := { vx : double; vy : double; omega : double }.

(** [class Wheel]: geometry, inertia and the spin state [phi], [w]. *)
Record Wheel : Type := {
  x : double; y : double; yaw : double;
  diameter : double; width : double;
  mass : double;
  Iyy : double;
  phi : double; w : double
}.

Definition getPhi (wh : Wheel) : double := phi wh.
Definition getW (wh : Wheel) : double := w wh.
Definition setW (wh : Wheel) (val : double) : Wheel :=
  {| x := x wh; y := y wh; yaw := yaw wh; diameter := diameter wh;
     width := width wh; mass := mass wh; Iyy := Iyy wh;
     phi := phi wh; w := val |}.

(** What [evaluate_friction] reads of [FrictionBase::TFrictionInput]. *)
Record TFrictionInput : Type := {
  context_dt : double;
  wheel : Wheel;
  motorTorque : double;
  wheelCogLocalVel : TVector2D
}.

(** What [evaluate_friction] reads of [myVehicle_] and of its world. *)
Record VehicleBase : Type := {
  getVelocityLocal : TTwist2D;
  getChassisMass : double;
  get_gravity : double;
  getChassisCenterOfMass : TVector2D;
  wheels : list Wheel;
  getLinearAcceleration : TPoint3D
}.

Definition getNumWheels (veh : VehicleBase) : nat := length (wheels veh).

(** The coefficients of the model, as the constructor initialises them. *)
Record EllipseCurveMethod : Type := {
  CA_ : double; Caf_ : double; Cs_ : double;
  ss_ : double; Cafs_ : double; Csaf_ : double
}.

Definition default_params : EllipseCurveMethod :=
  {| CA_ := double_of_Z 8; Caf_ := dlit 85 10; Cs_ := dlit 75 10;
     ss_ := dlit 1 10; Cafs_ := dlit 5 10; Csaf_ := dlit 5 10 |}.

(** Heaviside function. *)
Definition miH (x x0 : double) : double :=
  if (x >? x0)%dbl then double_of_Z 1 else double_of_Z 0.

(** Saturation function. *)
Definition miS (x x0 : double) : double :=
  (x * miH x0 (SFabs x) + x0 * miH (SFabs x) x0)%dbl.

(** The expression of the longitudinal slip, with [a] for
    [R * input.wheel.getW()] and [b] for [vxT], and the NaN guard that
    follows it. *)
Definition slipRatio (a b : double) : double :=
  let s := ((a - b) / (a * miH a b + b * miH b a))%dbl in
  if is_nan s then double_of_Z 0 else s.

(** The vector [pos] that the first loop of [evaluate_friction] fills: the
    wheels relative to the centre of mass. *)
Definition wheelPositions (veh : VehicleBase) : list TVector2D :=
  map (fun wpos : Wheel =>
         {| v_x := (x wpos - v_x (getChassisCenterOfMass veh))%dbl;
            v_y := (y wpos - v_y (getChassisCenterOfMass veh))%dbl |})
      (wheels veh).

(** [Axf] and [Axr]: the widths of the front and of the rear axle. *)
Definition axleWidth (p q : TVector2D) : double :=
  (SFabs (v_y p) + SFabs (v_y q))%dbl.

(** [pos[i]] on the [std::vector]: reading past the end is undefined. *)
Definition vec_at {A : Type} (v : list A) (i : Z) : result A :=
  if i <? 0 then Err (UndefinedBehaviour "vector index out of range")
  else match v !! Z.to_nat i with
       | Some a => Ok a
       | None => Err (UndefinedBehaviour "vector index out of range")
       end.

(** The locals of one call of [evaluate_friction], in the order in which
    the function computes them. *)
Record friction_trace : Type := {
  t_R : double;
  t_Fz : double;
  t_max_friction : double;
  t_vxT : double;
  t_s : double;
  t_af : double;
  t_wheel_long_friction : double;
  t_wheel_lat_friction : double;
  t_actual_wheel_alpha : double;
  t_new_w : double;
  t_res : TVector2D
}.

Section EvaluateFriction.
Context {libm : LibM}.
Variable self : EllipseCurveMethod.
Variable myVehicle_ : VehicleBase.

(** [CPose2D(0,0,yaw).composePoint] and [inverseComposePoint]. *)
Definition composePoint (yaw : double) (l : TVector2D) : TVector2D :=
  {| v_x := (double_of_Z 0 + v_x l * cos yaw - v_y l * sin yaw)%dbl;
     v_y := (double_of_Z 0 + v_x l * sin yaw + v_y l * cos yaw)%dbl |}.

Definition inverseComposePoint (yaw : double) (g : TVector2D) : TVector2D :=
  let Ax := (v_x g - double_of_Z 0)%dbl in
  let Ay := (v_y g - double_of_Z 0)%dbl in
  {| v_x := (Ax * cos yaw + Ay * sin yaw)%dbl;
     v_y := (- Ax * sin yaw + Ay * cos yaw)%dbl |}.

(** The body of [evaluate_friction]. The source reads an identifier
    [wheel] for the index of the wheel that is evaluated (0: rear-left,
    1: rear-right, 2: front-left, 3: front-right); it is the argument
    [wheel_index]. [Fz] is the value of the branch taken, and [pos.x],
    [pos.y] are read as those of [pos[wheel]]. *)
Definition friction_stages (wheel_index : Z) (input : TFrictionInput)
  : result friction_trace :=
  let vel_w := inverseComposePoint (yaw (wheel input)) (wheelCogLocalVel input) in
  let vel := getVelocityLocal myVehicle_ in
  let m := getChassisMass myVehicle_ in
  let afs := (double_of_Z 5 * M_PI / double_of_Z 180)%dbl in
  let CA := CA_ self in
  let gravity := get_gravity myVehicle_ in
  let R := (dlit 5 10 * diameter (wheel input))%dbl in
  let w := omega vel in
  let delta := getPhi (wheel input) in
  let Center_of_mass := getChassisCenterOfMass myVehicle_ in
  let h := dlit 40 100 in
  let pos := wheelPositions myVehicle_ in
  pos3 ← vec_at pos 3;
  pos0 ← vec_at pos 0;
  let a1 := SFabs (v_x pos3) in
  let a2 := SFabs (v_x pos0) in
  let l := (a1 + a2)%dbl in
  pos2 ← vec_at pos 2;
  pos1 ← vec_at pos 1;
  let Axf := axleWidth pos2 pos3 in
  let Axr := axleWidth pos0 pos1 in
  ASSERT_ (Axf >? double_of_Z 0)%dbl "Axf > 0";;
  ASSERT_ (Axr >? double_of_Z 0)%dbl "Axr > 0";;
  let linAccLocal := getLinearAcceleration myVehicle_ in
  (* 1) Vertical forces *)
  Fz ← (if wheel_index =? 3 then
           Ok (m / (l * Axf * gravity)
               * (a2 * gravity - h * (p3_x linAccLocal - w * vy vel))
               * (SFabs (v_y pos1) * gravity - h * (p3_y linAccLocal + w * vx vel)))%dbl
         else if wheel_index =? 2 then
           Ok (m / (l * Axf * gravity)
               * (a2 * gravity - h * (p3_x linAccLocal - w * vy vel))
               * (SFabs (v_y pos0) * gravity + h * (p3_y linAccLocal + w * vx vel)))%dbl
         else if wheel_index =? 1 then
           Ok (m / (l * Axr * gravity)
               * (a1 * gravity + h * (p3_x linAccLocal - w * vy vel))
               * (SFabs (v_y pos3) * gravity - h * (p3_y linAccLocal + w * vx vel)))%dbl
         else if wheel_index =? 0 then
           Ok (m / (l * Axr * gravity)
               * (a1 * gravity + h * (p3_x linAccLocal - w * vy vel))
               * (SFabs (v_y pos2) * gravity + h * (p3_y linAccLocal + w * vx vel)))%dbl
         else Err (RuntimeError "Invalid wheel index"));
  let max_friction := Fz in
  posw ← vec_at pos wheel_index;
  (* 2) Wheels velocity at Tire SR *)
  let vxT := ((vx vel - w * v_y posw) * cos delta
              + (vy vel + w * v_x posw) * sin delta)%dbl in
  (* 3) Longitudinal slip *)
  let s := ((R * getW (wheel input) - vxT)
            / (R * getW (wheel input) * miH (R * getW (wheel input)) vxT
               + vxT * miH vxT (R * getW (wheel input))))%dbl in
  let s := if is_nan s then double_of_Z 0 else s in
  (* 4) Sideslip angle *)
  let af := (atan2 (vy vel + v_x posw * w) (vx vel - v_y posw * w) - delta)%dbl in
  (* 5) Longitudinal friction *)
  let wheel_long_friction :=
    (max_friction * Cs_ self * miS s (ss_ self)
     * dsqrt (double_of_Z 1
              - Csaf_ self * pow (miS af afs / afs) (double_of_Z 2)))%dbl in
  (* 6) Lateral friction *)
  let wheel_lat_friction :=
    (- max_friction * Caf_ self * miS af afs
     * dsqrt (double_of_Z 1
              - Cafs_ self * pow (miS s (ss_ self) / ss_ self) (double_of_Z 2)))%dbl in
  (* Recalc wheel ang. velocity impulse with this reduced force *)
  let I_yy := Iyy (wheel input) in
  let actual_wheel_alpha :=
    (motorTorque input / I_yy - R * wheel_long_friction / I_yy)%dbl in
  let new_w := (getW (wheel input) + actual_wheel_alpha * context_dt input)%dbl in
  let result_force_wrt_wheel :=
    {| v_x := wheel_long_friction; v_y := wheel_lat_friction |} in
  Ok {| t_R := R; t_Fz := Fz; t_max_friction := max_friction;
        t_vxT := vxT; t_s := s; t_af := af;
        t_wheel_long_friction := wheel_long_friction;
        t_wheel_lat_friction := wheel_lat_friction;
        t_actual_wheel_alpha := actual_wheel_alpha;
        t_new_w := new_w;
        t_res := composePoint (yaw (wheel input)) result_force_wrt_wheel |}.

(** [evaluate_friction]: the force in the vehicle frame, and the wheel of
    the caller after [input.wheel.setW(...)]. *)
Definition evaluate_friction (wheel_index : Z) (input : TFrictionInput)
  : result (TVector2D * Wheel) :=
  tr ← friction_stages wheel_index input;
  Ok (t_res tr, setW (wheel input) (t_new_w tr)).

End EvaluateFriction.

(** ** Shape2p5.cpp *)

Definition CELL_UNDEFINED : Z := 0x80.
Definition CELL_OCCUPIED : Z := 0x00.
Definition CELL_FREE : Z := 0xff.
Definition CELL_VISITED : Z := 0x40.

Record TPoint2Df : Type := { f2_x : float; f2_y : float }.
Record TPoint3Df : Type := { f3_x : float; f3_y : float; f3_z : float }.
Record TTriangle : Type := { vertex0 : TPoint3Df; vertex1 : TPoint3Df; vertex2 : TPoint3Df }.
Definition TPolygon2D : Type := list TVector2D.

Definition vertex (t : TTriangle) (i : Z) : TPoint3Df :=
  if i =? 0 then vertex0 t else if i =? 1 then vertex1 t else vertex2 t.

(** Arithmetic of [TPoint2Df] and [TPoint3Df], componentwise in [float]. *)
Definition norm2f (p : TPoint2Df) : float :=
  fsqrt (f2_x p * f2_x p + f2_y p * f2_y p)%flt.
Definition sub2f (a b : TPoint2Df) : TPoint2Df :=
  {| f2_x := (f2_x a - f2_x b)%flt; f2_y := (f2_y a - f2_y b)%flt |}.
Definition norm3f (p : TPoint3Df) : float :=
  fsqrt (f3_x p * f3_x p + f3_y p * f3_y p + f3_z p * f3_z p)%flt.
Definition sub3f (a b : TPoint3Df) : TPoint3Df :=
  {| f3_x := (f3_x a - f3_x b)%flt; f3_y := (f3_y a - f3_y b)%flt;
     f3_z := (f3_z a - f3_z b)%flt |}.
Definition add3f (a b : TPoint3Df) : TPoint3Df :=
  {| f3_x := (f3_x a + f3_x b)%flt; f3_y := (f3_y a + f3_y b)%flt;
     f3_z := (f3_z a + f3_z b)%flt |}.
Definition scale3f (a : TPoint3Df) (k : float) : TPoint3Df :=
  {| f3_x := (f3_x a * k)%flt; f3_y := (f3_y a * k)%flt; f3_z := (f3_z a * k)%flt |}.

(** [mrpt::keep_max(var, test_val)]: [if (test_val > var) var = test_val]. *)
Definition keep_max (var test_val : float) : float :=
  if (test_val >? var)%flt then test_val else var.
Definition keep_min (var test_val : float) : float :=
  if (test_val <? var)%flt then test_val else var.

(** [std::numeric_limits<float>::max()]. *)
Definition FLT_MAX : float := SFmax_float 24 128.

(** [static_cast<int>(std::ceil(x))] and [static_cast<int>(x)]: the
    conversion of a NaN, of an infinity or of a number out of the range of
    [int] is undefined. *)
Definition SF_ceil (x : spec_float) : option Z :=
  match x with
  | S754_zero _ => Some 0
  | S754_finite s m e =>
      let v := cond_Zopp s (Zpos m) in
      Some (if 0 <=? e then v * 2 ^ e else - ((- v) / 2 ^ (- e)))
  | _ => None
  end.

Definition SF_trunc (x : spec_float) : option Z :=
  match x with
  | S754_zero _ => Some 0
  | S754_finite s m e =>
      Some (cond_Zopp s (if 0 <=? e then Zpos m * 2 ^ e else Zpos m / 2 ^ (- e)))
  | _ => None
  end.

Definition to_int (v : option Z) : result Z :=
  match v with
  | Some z =>
      if (- 2 ^ 31 <=? z) && (z <? 2 ^ 31) then Ok z
      else Err (UndefinedBehaviour "float to int conversion out of range")
  | None => Err (UndefinedBehaviour "float to int conversion out of range")
  end.

(** [mrpt::containers::CDynamicGrid<uint8_t>]: the extent of the grid and
    its cells, row after row. *)
Record GridExtent : Type := {
  m_x_min : double; m_x_max : double;
  m_y_min : double; m_y_max : double;
  m_resolution : double;
  m_size_x : Z; m_size_y : Z
}.

Record CDynamicGrid : Type := {
  extent : GridExtent;
  m_map : list Z
}.

Definition getSizeX (g : CDynamicGrid) : Z := m_size_x (extent g).
Definition getSizeY (g : CDynamicGrid) : Z := m_size_y (extent g).
Definition getResolution (g : CDynamicGrid) : double := m_resolution (extent g).

(** The geometry of MRPT's grid, which is not part of this repository:
    how the constructor rounds the requested rectangle to whole cells, and
    the maps between coordinates and cell indices. *)
Class GridGeometry : Type := {
  setSize : double -> double -> double -> double -> double -> GridExtent;
  x2idx : GridExtent -> double -> Z;
  y2idx : GridExtent -> double -> Z;
  idx2x : GridExtent -> Z -> double;
  idx2y : GridExtent -> Z -> double
}.

(** [cellByIndex(cx, cy)]: the position of the cell in [m_map], or no cell
    ([nullptr]) out of the grid. The arguments are [unsigned]: a negative
    [int] is far out of range. *)
Definition cellByIndex (g : CDynamicGrid) (cx cy : Z) : option nat :=
  if (cx <? 0) || (getSizeX g <=? cx) || (cy <? 0) || (getSizeY g <=? cy)
  then None
  else Some (Z.to_nat (cx + cy * getSizeX g)).

(** [*c] and [*c = v] for a cell [c] that [cellByIndex] returned. *)
Definition read_cell (g : CDynamicGrid) (c : nat) : Z := default 0 (m_map g !! c).
Definition write_cell (g : CDynamicGrid) (c : nat) (v : Z) : CDynamicGrid :=
  {| extent := extent g; m_map := <[c := v]> (m_map g) |}.

Definition fill (g : CDynamicGrid) (v : Z) : CDynamicGrid :=
  {| extent := extent g; m_map := map (fun _ => v) (m_map g) |}.

(** The invariant of the container: the cells are allocated for the whole
    grid, so that every cell that [cellByIndex] returns exists. *)
Definition grid_wf (g : CDynamicGrid) : Prop :=
  length (m_map g) = Z.to_nat (getSizeX g * getSizeY g).

Section Grid.
Context {geom : GridGeometry}.

Definition CDynamicGrid_new (x_min x_max y_min y_max resolution : double)
  : CDynamicGrid :=
  let e := setSize x_min x_max y_min y_max resolution in
  {| extent := e;
     m_map := replicate (Z.to_nat (m_size_x e * m_size_y e)) 0 |}.

Definition cellByPos (g : CDynamicGrid) (x y : double) : option nat :=
  cellByIndex g (x2idx (extent g) x) (y2idx (extent g) y).
End Grid.

(** [class Shape2p5]: both [contour_] and [grid_] are [std::optional]. *)
Record Shape2p5 : Type := {
  contour_ : option TPolygon2D;
  grid_ : option CDynamicGrid;
  zMin_ : float;
  zMax_ : float
}.

(** [opt->member] on an empty [std::optional] is undefined. *)
Definition deref {A : Type} (o : option A) : result A :=
  match o with
  | Some a => Ok a
  | None => Err (UndefinedBehaviour "empty optional dereferenced")
  end.

(** [bool(opt)], that is [opt.has_value()]. *)
Definition has_value {A : Type} (o : option A) : bool :=
  match o with Some _ => true | None => false end.

Definition is_empty {A : Type} (l : list A) : bool :=
  match l with [] => true | _ => false end.

(** [mergeWith(const Shape2p5&)]: the merging code is compiled out
    ([#if 0]); what remains is the assertion. *)
Definition mergeWith (self s : Shape2p5) : result Shape2p5 :=
  c ← deref (contour_ s);
  ASSERT_ (negb (is_empty c)) "!s.contour_->empty()";;
  Ok self.

(** [mergeWith(const std::vector<TPoint3Df>&)]: likewise. *)
Definition mergeWith_pts (self : Shape2p5) (pts : list TPoint3Df) : result Shape2p5 :=
  c ← deref (contour_ self);
  ASSERT_ (negb (is_empty c)) "!contour_->empty()";;
  Ok self.

Definition Coord : Type := (Z * Z)%type.

(** How many cells hold [v]. *)
Fixpoint count_in (v : Z) (l : list Z) : nat :=
  match l with
  | [] => O
  | c :: l' => if c =? v then S (count_in v l') else count_in v l'
  end.

Definition count_cells (v : Z) (g : CDynamicGrid) : nat := count_in v (m_map g).

Section Shape.
Context {geom : GridGeometry}.

Definition buildInit (self : Shape2p5) (bbMin bbMax : TPoint2Df) (numCells : Z)
  : Shape2p5 :=
  (* grid resolution *)
  let r := (norm2f (sub2f bbMax bbMin) / float_of_Z numCells)%flt in
  (* border to ensure we have a free row/col all around the shape *)
  let b := (r * flit 15 10)%flt in
  let g := CDynamicGrid_new
             (double_of_float (f2_x bbMin - b)%flt)
             (double_of_float (f2_x bbMax + b)%flt)
             (double_of_float (f2_y bbMin - b)%flt)
             (double_of_float (f2_y bbMax + b)%flt)
             (double_of_float r) in
  {| contour_ := None;
     grid_ := Some (fill g CELL_UNDEFINED);
     zMin_ := FLT_MAX;
     zMax_ := SFopp FLT_MAX |}.

(** [buildAddPoint]: the z range is widened before the cell is looked
    up; a failed assertion leaves no shape to go on with. *)
Definition buildAddPoint (self : Shape2p5) (pt : TPoint3Df) : result Shape2p5 :=
  let zMax := keep_max (zMax_ self) (f3_z pt) in
  let zMin := keep_min (zMin_ self) (f3_z pt) in
  g ← deref (grid_ self);
  match cellByPos g (double_of_float (f3_x pt)) (double_of_float (f3_y pt)) with
  | None => Err (AssertionFailed "c")
  | Some c =>
      Ok {| contour_ := contour_ self;
            grid_ := Some (write_cell g c CELL_OCCUPIED);
            zMin_ := zMin; zMax_ := zMax |}
  end.

(** The body of the inner loop of [buildAddTriangle] at the sample [p]:
    [if (!c) continue;] leaves everything as it is. *)
Definition addTriangleSample (st : CDynamicGrid * float * float) (p : TPoint3Df)
  : CDynamicGrid * float * float :=
  let '(g, zMin, zMax) := st in
  match cellByPos g (double_of_float (f3_x p)) (double_of_float (f3_y p)) with
  | None => st
  | Some c => (write_cell g c CELL_OCCUPIED, keep_min zMin (f3_z p), keep_max zMax (f3_z p))
  end.

(** [for (int s = 0; s < nSteps; s++, p += Ap)], with [n] steps to go. *)
Fixpoint edgeLoop (n : nat) (st : CDynamicGrid * float * float) (p Ap : TPoint3Df)
  : CDynamicGrid * float * float :=
  match n with
  | O => st
  | S n' => edgeLoop n' (addTriangleSample st p) (add3f p Ap) Ap
  end.

(** The body of the outer loop of [buildAddTriangle] for the edge that
    starts at vertex [i0]. *)
Definition addTriangleEdge (step : float) (t : TTriangle)
           (st : CDynamicGrid * float * float) (i0 : Z)
  : result (CDynamicGrid * float * float) :=
  let i1 := (i0 + 1) mod 3 in
  let v0 := vertex t i0 in
  let v1 := vertex t i1 in
  let v01 := sub3f v1 v0 in
  nSteps ← to_int (SF_ceil (norm3f v01 / step)%flt);
  let p := v0 in
  let Ap := scale3f v01 (float_of_Z 1 / float_of_Z nSteps)%flt in
  Ok (edgeLoop (Z.to_nat nSteps) st p Ap).

Definition buildAddTriangle (self : Shape2p5) (t : TTriangle) : result Shape2p5 :=
  g ← deref (grid_ self);
  let step := float_of_double (getResolution g) in
  st ← addTriangleEdge step t (g, zMin_ self, zMax_ self) 0;
  st ← addTriangleEdge step t st 1;
  '(g, zMin, zMax) ← addTriangleEdge step t st 2;
  Ok {| contour_ := contour_ self; grid_ := Some g; zMin_ := zMin; zMax_ := zMax |}.

Definition setShapeManual (self : Shape2p5) (contour : TPolygon2D) (zMin zMax : float)
  : Shape2p5 :=
  {| contour_ := Some contour; grid_ := None; zMin_ := zMin; zMax_ := zMax |}.

(** *** internalGridFloodFill *)

Definition Inside (g : CDynamicGrid) (x y : Z) : bool :=
  let cxMax := getSizeX g - 1 in
  let cyMax := getSizeY g - 1 in
  if (x <? 0) || (y <? 0) then false
  else if (x >? cxMax) || (y >? cyMax) then false
  else match cellByIndex g x y with
       | None => false
       | Some c => read_cell g c =? CELL_UNDEFINED
       end.

Definition Set_ (g : CDynamicGrid) (x y : Z) : CDynamicGrid :=
  let cxMax := getSizeX g - 1 in
  let cyMax := getSizeY g - 1 in
  if (x <? 0) || (y <? 0) then g
  else if (x >? cxMax) || (y >? cyMax) then g
  else match cellByIndex g x y with
       | None => g
       | Some c => write_cell g c CELL_FREE
       end.

(** [while (Inside(lx - 1, y)) { Set(lx - 1, y); lx--; }] *)
Fixpoint extendLeft (fuel : nat) (g : CDynamicGrid) (lx y : Z)
  : result (CDynamicGrid * Z) :=
  if Inside g (lx - 1) y then
    match fuel with
    | O => Err OutOfFuel
    | S fuel' => extendLeft fuel' (Set_ g (lx - 1) y) (lx - 1) y
    end
  else Ok (g, lx).

(** [while (Inside(x, y)) { Set(x, y); x++; }] *)
Fixpoint extendRight (fuel : nat) (g : CDynamicGrid) (x y : Z)
  : result (CDynamicGrid * Z) :=
  if Inside g x y then
    match fuel with
    | O => Err OutOfFuel
    | S fuel' => extendRight fuel' (Set_ g x y) (x + 1) y
    end
  else Ok (g, x).

(** The loop of [lambdaScan], at column [x] with [n] columns to go. *)
Fixpoint scanLoop (n : nat) (g : CDynamicGrid) (x y : Z) (spanAdded : bool)
         (s : list Coord) : list Coord :=
  match n with
  | O => s
  | S n' =>
      if negb (Inside g x y) then scanLoop n' g (x + 1) y false s
      else if negb spanAdded then scanLoop n' g (x + 1) y true (s ++ [(x, y)])%list
      else scanLoop n' g (x + 1) y spanAdded s
  end.

Definition lambdaScan (g : CDynamicGrid) (s : list Coord) (lx rx y : Z) : list Coord :=
  scanLoop (Z.to_nat (rx - lx + 1)) g lx y false s.

(** [while (!s.empty()) { ... }] on the queue [s]. *)
Fixpoint floodLoop (fuel : nat) (g : CDynamicGrid) (s : list Coord)
  : result CDynamicGrid :=
  match s with
  | [] => Ok g
  | (x, y) :: s =>
      match fuel with
      | O => Err OutOfFuel
      | S fuel' =>
          let lx := x in
          '(g, lx) ← extendLeft (Z.to_nat lx) g lx y;
          '(g, x) ← extendRight (Z.to_nat (getSizeX g - x)) g x y;
          let s := lambdaScan g s lx (x - 1) (y + 1) in
          let s := lambdaScan g s lx (x - 1) (y - 1) in
          floodLoop fuel' g s
      end
  end.

Definition floodFill (g : CDynamicGrid) : result CDynamicGrid :=
  let x0 := 0 in
  let y0 := 0 in
  if negb (Inside g x0 y0) then Ok g
  else floodLoop (2 * count_cells CELL_UNDEFINED g + 1) g [(x0, y0)].

Definition internalGridFloodFill (self : Shape2p5) : result Shape2p5 :=
  match grid_ self with
  | None => Err (AssertionFailed "grid_")
  | Some g =>
      g' ← floodFill g;
      Ok {| contour_ := contour_ self; grid_ := Some g';
            zMin_ := zMin_ self; zMax_ := zMax_ self |}
  end.

(** *** internalGridContour *)

(** A cell of [cellByIndex] that exists and holds [v]. *)
Definition cell_is (g : CDynamicGrid) (cx cy : Z) (v : Z) : bool :=
  match cellByIndex g cx cy with
  | None => false
  | Some c => read_cell g c =? v
  end.

Definition lambdaCellIsBorder (g : CDynamicGrid) (cx cy : Z) : bool :=
  match cellByIndex g cx cy with
  | None => false
  | Some c =>
      if negb (read_cell g c =? CELL_OCCUPIED) then false
      else if cell_is g cx (cy - 1) CELL_FREE then true
      else if cell_is g cx (cy + 1) CELL_FREE then true
      else if cell_is g (cx + 1) cy CELL_FREE then true
      else if cell_is g (cx - 1) cy CELL_FREE then true
      else false
  end.

(** 1) Look for the first CELL_OCCUPIED cell. *)
Fixpoint findFirstOccupied (fuel : nat) (g : CDynamicGrid) (nx ny cx cy : Z)
  : result Coord :=
  match cellByIndex g cx cy with
  | None => Err (UndefinedBehaviour "null cell dereferenced")
  | Some c =>
      if read_cell g c =? CELL_OCCUPIED then Ok (cx, cy)
      else
        match fuel with
        | O => Err OutOfFuel
        | S fuel' =>
            let cx := cx + 1 in
            if nx <=? cx then
              let cx := 0 in
              let cy := cy + 1 in
              ASSERT_ (cy <? ny) "cy < ny";;
              findFirstOccupied fuel' g nx ny cx cy
            else findFirstOccupied fuel' g nx ny cx cy
        end
  end.

(** The two nested [for] loops over [ix] and [iy]: the neighbours in the
    order in which they are tried. *)
Definition neighbourOffsets : list (Z * Z) :=
  flat_map (fun ix => map (fun iy => (ix, iy)) [-1; 0; 1]) [-1; 0; 1].

Definition nextBorderCell (g : CDynamicGrid) (cx cy : Z) : option Coord :=
  List.find (fun c : Coord => lambdaCellIsBorder g (fst c) (snd c))
            (map (fun d : Z * Z => (cx + fst d, cy + snd d)) neighbourOffsets).

(** 2) Iterate: the [for (;;)] loop. *)
Fixpoint traceLoop (fuel : nat) (g : CDynamicGrid) (cx cy : Z) (p : TPolygon2D)
  : result (CDynamicGrid * TPolygon2D) :=
  match cellByIndex g cx cy with
  | None => Err (AssertionFailed "c")
  | Some c =>
      let g := write_cell g c CELL_VISITED in
      let p := (p ++ [ {| v_x := idx2x (extent g) cx; v_y := idx2y (extent g) cy |} ])%list in
      match nextBorderCell g cx cy with
      | Some (cx', cy') =>
          match fuel with
          | O => Err OutOfFuel
          | S fuel' => traceLoop fuel' g cx' cy' p
          end
      | None => Ok (g, p)
      end
  end.

Definition gridContour (g : CDynamicGrid) : result (CDynamicGrid * TPolygon2D) :=
  let nx := getSizeX g in
  let ny := getSizeY g in
  '(cx, cy) ← findFirstOccupied (Z.to_nat (nx * ny)) g nx ny 0 0;
  traceLoop (count_cells CELL_OCCUPIED g) g cx cy [].

Definition internalGridContour (self : Shape2p5) : result (Shape2p5 * TPolygon2D) :=
  match grid_ self with
  | None => Err (AssertionFailed "grid_")
  | Some g =>
      '(g', p) ← gridContour g;
      Ok ({| contour_ := contour_ self; grid_ := Some g';
             zMin_ := zMin_ self; zMax_ := zMax_ self |}, p)
  end.

(** *** computeShape, getContour *)

(** The contour that [computeShape] stores: the hull and pruning steps
    are not written yet and the result is this fixed square. *)
Definition placeholderContour : TPolygon2D :=
  [ {| v_x := dlit (-25) 100; v_y := dlit (-25) 100 |};
    {| v_x := dlit (-25) 100; v_y := dlit 25 100 |};
    {| v_x := dlit 25 100; v_y := dlit 25 100 |};
    {| v_x := dlit 25 100; v_y := dlit (-25) 100 |} ].

Definition computeShape (self : Shape2p5) : result Shape2p5 :=
  ASSERT_ (has_value (grid_ self)) "grid_";;
  ASSERT_ (negb (has_value (contour_ self))) "!contour_";;
  self ← internalGridFloodFill self;
  '(self, rawGridContour) ← internalGridContour self;
  Ok {| contour_ := Some placeholderContour; grid_ := None;
        zMin_ := zMin_ self; zMax_ := zMax_ self |}.

Definition getContour (self : Shape2p5) : result (TPolygon2D * Shape2p5) :=
  match contour_ self with
  | Some c => Ok (c, self)
  | None =>
      self ← computeShape self;
      c ← deref (contour_ self);
      Ok (c, self)
  end.

End Shape.

(** ** Build sequences *)

(** The calls between [buildInit] and the first [getContour]. *)
Inductive BuildOp : Type :=
| AddPoint (pt : TPoint3Df)
| AddTriangle (t : TTriangle).

Section Build.
Context {geom : GridGeometry}.

Definition applyBuildOp (self : Shape2p5) (op : BuildOp) : result Shape2p5 :=
  match op with
  | AddPoint pt => buildAddPoint self pt
  | AddTriangle t => buildAddTriangle self t
  end.

Fixpoint runBuild (self : Shape2p5) (ops : list BuildOp) : result Shape2p5 :=
  match ops with
  | [] => Ok self
  | op :: ops' => self' ← applyBuildOp self op; runBuild self' ops'
  end.

(** The points at which the loop of one triangle edge samples the grid:
    [p], [p + Ap], [p + Ap + Ap], ... *)
Fixpoint edgeSamples (n : nat) (p Ap : TPoint3Df) : list TPoint3Df :=
  match n with
  | O => []
  | S n' => p :: edgeSamples n' (add3f p Ap) Ap
  end.

(** A point over a cell of the grid: [cellByPos] finds a cell. The answer
    depends on the extent of the grid only. *)
Definition insideGrid (g : CDynamicGrid) (p : TPoint3Df) : bool :=
  has_value (cellByPos g (double_of_float (f3_x p)) (double_of_float (f3_y p))).

(** [nSteps] for the edge that starts at vertex [i0], and all the samples
    of a triangle, edge after edge. *)
Definition edgeSteps (step : float) (t : TTriangle) (i0 : Z) : result Z :=
  to_int (SF_ceil (norm3f (sub3f (vertex t ((i0 + 1) mod 3)) (vertex t i0)) / step)%flt).

Definition edgeSamplesOf (t : TTriangle) (i0 nSteps : Z) : list TPoint3Df :=
  let v01 := sub3f (vertex t ((i0 + 1) mod 3)) (vertex t i0) in
  edgeSamples (Z.to_nat nSteps) (vertex t i0)
              (scale3f v01 (float_of_Z 1 / float_of_Z nSteps)%flt).

Definition triangleSamples (step : float) (t : TTriangle) : result (list TPoint3Df) :=
  n0 ← edgeSteps step t 0;
  n1 ← edgeSteps step t 1;
  n2 ← edgeSteps step t 2;
  Ok (edgeSamplesOf t 0 n0 ++ edgeSamplesOf t 1 n1 ++ edgeSamplesOf t 2 n2)%list.

End Build.

(** ** Predicates of the statements *)

(** [g'] is [g] after some cells went from Undefined to Free, and nothing
    else happened. *)
Definition filled_from (g g' : CDynamicGrid) : Prop :=
  extent g' = extent g /\
  length (m_map g') = length (m_map g) /\
  forall i : nat,
    m_map g' !! i = m_map g !! i \/
    (m_map g !! i = Some CELL_UNDEFINED /\ m_map g' !! i = Some CELL_FREE).

(** A shape between [buildInit] and [getContour]: no contour yet, and a
    grid with all its cells. *)
Definition building (self : Shape2p5) : Prop :=
  contour_ self = None /\ exists g, grid_ self = Some g /\ grid_wf g.

Definition st_grid (st : CDynamicGrid * float * float) : CDynamicGrid := fst (fst st).
Definition st_zMin (st : CDynamicGrid * float * float) : float := snd (fst st).
Definition st_zMax (st : CDynamicGrid * float * float) : float := snd st.

(** ** Reference instances, to run the model on examples *)

(** A small math library: low-order Taylor polynomials around 0 (exact at
    0), and [pow] by repeated multiplication for the exponent 2. *)
Definition taylor_cos (a : double) : double :=
  (double_of_Z 1 - a * a / double_of_Z 2 + a * a * a * a / double_of_Z 24)%dbl.
Definition taylor_sin (a : double) : double :=
  (a - a * a * a / double_of_Z 6 + a * a * a * a * a / double_of_Z 120)%dbl.
Definition taylor_atan (z : double) : double :=
  (z - z * z * z / double_of_Z 3)%dbl.
Definition taylor_atan2 (b a : double) : double :=
  if is_zero a then
    if is_zero b then b
    else if (b >? double_of_Z 0)%dbl then (M_PI / double_of_Z 2)%dbl
         else (- (M_PI / double_of_Z 2))%dbl
  else if (a >? double_of_Z 0)%dbl then taylor_atan (b / a)%dbl
  else if (b <? double_of_Z 0)%dbl then (taylor_atan (b / a) - M_PI)%dbl
  else (taylor_atan (b / a) + M_PI)%dbl.
Definition square_pow (a b : double) : double :=
  if (b =? double_of_Z 2)%dbl then (a * a)%dbl else double_of_Z 1.

Definition taylor_libm : LibM :=
  {| cos := taylor_cos; sin := taylor_sin; atan2 := taylor_atan2; pow := square_pow |}.

(** The grid geometry as MRPT's [CDynamicGrid.h] computes it: the limits
    are rounded to multiples of the resolution, [x2idx] truncates and
    [idx2x] is the centre of the cell. *)
Definition SF_round (x : spec_float) : Z :=
  match x with
  | S754_finite s m e =>
      cond_Zopp s (if 0 <=? e then Zpos m * 2 ^ e
                   else (2 * Zpos m + 2 ^ (- e)) / (2 * 2 ^ (- e)))
  | _ => 0
  end.

Definition mrpt_setSize (x_min x_max y_min y_max resolution : double) : GridExtent :=
  let xmin := (resolution * double_of_Z (SF_round (x_min / resolution)))%dbl in
  let ymin := (resolution * double_of_Z (SF_round (y_min / resolution)))%dbl in
  let xmax := (resolution * double_of_Z (SF_round (x_max / resolution)))%dbl in
  let ymax := (resolution * double_of_Z (SF_round (y_max / resolution)))%dbl in
  {| m_x_min := xmin; m_x_max := xmax; m_y_min := ymin; m_y_max := ymax;
     m_resolution := resolution;
     m_size_x := SF_round ((xmax - xmin) / resolution)%dbl;
     m_size_y := SF_round ((ymax - ymin) / resolution)%dbl |}.

Definition mrpt_geometry : GridGeometry :=
  {| setSize := mrpt_setSize;
     x2idx := fun e a => default 0 (SF_trunc ((a - m_x_min e) / m_resolution e)%dbl);
     y2idx := fun e a => default 0 (SF_trunc ((a - m_y_min e) / m_resolution e)%dbl);
     idx2x := fun e c => (m_x_min e + (double_of_Z c + dlit 5 10) * m_resolution e)%dbl;
     idx2y := fun e c => (m_y_min e + (double_of_Z c + dlit 5 10) * m_resolution e)%dbl |}.

(** A car: wheels 0 and 1 on the rear axle, 2 and 3 on the front axle,
    1.3 m apart, track 1 m, centre of mass in the middle; 1000 kg. *)
Definition exWheel (px py : double) : Wheel :=
  {| x := px; y := py; yaw := double_of_Z 0;
     diameter := dlit 6 10; width := dlit 2 10;
     mass := double_of_Z 10; Iyy := dlit 45 100;
     phi := double_of_Z 0; w := double_of_Z 0 |}.

Definition exWheels : list Wheel :=
  [ exWheel (double_of_Z 0) (dlit 5 10);
    exWheel (double_of_Z 0) (dlit (-5) 10);
    exWheel (dlit 13 10) (dlit 5 10);
    exWheel (dlit 13 10) (dlit (-5) 10) ].

Definition exVehicle (v : TTwist2D) (acc : TPoint3D) : VehicleBase :=
  {| getVelocityLocal := v;
     getChassisMass := double_of_Z 1000;
     get_gravity := dlit 981 100;
     getChassisCenterOfMass := {| v_x := dlit 65 100; v_y := double_of_Z 0 |};
     wheels := exWheels;
     getLinearAcceleration := acc |}.

Definition atRest : TTwist2D :=
  {| vx := double_of_Z 0; vy := double_of_Z 0; omega := double_of_Z 0 |}.
Definition noAccel : TPoint3D :=
  {| p3_x := double_of_Z 0; p3_y := double_of_Z 0; p3_z := double_of_Z 0 |}.

Definition exInput (wh : Wheel) (torque : double) : TFrictionInput :=
  {| context_dt := dlit 1 1000; wheel := wh; motorTorque := torque;
     wheelCogLocalVel := {| v_x := double_of_Z 0; v_y := double_of_Z 0 |} |}.

(** The front-right wheel of the car, and a tricycle: the same car with
    both front wheels on the centre line. *)
Definition frontRight : Wheel := exWheel (dlit 13 10) (dlit (-5) 10).

Definition tricycle : VehicleBase :=
  {| getVelocityLocal := atRest;
     getChassisMass := double_of_Z 1000;
     get_gravity := dlit 981 100;
     getChassisCenterOfMass := {| v_x := dlit 65 100; v_y := double_of_Z 0 |};
     wheels := [ exWheel (double_of_Z 0) (dlit 5 10);
                 exWheel (double_of_Z 0) (dlit (-5) 10);
                 exWheel (dlit 13 10) (double_of_Z 0);
                 exWheel (dlit 13 10) (double_of_Z 0) ];
     getLinearAcceleration := noAccel |}.

(** The car rolling straight at 3 m/s, and its front-right wheel turning
    at 10 rad/s: with a radius of 0.3 m the wheel does not slip. *)
Definition rolling : TTwist2D :=
  {| vx := double_of_Z 3; vy := double_of_Z 0; omega := double_of_Z 0 |}.

Definition rollingWheel : Wheel :=
  {| x := dlit 13 10; y := dlit (-5) 10; yaw := double_of_Z 0;
     diameter := dlit 6 10; width := dlit 2 10;
     mass := double_of_Z 10; Iyy := dlit 45 100;
     phi := double_of_Z 0; w := double_of_Z 10 |}.

(** Shapes with a manual contour: a unit square, a triangle far from it,
    and a shape whose contour is set but empty. *)
Definition pt2 (a b : Z) : TVector2D := {| v_x := double_of_Z a; v_y := double_of_Z b |}.

Definition squareShape : Shape2p5 :=
  {| contour_ := Some [pt2 0 0; pt2 1 0; pt2 1 1; pt2 0 1]; grid_ := None;
     zMin_ := float_of_Z 0; zMax_ := float_of_Z 1 |}.
Definition farTriangleShape : Shape2p5 :=
  {| contour_ := Some [pt2 5 5; pt2 6 5; pt2 5 6]; grid_ := None;
     zMin_ := float_of_Z 0; zMax_ := float_of_Z 2 |}.
Definition emptyContourShape : Shape2p5 :=
  {| contour_ := Some []; grid_ := None;
     zMin_ := float_of_Z 0; zMax_ := float_of_Z 0 |}.

(** A shape under construction over the box [-1,1] x [-1,1] with 10 cells
    along the diagonal, as [buildInit] leaves it. *)
Definition blankShape : Shape2p5 :=
  {| contour_ := None; grid_ := None; zMin_ := float_of_Z 0; zMax_ := float_of_Z 0 |}.
Definition pt2f (a b : Z) : TPoint2Df := {| f2_x := float_of_Z a; f2_y := float_of_Z b |}.
Definition pt3f (a b c : Z) : TPoint3Df :=
  {| f3_x := float_of_Z a; f3_y := float_of_Z b; f3_z := float_of_Z c |}.
Definition initShape : Shape2p5 :=
  buildInit (geom := mrpt_geometry) blankShape (pt2f (-1) (-1)) (pt2f 1 1) 10.

(** A point in the corner cell of that grid, a point out of it, a triangle
    that leaves the grid on one side, and one that lies out of it. *)
Definition cornerPoint : TPoint3Df :=
  {| f3_x := flit (-13) 10; f3_y := flit (-13) 10; f3_z := float_of_Z 0 |}.
Definition leavingTriangle : TTriangle :=
  {| vertex0 := pt3f 0 0 0; vertex1 := pt3f 1 0 1; vertex2 := pt3f 3 3 5 |}.
Definition outerTriangle : TTriangle :=
  {| vertex0 := pt3f 5 5 0; vertex1 := pt3f 6 5 0; vertex2 := pt3f 5 6 0 |}.

(** The shape after a point was added in the corner cell. *)
Definition seedOccupiedShape : Shape2p5 :=
  match buildAddPoint (geom := mrpt_geometry) initShape cornerPoint with
  | Ok s => s
  | Err _ => initShape
  end.

Definition gridOf (self : Shape2p5) : CDynamicGrid :=
  match grid_ self with
  | Some g => g
  | None => {| extent := setSize (GridGeometry := mrpt_geometry)
                                 (double_of_Z 0) (double_of_Z 0) (double_of_Z 0)
                                 (double_of_Z 0) (double_of_Z 1);
               m_map := [] |}
  end.

(** The shape after a point was added at the origin, and the shape after
    the triangle that lies out of the grid was added. *)
Definition originShape : Shape2p5 :=
  match buildAddPoint (geom := mrpt_geometry) initShape (pt3f 0 0 0) with
  | Ok s => s
  | Err _ => initShape
  end.

Definition emptyBuild : Shape2p5 :=
  match runBuild (geom := mrpt_geometry) initShape [AddTriangle outerTriangle] with
  | Ok s => s
  | Err _ => initShape
  end.

(** ** Further predicates and examples *)

Definition is_infinity (x : spec_float) : bool :=
  match x with S754_infinity _ => true | _ => false end.

(** The car backing up at 3 m/s with its wheels stopped, and a
    differential-drive vehicle, which has two wheels. *)
Definition reversing : TTwist2D :=
  {| vx := double_of_Z (-3); vy := double_of_Z 0; omega := double_of_Z 0 |}.

Definition twoWheeler : VehicleBase :=
  {| getVelocityLocal := atRest;
     getChassisMass := double_of_Z 20;
     get_gravity := dlit 981 100;
     getChassisCenterOfMass := {| v_x := double_of_Z 0; v_y := double_of_Z 0 |};
     wheels := [ exWheel (double_of_Z 0) (dlit 5 10);
                 exWheel (double_of_Z 0) (dlit (-5) 10) ];
     getLinearAcceleration := noAccel |}.

(** [g'] is [g] after some cells were marked Occupied, and nothing else
    happened. *)
Definition marked_from (g g' : CDynamicGrid) : Prop :=
  extent g' = extent g /\
  length (m_map g') = length (m_map g) /\
  forall i : nat,
    m_map g' !! i = m_map g !! i \/
    ((i < length (m_map g))%nat /\ m_map g' !! i = Some CELL_OCCUPIED).

(** A triangle whose three vertices are one point. *)
Definition pointTriangle (v : TPoint3Df) : TTriangle :=
  {| vertex0 := v; vertex1 := v; vertex2 := v |}.

Definition finitePoint (v : TPoint3Df) : bool :=
  is_finite (f3_x v) && is_finite (f3_y v) && is_finite (f3_z v).

(** The place of a number on the line: its class, then its exponent, then
    its mantissa, mirrored for the negative numbers. Both zeros stand at
    the same place. *)
Definition SFkey (a : spec_float) : Z * Z * Z :=
  match a with
  | S754_infinity true => (-2, 0, 0)
  | S754_finite true m e => (-1, - e, - Zpos m)
  | S754_zero _ => (0, 0, 0)
  | S754_nan => (0, 0, 0)
  | S754_finite false m e => (1, e, Zpos m)
  | S754_infinity false => (2, 0, 0)
  end.

Definition key_lt (p q : Z * Z * Z) : Prop :=
  let '(p1, p2, p3) := p in
  let '(q1, q2, q3) := q in
  p1 < q1 \/ (p1 = q1 /\ (p2 < q2 \/ (p2 = q2 /\ p3 < q3))).

(** The z range as [buildInit] leaves it, a z range that is in order, and
    a z range that holds [z]. *)
Definition zRangeUntouched (zMin zMax : float) : Prop :=
  zMin = FLT_MAX /\ zMax = SFopp FLT_MAX.

Definition zRangeOrdered (zMin zMax : float) : Prop :=
  is_nan zMin = false /\ is_nan zMax = false /\
  (zRangeUntouched zMin zMax \/ SFleb zMin zMax = true).

Definition zRangeCovers (z zMin zMax : float) : Prop :=
  SFleb zMin z = true /\ SFleb z zMax = true.

(** A build over the grid of [initShape]: a triangle that leaves the
    grid, a point at height 2 and a point at height -1. *)
Definition risePoint : TPoint3Df := pt3f 0 0 2.
Definition riseBuildBefore : list BuildOp := [AddTriangle leavingTriangle].
Definition riseBuildAfter : list BuildOp := [AddPoint (pt3f 0 0 (-1))].

Definition riseShape : Shape2p5 :=
  match runBuild (geom := mrpt_geometry) initShape
                 (riseBuildBefore ++ AddPoint risePoint :: riseBuildAfter)%list with
  | Ok s => s
  | Err _ => initShape
  end.

(** Cells next to each other in a row or in a column. *)
Definition adjacent (x y x' y' : Z) : Prop :=
  (y' = y /\ (x' = x + 1 \/ x' = x - 1)) \/
  (x' = x /\ (y' = y + 1 \/ y' = y - 1)).

(** The Undefined cells of [g] that a chain of Undefined cells, each next
    to the one before, links to the seed cell (0, 0). *)
Inductive linked (g : CDynamicGrid) : Z -> Z -> Prop :=
| linked_seed : Inside g 0 0 = true -> linked g 0 0
| linked_step (x y x' y' : Z) :
    linked g x y -> adjacent x y x' y' -> Inside g x' y' = true -> linked g x' y'.

(** The state of the fill at the head of its loop, [g0] being the grid at
    the start: the cells freed so far are linked to the seed and have no
    Undefined cell to their left or right, and an Undefined cell above or
    below one of them is at the end of a run of Undefined cells that
    starts at a queued cell. *)
Definition freed (g0 g : CDynamicGrid) (x y : Z) : Prop :=
  Inside g0 x y = true /\ Inside g x y = false.

Definition fillInvariant (g0 g : CDynamicGrid) (s : list Coord) : Prop :=
  filled_from g0 g /\
  Forall (fun c : Coord => linked g0 (fst c) (snd c)) s /\
  (forall x y, freed g0 g x y -> linked g0 x y) /\
  (forall x y, freed g0 g x y ->
               Inside g (x - 1) y = false /\ Inside g (x + 1) y = false) /\
  (forall x y y', freed g0 g x y -> y' = y + 1 \/ y' = y - 1 ->
                  Inside g x y' = true ->
                  exists q, In (q, y') s /\ q <= x /\
                            forall a, q <= a <= x -> Inside g a y' = true).


(** ** The volume of a shape *)

(** [mrpt::math::signedArea], which is not part of this repository. *)
Class PolygonArea : Type := {
  signedArea : TPolygon2D -> double
}.

(** [volume]: the contour is read as it is, and not computed when it is
    missing. The height is a [float], widened for the product. *)
Definition volume {area : PolygonArea} (self : Shape2p5) : result double :=
  c ← deref (contour_ self);
  Ok (SFabs (signedArea c)
      * double_of_float (SFabs (zMin_ self - zMax_ self)%flt))%dbl.

(** A number that is not negative: a NaN, or a number whose sign bit is
    clear. *)
Definition sign_clear (x : spec_float) : Prop :=
  match x with
  | S754_nan => True
  | S754_zero s | S754_infinity s | S754_finite s _ _ => s = false
  end.

(** The area by the shoelace formula, to run [volume] on examples. *)
Fixpoint shoelace (first prev : TVector2D) (l : list TVector2D) : double :=
  match l with
  | [] => (v_x prev * v_y first - v_x first * v_y prev)%dbl
  | p :: l' => (v_x prev * v_y p - v_x p * v_y prev + shoelace first p l')%dbl
  end.

Definition shoelace_area : PolygonArea :=
  {| signedArea := fun p =>
       match p with
       | [] => double_of_Z 0
       | first :: l => (shoelace first first l * dlit 5 10)%dbl
       end |}.

(** A NaN or the positive infinity: what a norm of a vector with a
    coordinate that is no number is. *)
Definition nan_or_pinf (a : spec_float) : bool :=
  match a with S754_nan | S754_infinity false => true | _ => false end.

(** Triangles for the examples: one with a NaN vertex, and a grid that
    [buildInit] makes for an empty bounding box, of resolution 0. *)
Definition nanTriangle : TTriangle :=
  {| vertex0 := pt3f 0 0 0; vertex1 := pt3f 1 0 0;
     vertex2 := {| f3_x := float_of_Z 0; f3_y := S754_nan; f3_z := float_of_Z 0 |} |}.

Definition pointBoxShape : Shape2p5 :=
  buildInit (geom := mrpt_geometry) blankShape (pt2f 0 0) (pt2f 0 0) 10.

(** The failure of the conversion of the number of steps of an edge. *)
Definition noSteps : error :=
  UndefinedBehaviour "float to int conversion out of range".

(** * Properties *)

(** ** The error monad *)

Lemma bind_Ok_inv {A B : Type} (r : result A) (k : A -> result B) (b : B) :
  r ≫= k = Ok b -> exists a, r = Ok a /\ k a = Ok b.
Proof. destruct r; [eauto | discriminate]. Qed.

Lemma ASSERT_Ok_inv (c : bool) (t : string) (u : unit) :
  ASSERT_ c t = Ok u -> c = true.
Proof. destruct c; [reflexivity | discriminate]. Qed.

Lemma Ok_inj {A : Type} (a b : A) : Ok a = Ok b -> a = b.
Proof. congruence. Qed.

Ltac bind_inv H :=
  let a := fresh "a" in
  let Ha := fresh "Ha" in
  apply bind_Ok_inv in H as (a & Ha & H).

(** ** IEEE-754 facts used below *)

Lemma SFeqb_finite_inv (s1 : bool) (m1 : positive) (e1 : Z)
      (s2 : bool) (m2 : positive) (e2 : Z) :
  SFeqb (S754_finite s1 m1 e1) (S754_finite s2 m2 e2) = true ->
  s1 = s2 /\ m1 = m2 /\ e1 = e2.
Proof.
  unfold SFeqb, SFcompare.
  destruct s1, s2; try discriminate;
    destruct (Z.compare e1 e2) eqn:He; try discriminate;
    destruct (Pos.compare_cont Eq m1 m2) eqn:Hm; try discriminate;
    intros _; apply Z.compare_eq in He; apply Pos.compare_eq in Hm; auto.
Qed.

Lemma SFltb_irrefl (a : spec_float) : SFltb a a = false.
Proof.
  unfold SFltb, SFcompare. destruct a as [s|s| |s m e]; try reflexivity.
  - destruct s; reflexivity.
  - rewrite Z.compare_refl. fold (Pos.compare m m). rewrite Pos.compare_refl.
    destruct s; reflexivity.
Qed.

(** Numbers that compare equal are not ordered. *)
Lemma SFeqb_true_ltb (a b : spec_float) :
  SFeqb a b = true -> SFltb a b = false /\ SFltb b a = false.
Proof.
  intros H.
  destruct a as [sa|sa| |sa ma ea], b as [sb|sb| |sb mb eb];
    try (apply SFeqb_finite_inv in H as (-> & -> & ->);
         split; apply SFltb_irrefl);
    try destruct sa; try destruct sb; try discriminate H; split; reflexivity.
Qed.

(** [<] is asymmetric. *)
Lemma SFltb_asym (a b : spec_float) : SFltb a b = true -> SFltb b a = false.
Proof.
  unfold SFltb, SFcompare.
  destruct a as [sa|sa| |sa ma ea], b as [sb|sb| |sb mb eb];
    try destruct sa; try destruct sb; try discriminate; try reflexivity.
  all: assert (HZ : IntDef.Z.compare eb ea = CompOpp (IntDef.Z.compare ea eb))
    by apply (Z.compare_antisym ea eb).
  all: assert (HP : PosDef.Pos.compare_cont Eq mb ma
                    = CompOpp (PosDef.Pos.compare_cont Eq ma mb))
    by apply (Pos.compare_antisym ma mb).
  all: rewrite HZ, HP.
  all: destruct (IntDef.Z.compare ea eb), (PosDef.Pos.compare_cont Eq ma mb);
    cbn [CompOpp]; try discriminate; reflexivity.
Qed.

Lemma SFabs_opp (a : spec_float) : SFabs (SFopp a) = SFabs a.
Proof. destruct a; reflexivity. Qed.

(** [a - a] is [+0] for a finite [a]. *)
Lemma dsub_diag_finite (s : bool) (m : positive) (e : Z) :
  dsub (S754_finite s m e) (S754_finite s m e) = S754_zero false.
Proof.
  unfold dsub, SFsub.
  match goal with
  | |- binary_normalize _ _ (IntDef.Z.sub ?a ?a) _ _ = _ =>
      change (IntDef.Z.sub a a) with (Z.sub a a); rewrite Z.sub_diag
  end.
  reflexivity.
Qed.

Lemma same_value_refl (a : spec_float) : same_value a a.
Proof. destruct a; simpl; auto. Qed.

(** A finite number times a zero is a zero, and a zero over a positive
    number is a zero. *)
Lemma dmul_finite_zero (a z : double) :
  is_finite a = true -> is_zero z = true -> is_zero (a * z)%dbl = true.
Proof. destruct a, z; try discriminate; reflexivity. Qed.

Lemma ddiv_zero_pos (z d : double) :
  is_zero z = true -> (d >? double_of_Z 0)%dbl = true -> is_zero (z / d)%dbl = true.
Proof.
  destruct z; try discriminate. intros _.
  destruct d as [s'|s'| |s' m e]; try destruct s'; try discriminate;
    intros _; reflexivity.
Qed.

(** Subtracting a zero changes at most the sign of a zero. *)
Lemma dsub_zero_same (q z : double) :
  is_zero z = true -> same_value (q - z)%dbl q.
Proof.
  destruct z as [sz| | |]; try discriminate. intros _.
  destruct q as [s|s| |s m e]; try reflexivity.
  destruct s, sz; exact I.
Qed.

(** Adding a product to [a] respects [same_value] in the first factor. *)
Lemma dadd_dmul_same (a p q t : double) :
  same_value p q -> same_value (a + p * t)%dbl (a + q * t)%dbl.
Proof.
  intros H.
  destruct p as [sp|sp| |sp mp ep], q as [sq|sq| |sq mq eq];
    try discriminate H; try (inversion H; subst; apply same_value_refl).
  destruct t as [st|st| |st mt et], a as [sa|sa| |sa ma ea];
    try reflexivity; try apply same_value_refl;
    destruct sp, sq, st, sa; try exact I; reflexivity.
Qed.

(** ** The saturation function *)

(** C1. The specification asks of [miS(x, x0)] the value [x] for
    [|x| <= x0] and [x0 * sign(x)] beyond. The code computes
    [x * miH(x0, |x|) + x0 * miH(|x|, x0)]: below [-x0] it returns [+x0],
    not [-x0] (here [miS(-0.2, 0.1) = 0.1]), and at [|x| = x0] both
    Heaviside terms vanish and it returns 0 (here [miS(0.1, 0.1) = 0]). *)
Theorem miS_misses_sign_and_bound :
  miS (dlit (-2) 10) (dlit 1 10) = dlit 1 10 /\
  miS (dlit 1 10) (dlit 1 10) = double_of_Z 0 /\
  miS (dlit (-1) 10) (dlit 1 10) = double_of_Z 0.
Proof. repeat split; vm_compute; reflexivity. Qed.

(** Where the code does saturate: strictly inside the band the
    value is [x] (checked on samples), and above [x0] it is [x0]. *)
Example miS_inside_band :
  miS (dlit 5 100) (dlit 1 10) = dlit 5 100 /\
  miS (dlit (-5) 100) (dlit 1 10) = dlit (-5) 100 /\
  miS (double_of_Z 3) (dlit 1 10) = dlit 1 10.
Proof. repeat split; vm_compute; reflexivity. Qed.

(** At the bound itself the result is a zero, for every finite [x]. *)
Lemma miS_at_bound (a a0 : double) :
  is_finite a = true -> (SFabs a =? a0)%dbl = true -> is_zero (miS a a0) = true.
Proof.
  intros Hf He. unfold miS, miH.
  destruct (SFeqb_true_ltb _ _ He) as [-> ->].
  destruct a as [s|s| |s m e], a0 as [s0|s0| |s0 m0 e0]; try discriminate Hf;
    try destruct s; try destruct s0; try discriminate He; reflexivity.
Qed.

(** Beyond the band the result does not depend on the sign of [x]. *)
Lemma miS_even_beyond_bound (a a0 : double) :
  is_finite a = true -> (SFabs a >? a0)%dbl = true ->
  same_value (miS (- a)%dbl a0) (miS a a0).
Proof.
  intros Hf Hgt. unfold miS, miH. rewrite SFabs_opp, Hgt, (SFltb_asym _ _ Hgt).
  change (double_of_Z 0) with (S754_zero false).
  destruct a as [s|s| |s m e]; try discriminate Hf;
    cbn [SFopp dmul SFmul];
    destruct (a0 * double_of_Z 1)%dbl as [s1|s1| |s1 m1 e1];
    destruct s; try destruct s1; try exact I; reflexivity.
Qed.

(** ** evaluate_friction *)

Lemma slipRatio_equal_speeds (a b : double) :
  (a =? b)%dbl = true -> slipRatio a b = double_of_Z 0.
Proof.
  intros H.
  destruct a as [sa|sa| |sa ma ea], b as [sb|sb| |sb mb eb];
    try (apply SFeqb_finite_inv in H as (-> & -> & ->);
         unfold slipRatio, miH; rewrite SFltb_irrefl, dsub_diag_finite;
         destruct sb; reflexivity);
    try destruct sa; try destruct sb; try discriminate H; reflexivity.
Qed.

Lemma vec_at_cons4 {A : Type} (a0 a1 a2 a3 : A) (rest : list A) :
  vec_at (a0 :: a1 :: a2 :: a3 :: rest) 0 = Ok a0 /\
  vec_at (a0 :: a1 :: a2 :: a3 :: rest) 1 = Ok a1 /\
  vec_at (a0 :: a1 :: a2 :: a3 :: rest) 2 = Ok a2 /\
  vec_at (a0 :: a1 :: a2 :: a3 :: rest) 3 = Ok a3.
Proof. repeat split. Qed.

Section FrictionProperties.
Context {libm : LibM}.
Variable self : EllipseCurveMethod.
Variable veh : VehicleBase.

(** What a successful call has computed, stage after stage. *)
Lemma friction_stages_inv (wi : Z) (input : TFrictionInput) (tr : friction_trace) :
  friction_stages self veh wi input = Ok tr ->
  t_R tr = (dlit 5 10 * diameter (wheel input))%dbl /\
  t_max_friction tr = t_Fz tr /\
  t_s tr = slipRatio (t_R tr * getW (wheel input))%dbl (t_vxT tr) /\
  t_wheel_long_friction tr =
    (t_max_friction tr * Cs_ self * miS (t_s tr) (ss_ self)
     * dsqrt (double_of_Z 1
              - Csaf_ self
                * pow (miS (t_af tr) (double_of_Z 5 * M_PI / double_of_Z 180)
                       / (double_of_Z 5 * M_PI / double_of_Z 180))
                      (double_of_Z 2)))%dbl /\
  t_wheel_lat_friction tr =
    (- t_max_friction tr * Caf_ self
     * miS (t_af tr) (double_of_Z 5 * M_PI / double_of_Z 180)
     * dsqrt (double_of_Z 1
              - Cafs_ self
                * pow (miS (t_s tr) (ss_ self) / ss_ self) (double_of_Z 2)))%dbl /\
  t_actual_wheel_alpha tr =
    (motorTorque input / Iyy (wheel input)
     - t_R tr * t_wheel_long_friction tr / Iyy (wheel input))%dbl /\
  t_new_w tr =
    (getW (wheel input) + t_actual_wheel_alpha tr * context_dt input)%dbl.
Proof.
  unfold friction_stages. intros H.
  repeat bind_inv H.
  apply Ok_inj in H. subst tr.
  cbn [t_R t_Fz t_max_friction t_vxT t_s t_af t_wheel_long_friction
       t_wheel_lat_friction t_actual_wheel_alpha t_new_w].
  unfold slipRatio. repeat split; reflexivity.
Qed.

(** Only the indices 0 to 3 get through the load-transfer stage. *)
Lemma friction_stages_index (wi : Z) (input : TFrictionInput) (tr : friction_trace) :
  friction_stages self veh wi input = Ok tr -> 0 <= wi <= 3.
Proof.
  unfold friction_stages. intros H.
  do 7 bind_inv H.
  destruct (wi =? 3) eqn:E3; [lia|].
  destruct (wi =? 2) eqn:E2; [lia|].
  destruct (wi =? 1) eqn:E1; [lia|].
  destruct (wi =? 0) eqn:E0; [lia|].
  discriminate Ha5.
Qed.

(** C8. When the wheel surface speed [R * w] equals the
    contact-point velocity [vxT], the slip ratio [s] that the friction
    stages use is exactly [+0]: the quotient is 0/0 (or inf - inf), a NaN,
    which the guard replaces by 0. *)
Theorem slip_is_zero_at_equal_speeds
        (wi : Z) (input : TFrictionInput) (tr : friction_trace) :
  friction_stages self veh wi input = Ok tr ->
  (t_R tr * getW (wheel input) =? t_vxT tr)%dbl = true ->
  t_s tr = double_of_Z 0.
Proof.
  intros H Heq.
  destruct (friction_stages_inv _ _ _ H) as (_ & _ & -> & _).
  apply slipRatio_equal_speeds, Heq.
Qed.

(** The angular acceleration without longitudinal force is [T / I], up
    to the sign of a zero. *)
Lemma alpha_without_friction (T I R F : double) :
  is_zero F = true -> is_finite R = true -> (I >? double_of_Z 0)%dbl = true ->
  same_value (T / I - R * F / I)%dbl (T / I)%dbl.
Proof.
  intros HF HR HI. apply dsub_zero_same.
  apply ddiv_zero_pos; [apply dmul_finite_zero|]; assumption.
Qed.

(** C7. With inertia [I > 0], a wheel radius that is a
    number and a longitudinal friction force of zero, one call sets the
    angular velocity of the caller's wheel to [w + (T / I) * dt]: the same
    number, and the same bits unless that number is a zero. *)
Theorem spin_update_is_one_euler_step
        (wi : Z) (input : TFrictionInput) (tr : friction_trace) :
  friction_stages self veh wi input = Ok tr ->
  is_zero (t_wheel_long_friction tr) = true ->
  is_finite (t_R tr) = true ->
  (Iyy (wheel input) >? double_of_Z 0)%dbl = true ->
  exists (force : TVector2D) (wheel' : Wheel),
    evaluate_friction self veh wi input = Ok (force, wheel') /\
    same_value (getW wheel')
               (getW (wheel input)
                + motorTorque input / Iyy (wheel input) * context_dt input)%dbl /\
    (is_zero (getW wheel') = false ->
     getW wheel'
     = (getW (wheel input)
        + motorTorque input / Iyy (wheel input) * context_dt input)%dbl).
Proof.
  intros H HF HR HI.
  exists (t_res tr), (setW (wheel input) (t_new_w tr)).
  split; [unfold evaluate_friction; rewrite H; reflexivity|].
  destruct (friction_stages_inv _ _ _ H) as (_ & _ & _ & _ & _ & Ha & Hw).
  cbn [getW setW w]. rewrite Hw, Ha.
  pose proof (dadd_dmul_same (w (wheel input)) _ _ (context_dt input)
                (alpha_without_friction (motorTorque input) _ _ _ HF HR HI)) as Hs.
  unfold getW. split; [exact Hs|].
  intros Hnz. revert Hs Hnz. unfold same_value.
  destruct (w (wheel input)
            + (motorTorque input / Iyy (wheel input)
               - t_R tr * t_wheel_long_friction tr / Iyy (wheel input))
              * context_dt input)%dbl; auto; discriminate.
Qed.


(** C6. An index outside 0..3 never yields a force. On a
    vehicle with four wheels and positive axle widths the failure is the
    runtime error of the load-transfer stage; when an axle width is not
    positive, the assertion on it fails before the index is looked at. *)
Theorem invalid_wheel_index_is_rejected (wi : Z) (input : TFrictionInput) :
  wi < 0 \/ 3 < wi ->
  is_ok (evaluate_friction self veh wi input) = false /\
  (forall (p0 p1 p2 p3 : TVector2D) (rest : list TVector2D),
      wheelPositions veh = p0 :: p1 :: p2 :: p3 :: rest ->
      ((axleWidth p2 p3 >? double_of_Z 0)%dbl = true ->
       (axleWidth p0 p1 >? double_of_Z 0)%dbl = true ->
       evaluate_friction self veh wi input
       = Err (RuntimeError "Invalid wheel index")) /\
      ((axleWidth p2 p3 >? double_of_Z 0)%dbl = false ->
       evaluate_friction self veh wi input = Err (AssertionFailed "Axf > 0"))).
Proof.
  intros Hwi. split.
  - unfold evaluate_friction.
    destruct (friction_stages self veh wi input) as [tr|e] eqn:H; [|reflexivity].
    apply friction_stages_index in H. lia.
  - intros p0 p1 p2 p3 rest Hpos.
    destruct (vec_at_cons4 p0 p1 p2 p3 rest) as (H0 & H1 & H2 & H3).
    unfold evaluate_friction, friction_stages.
    rewrite Hpos, H0, H1, H2, H3. cbn [mbind result_bind].
    split.
    + intros -> ->. cbn [ASSERT_ mbind result_bind].
      destruct (wi =? 3) eqn:E3; [lia|].
      destruct (wi =? 2) eqn:E2; [lia|].
      destruct (wi =? 1) eqn:E1; [lia|].
      destruct (wi =? 0) eqn:E0; [lia|].
      reflexivity.
    + intros ->. reflexivity.
Qed.

End FrictionProperties.

(** *** Evaluations on the example car *)

Lemma slip_is_zero_at_equal_speeds_witness :
  exists tr : friction_trace,
    friction_stages (libm := taylor_libm) default_params (exVehicle rolling noAccel) 3
                    (exInput rollingWheel (double_of_Z 0)) = Ok tr /\
    (t_R tr * getW rollingWheel =? t_vxT tr)%dbl = true /\
    t_s tr = double_of_Z 0.
Proof.
  match eval vm_compute in
        (friction_stages (libm := taylor_libm) default_params
                         (exVehicle rolling noAccel) 3
                         (exInput rollingWheel (double_of_Z 0))) with
  | Ok ?t =>
      exists t; split; [vm_compute; reflexivity|]; split;
        [vm_compute; reflexivity|];
        apply (slip_is_zero_at_equal_speeds
                 (libm := taylor_libm) default_params (exVehicle rolling noAccel) 3
                 (exInput rollingWheel (double_of_Z 0)) t);
        vm_compute; reflexivity
  end.
Defined.

Lemma spin_update_is_one_euler_step_witness :
  (Iyy frontRight >? double_of_Z 0)%dbl = true /\
  exists (force : TVector2D) (wheel' : Wheel),
    evaluate_friction (libm := taylor_libm) default_params (exVehicle atRest noAccel) 3
                      (exInput frontRight (double_of_Z 5)) = Ok (force, wheel') /\
    same_value (getW wheel')
               (getW frontRight + double_of_Z 5 / Iyy frontRight * dlit 1 1000)%dbl /\
    (is_zero (getW wheel') = false ->
     getW wheel' = (getW frontRight + double_of_Z 5 / Iyy frontRight * dlit 1 1000)%dbl).
Proof.
  split; [vm_compute; reflexivity|].
  match eval vm_compute in
        (friction_stages (libm := taylor_libm) default_params
                         (exVehicle atRest noAccel) 3
                         (exInput frontRight (double_of_Z 5))) with
  | Ok ?t =>
      apply (spin_update_is_one_euler_step
               (libm := taylor_libm) default_params (exVehicle atRest noAccel) 3
               (exInput frontRight (double_of_Z 5)) t);
        vm_compute; reflexivity
  end.
Defined.



(** C6, where the specification and the code part: on the tricycle the
    front axle has no width, and the call with index 4 fails on the
    assertion [Axf > 0], not with the runtime error of the index. *)
Lemma invalid_index_fails_on_axle_assertion_first :
  ~ (forall (libm : LibM) (self : EllipseCurveMethod) (veh : VehicleBase)
            (wi : Z) (input : TFrictionInput),
        wi < 0 \/ 3 < wi ->
        evaluate_friction self veh wi input = Err (RuntimeError "Invalid wheel index")).
Proof.
  intros H.
  specialize (H taylor_libm default_params tricycle 4
                (exInput frontRight (double_of_Z 5)) (or_intror eq_refl)).
  vm_compute in H. discriminate H.
Qed.

Example invalid_index_on_tricycle :
  evaluate_friction (libm := taylor_libm) default_params tricycle 4
                    (exInput frontRight (double_of_Z 5))
  = Err (AssertionFailed "Axf > 0").
Proof. vm_compute. reflexivity. Qed.

Lemma invalid_wheel_index_is_rejected_witness :
  (4 < 0 \/ 3 < 4) /\
  is_ok (evaluate_friction (libm := taylor_libm) default_params
                           (exVehicle atRest noAccel) 4
                           (exInput frontRight (double_of_Z 5))) = false /\
  evaluate_friction (libm := taylor_libm) default_params (exVehicle atRest noAccel) 4
                    (exInput frontRight (double_of_Z 5))
  = Err (RuntimeError "Invalid wheel index").
Proof.
  assert (Hwi : 4 < 0 \/ 3 < 4) by (right; reflexivity).
  split; [exact Hwi|].
  destruct (invalid_wheel_index_is_rejected
              (libm := taylor_libm) default_params (exVehicle atRest noAccel) 4
              (exInput frontRight (double_of_Z 5)) Hwi) as [Hno Hidx].
  split; [exact Hno|].
  match eval vm_compute in (wheelPositions (exVehicle atRest noAccel)) with
  | ?p0 :: ?p1 :: ?p2 :: ?p3 :: ?rest =>
      destruct (Hidx p0 p1 p2 p3 rest) as [Hrun _];
        [vm_compute; reflexivity|];
        apply Hrun; vm_compute; reflexivity
  end.
Defined.

(** ** The grid *)

Lemma count_in_insert (v u : Z) (l : list Z) (i : nat) :
  l !! i = Some v -> u <> v ->
  S (count_in v (<[i := u]> l)) = count_in v l.
Proof.
  revert i. induction l as [|c l IH]; intros [|i] H Hu; try discriminate.
  - injection H as ->. cbn. rewrite Z.eqb_refl.
    destruct (u =? v) eqn:E; [apply Z.eqb_eq in E; contradiction | reflexivity].
  - cbn in *. destruct (c =? v); rewrite <- (IH i H Hu); reflexivity.
Qed.

Lemma filled_from_refl (g : CDynamicGrid) : filled_from g g.
Proof. repeat split; auto. Qed.

Lemma filled_from_trans (g1 g2 g3 : CDynamicGrid) :
  filled_from g1 g2 -> filled_from g2 g3 -> filled_from g1 g3.
Proof.
  intros (He1 & Hl1 & H1) (He2 & Hl2 & H2). repeat split; try congruence.
  intros i. destruct (H1 i) as [E1|[E1 F1]], (H2 i) as [E2|[E2 F2]].
  - left; congruence.
  - right; split; congruence.
  - right; split; congruence.
  - rewrite F1 in E2. discriminate.
Qed.

Section GridProperties.
Context {geom : GridGeometry}.

Lemma count_in_zero_lookup (v : Z) (l : list Z) (i : nat) (c : Z) :
  count_in v l = O -> l !! i = Some c -> c <> v.
Proof.
  revert i. induction l as [|a l IH]; intros [|i] Hc Hl; try discriminate; cbn in *.
  - injection Hl as ->. destruct (c =? v) eqn:E; [discriminate | apply Z.eqb_neq, E].
  - destruct (a =? v); [discriminate|]. eapply IH; eauto.
Qed.

Lemma count_in_zero_intro (v : Z) (l : list Z) :
  (forall i c, l !! i = Some c -> c <> v) -> count_in v l = O.
Proof.
  induction l as [|a l IH]; intros H; cbn; [reflexivity|].
  destruct (a =? v) eqn:E.
  - apply Z.eqb_eq in E. exfalso. apply (H O a); [reflexivity | exact E].
  - apply IH. intros i c Hi. apply (H (S i) c). exact Hi.
Qed.

(** *** The seed fill *)

Lemma Inside_inv g x y :
  Inside g x y = true ->
  0 <= x < getSizeX g /\ 0 <= y < getSizeY g /\
  cellByIndex g x y = Some (Z.to_nat (x + y * getSizeX g)) /\
  m_map g !! Z.to_nat (x + y * getSizeX g) = Some CELL_UNDEFINED.
Proof.
  unfold Inside, cellByIndex, read_cell.
  destruct (x <? 0) eqn:E1; [discriminate|].
  destruct (y <? 0) eqn:E2; [discriminate|].
  destruct (x >? getSizeX g - 1) eqn:E3; [discriminate|].
  destruct (y >? getSizeY g - 1) eqn:E4; [discriminate|].
  cbn [orb].
  destruct (getSizeX g <=? x) eqn:E5; [lia|].
  destruct (getSizeY g <=? y) eqn:E6; [lia|].
  cbn [orb]. intros H.
  repeat split; try lia.
  destruct (m_map g !! Z.to_nat (x + y * getSizeX g)) as [c|] eqn:El; cbn in H.
  - apply Z.eqb_eq in H. congruence.
  - discriminate.
Qed.

Lemma Set_Inside g x y :
  Inside g x y = true ->
  filled_from g (Set_ g x y) /\
  S (count_cells CELL_UNDEFINED (Set_ g x y)) = count_cells CELL_UNDEFINED g /\
  m_map (Set_ g x y) !! Z.to_nat (x + y * getSizeX g) = Some CELL_FREE.
Proof.
  intros H. destruct (Inside_inv _ _ _ H) as (Hx & Hy & Hc & Hl).
  unfold Set_. 
  destruct (x <? 0) eqn:E1; [lia|].
  destruct (y <? 0) eqn:E2; [lia|].
  destruct (x >? getSizeX g - 1) eqn:E3; [lia|].
  destruct (y >? getSizeY g - 1) eqn:E4; [lia|].
  cbn [orb]. rewrite Hc. unfold write_cell, count_cells. cbn [m_map extent].
  split; [|split].
  - repeat split; [apply length_insert|].
    intros i. destruct (decide (i = Z.to_nat (x + y * getSizeX g))) as [->|Hne].
    + right. split; [exact Hl|]. apply list_lookup_insert_eq.
      apply lookup_lt_Some in Hl. exact Hl.
    + left. apply list_lookup_insert_ne. congruence.
  - apply count_in_insert; [exact Hl | discriminate].
  - apply list_lookup_insert_eq. apply lookup_lt_Some in Hl. exact Hl.
Qed.

Lemma filled_from_sizes g g' :
  filled_from g g' -> getSizeX g' = getSizeX g /\ getSizeY g' = getSizeY g.
Proof. intros (He & _). unfold getSizeX, getSizeY. rewrite He. auto. Qed.

(** The loop to the left ends, having freed the cells it walked over. *)
Lemma extendLeft_ok (fuel : nat) : forall g lx y,
  (Z.to_nat lx <= fuel)%nat ->
  exists g' lx',
    extendLeft fuel g lx y = Ok (g', lx') /\
    filled_from g g' /\ lx' <= lx /\
    (count_cells CELL_UNDEFINED g' + Z.to_nat (lx - lx'))%nat
    = count_cells CELL_UNDEFINED g.
Proof.
  induction fuel as [|fuel IH]; intros g lx y Hf; cbn [extendLeft].
  - destruct (Inside g (lx - 1) y) eqn:E.
    + apply Inside_inv in E. lia.
    + exists g, lx. rewrite Z.sub_diag. repeat split; auto; lia.
  - destruct (Inside g (lx - 1) y) eqn:E.
    + destruct (Set_Inside _ _ _ E) as (Hs & Hc & _).
      apply Inside_inv in E as (Hx & _).
      destruct (IH (Set_ g (lx - 1) y) (lx - 1) y) as (g' & lx' & -> & Hf' & Hle & Hcnt);
        [lia|].
      exists g', lx'. split; [reflexivity|].
      split; [eapply filled_from_trans; eauto|]. split; [lia|].
      rewrite <- Hc. replace (Z.to_nat (lx - lx')) with (S (Z.to_nat (lx - 1 - lx'))) by lia.
      lia.
    + exists g, lx. rewrite Z.sub_diag. repeat split; auto; lia.
Qed.

Lemma extendRight_ok (fuel : nat) : forall g x y,
  (Z.to_nat (getSizeX g - x) <= fuel)%nat ->
  exists g' x',
    extendRight fuel g x y = Ok (g', x') /\
    filled_from g g' /\ x <= x' /\
    (count_cells CELL_UNDEFINED g' + Z.to_nat (x' - x))%nat
    = count_cells CELL_UNDEFINED g.
Proof.
  induction fuel as [|fuel IH]; intros g x y Hf; cbn [extendRight].
  - destruct (Inside g x y) eqn:E.
    + apply Inside_inv in E. lia.
    + exists g, x. rewrite Z.sub_diag. repeat split; auto; lia.
  - destruct (Inside g x y) eqn:E.
    + destruct (Set_Inside _ _ _ E) as (Hs & Hc & _).
      apply Inside_inv in E as (Hx & _).
      destruct (filled_from_sizes _ _ Hs) as [Hsx _].
      destruct (IH (Set_ g x y) (x + 1) y) as (g' & x' & -> & Hf' & Hle & Hcnt);
        [lia|].
      exists g', x'. split; [reflexivity|].
      split; [eapply filled_from_trans; eauto|]. split; [lia|].
      rewrite <- Hc. replace (Z.to_nat (x' - x)) with (S (Z.to_nat (x' - (x + 1)))) by lia.
      lia.
    + exists g, x. rewrite Z.sub_diag. repeat split; auto; lia.
Qed.

Lemma scanLoop_length (n : nat) : forall g x y b s,
  (length (scanLoop n g x y b s) <= length s + n)%nat.
Proof.
  induction n as [|n IH]; intros g x y b s; cbn [scanLoop]; [lia|].
  destruct (negb (Inside g x y)).
  - specialize (IH g (x + 1) y false s). lia.
  - destruct (negb b).
    + specialize (IH g (x + 1) y true (s ++ [(x, y)])%list). rewrite length_app in IH.
      cbn in IH. lia.
    + specialize (IH g (x + 1) y b s). lia.
Qed.

Lemma floodLoop_ok (fuel : nat) : forall g s,
  (2 * count_cells CELL_UNDEFINED g + length s <= fuel)%nat ->
  exists g', floodLoop fuel g s = Ok g' /\ filled_from g g'.
Proof.
  induction fuel as [|fuel IH]; intros g s Hf.
  - destruct s as [|[x y] s]; [|cbn in Hf; lia].
    exists g. split; [reflexivity | apply filled_from_refl].
  - destruct s as [|[x y] s]; cbn [floodLoop].
    { exists g. split; [reflexivity | apply filled_from_refl]. }
    destruct (extendLeft_ok (Z.to_nat x) g x y) as (g1 & lx & -> & Hf1 & Hl1 & Hc1); [lia|].
    cbn [mbind result_bind].
    destruct (extendRight_ok (Z.to_nat (getSizeX g1 - x)) g1 x y)
      as (g2 & x' & -> & Hf2 & Hl2 & Hc2); [lia|].
    cbn [mbind result_bind].
    destruct (IH g2 (lambdaScan g2 (lambdaScan g2 s lx (x' - 1) (y + 1)) lx (x' - 1) (y - 1)))
      as (g3 & -> & Hf3).
    { unfold lambdaScan.
      pose proof (scanLoop_length (Z.to_nat (x' - 1 - lx + 1)) g2 lx (y - 1) false
                    (scanLoop (Z.to_nat (x' - 1 - lx + 1)) g2 lx (y + 1) false s)) as L2.
      pose proof (scanLoop_length (Z.to_nat (x' - 1 - lx + 1)) g2 lx (y + 1) false s) as L1.
      cbn [length] in Hf. lia. }
    exists g3. split; [reflexivity|].
    eapply filled_from_trans; [|exact Hf3]. eapply filled_from_trans; eauto.
Qed.


Lemma filled_from_keeps (v : Z) g g' (i : nat) :
  filled_from g g' -> v <> CELL_UNDEFINED ->
  m_map g !! i = Some v -> m_map g' !! i = Some v.
Proof.
  intros (_ & _ & H) Hv Hi. destruct (H i) as [E|[E _]]; congruence.
Qed.

Lemma Inside_cell_is g x y : Inside g x y = cell_is g x y CELL_UNDEFINED.
Proof.
  unfold Inside, cell_is, cellByIndex.
  destruct (x <? 0) eqn:E1; [reflexivity|].
  destruct (y <? 0) eqn:E2; cbn [orb].
  { destruct (getSizeX g <=? x); reflexivity. }
  destruct (x >? getSizeX g - 1) eqn:E3; cbn [orb].
  { destruct (getSizeX g <=? x) eqn:E5; [reflexivity | lia]. }
  destruct (getSizeX g <=? x) eqn:E5; [lia|]. cbn [orb].
  destruct (y >? getSizeY g - 1) eqn:E4.
  { destruct (getSizeY g <=? y) eqn:E6; [reflexivity | lia]. }
  reflexivity.
Qed.

Lemma Inside_false_of_cell g x y (v : Z) :
  v <> CELL_UNDEFINED ->
  m_map g !! Z.to_nat (x + y * getSizeX g) = Some v -> Inside g x y = false.
Proof.
  intros Hv Hl. destruct (Inside g x y) eqn:E; [|reflexivity].
  apply Inside_inv in E as (_ & _ & _ & E). congruence.
Qed.

Lemma extendLeft_stop fuel g lx y :
  Inside g (lx - 1) y = false -> extendLeft fuel g lx y = Ok (g, lx).
Proof. intros H. destruct fuel; cbn [extendLeft]; rewrite H; reflexivity. Qed.

Lemma floodFill_ok g :
  exists g', floodFill g = Ok g' /\ filled_from g g' /\ Inside g' 0 0 = false.
Proof.
  unfold floodFill. destruct (Inside g 0 0) eqn:E; cbn [negb].
  2:{ exists g. split; [reflexivity|]. split; [apply filled_from_refl | exact E]. }
  rewrite Nat.add_1_r. cbn [floodLoop].
  assert (El : Inside g (0 - 1) 0 = false) by reflexivity.
  rewrite (extendLeft_stop _ _ _ _ El). cbn [mbind result_bind].
  destruct (Set_Inside _ _ _ E) as (Hs & Hc & Hfree).
  pose proof (Inside_inv _ _ _ E) as (Hx & _).
  destruct (Z.to_nat (getSizeX g - 0)) as [|n] eqn:En; [lia|].
  cbn [extendRight]. rewrite E.
  destruct (filled_from_sizes _ _ Hs) as [Hsx _].
  destruct (extendRight_ok n (Set_ g 0 0) (0 + 1) 0) as (g2 & x' & -> & Hf2 & Hl2 & Hc2);
    [lia|].
  cbn [mbind result_bind].
  match goal with
  | |- context [floodLoop ?f ?g ?s] =>
      destruct (floodLoop_ok f g s) as (g3 & -> & Hf3)
  end.
  { unfold lambdaScan.
    match goal with
    | |- context [scanLoop ?n g2 0 ?y2 false (scanLoop ?n g2 0 ?y1 false [])] =>
        pose proof (scanLoop_length n g2 0 y2 false (scanLoop n g2 0 y1 false [])) as L2;
        pose proof (scanLoop_length n g2 0 y1 false []) as L1
    end.
    cbn [length] in L1. unfold Coord in *. lia. }
  assert (Hall : filled_from (Set_ g 0 0) g3) by (eapply filled_from_trans; eauto).
  exists g3. split; [reflexivity|]. split.
  - eapply filled_from_trans; eauto.
  - apply (Inside_false_of_cell g3 0 0 CELL_FREE); [discriminate|].
    destruct (filled_from_sizes _ _ Hall) as [-> _]. rewrite Hsx.
    eapply filled_from_keeps; [exact Hall | discriminate | exact Hfree].
Qed.

Lemma floodFill_fixed g : Inside g 0 0 = false -> floodFill g = Ok g.
Proof. unfold floodFill. intros ->. reflexivity. Qed.

(** The fill marks no cell Occupied. *)
Lemma filled_from_no_occupied g g' :
  filled_from g g' ->
  count_cells CELL_OCCUPIED g = O -> count_cells CELL_OCCUPIED g' = O.
Proof.
  intros (_ & _ & H) Hc. apply count_in_zero_intro. intros i c Hi.
  destruct (H i) as [E|[_ E]].
  - eapply count_in_zero_lookup; [exact Hc|]. rewrite <- E. exact Hi.
  - rewrite E in Hi. injection Hi as <-. discriminate.
Qed.

Lemma filled_from_wf g g' : filled_from g g' -> grid_wf g -> grid_wf g'.
Proof.
  intros (He & Hl & _). unfold grid_wf, getSizeX, getSizeY. rewrite He, Hl. auto.
Qed.

(** The scan for the first Occupied cell runs off the grid when there is
    none. *)
Lemma findFirstOccupied_none g (fuel : nat) : forall cx cy,
  grid_wf g -> count_cells CELL_OCCUPIED g = O ->
  0 <= cx < getSizeX g -> 0 <= cy < getSizeY g ->
  (Z.to_nat ((getSizeY g - cy) * getSizeX g - cx) <= fuel)%nat ->
  findFirstOccupied fuel g (getSizeX g) (getSizeY g) cx cy
  = Err (AssertionFailed "cy < ny").
Proof.
  induction fuel as [|fuel IH]; intros cx cy Hwf Hno Hx Hy Hf.
  - exfalso. nia.
  - cbn [findFirstOccupied]. unfold cellByIndex.
    destruct (cx <? 0) eqn:E1; [lia|].
    destruct (getSizeX g <=? cx) eqn:E2; [lia|].
    destruct (cy <? 0) eqn:E3; [lia|].
    destruct (getSizeY g <=? cy) eqn:E4; [lia|].
    cbn [orb]. unfold read_cell.
    assert (Hlt : (Z.to_nat (cx + cy * getSizeX g) < length (m_map g))%nat).
    { rewrite Hwf. nia. }
    destruct (lookup_lt_is_Some_2 _ _ Hlt) as [c Hc]. rewrite Hc. cbn [default from_option id].
    pose proof (count_in_zero_lookup _ _ _ _ Hno Hc) as Hne.
    destruct (c =? CELL_OCCUPIED) eqn:Ec; [apply Z.eqb_eq in Ec; contradiction|].
    destruct (getSizeX g <=? cx + 1) eqn:E5.
    + destruct (cy + 1 <? getSizeY g) eqn:E6; [|reflexivity].
      cbn [ASSERT_ mbind result_bind]. apply IH; auto; try lia.
    + apply IH; auto; try lia.
Qed.

Lemma gridContour_none g :
  grid_wf g -> count_cells CELL_OCCUPIED g = O ->
  0 < getSizeX g -> 0 < getSizeY g ->
  gridContour g = Err (AssertionFailed "cy < ny").
Proof.
  intros Hwf Hno Hx Hy. unfold gridContour.
  rewrite findFirstOccupied_none; auto; try lia.
Qed.

Lemma getContour_none self g :
  grid_ self = Some g -> contour_ self = None ->
  grid_wf g -> count_cells CELL_OCCUPIED g = O ->
  0 < getSizeX g -> 0 < getSizeY g ->
  getContour self = Err (AssertionFailed "cy < ny").
Proof.
  intros Hg Hc Hwf Hno Hx Hy.
  unfold getContour, computeShape. rewrite Hc, Hg.
  cbn [ASSERT_ mbind result_bind has_value negb].
  unfold internalGridFloodFill. rewrite Hg.
  destruct (floodFill_ok g) as (g' & -> & Hf & _).
  cbn [mbind result_bind]. unfold internalGridContour. cbn [grid_].
  destruct (filled_from_sizes _ _ Hf) as [Hsx Hsy].
  rewrite gridContour_none; auto.
  - eapply filled_from_wf; eauto.
  - eapply filled_from_no_occupied; eauto.
  - lia.
  - lia.
Qed.

(** A grid without a cell: the scan reads through the null pointer that
    [cellByIndex(0, 0)] returns. *)
Lemma gridContour_without_cells (g : CDynamicGrid) :
  getSizeX g <= 0 \/ getSizeY g <= 0 ->
  gridContour g = Err (UndefinedBehaviour "null cell dereferenced").
Proof.
  intros H. unfold gridContour.
  assert (E : cellByIndex g 0 0 = None).
  { unfold cellByIndex.
    destruct (getSizeX g <=? 0) eqn:Ex; [reflexivity|].
    destruct (getSizeY g <=? 0) eqn:Ey; [rewrite !orb_true_r; reflexivity | lia]. }
  destruct (Z.to_nat _); cbn [findFirstOccupied]; rewrite E; reflexivity.
Qed.

Lemma getContour_none_fails self g :
  grid_ self = Some g -> contour_ self = None ->
  grid_wf g -> count_cells CELL_OCCUPIED g = O ->
  is_ok (getContour self) = false.
Proof.
  intros Hg Hc Hwf Hno.
  destruct (Z_lt_le_dec 0 (getSizeX g)) as [Hx|Hx];
    [destruct (Z_lt_le_dec 0 (getSizeY g)) as [Hy|Hy]|].
  - rewrite (getContour_none self g); auto.
  - unfold getContour, computeShape. rewrite Hc, Hg.
    cbn [ASSERT_ mbind result_bind has_value negb].
    unfold internalGridFloodFill. rewrite Hg.
    destruct (floodFill_ok g) as (g' & -> & Hf & _).
    cbn [mbind result_bind]. unfold internalGridContour. cbn [grid_].
    destruct (filled_from_sizes _ _ Hf) as [Hsx Hsy].
    rewrite gridContour_without_cells by lia. reflexivity.
  - unfold getContour, computeShape. rewrite Hc, Hg.
    cbn [ASSERT_ mbind result_bind has_value negb].
    unfold internalGridFloodFill. rewrite Hg.
    destruct (floodFill_ok g) as (g' & -> & Hf & _).
    cbn [mbind result_bind]. unfold internalGridContour. cbn [grid_].
    destruct (filled_from_sizes _ _ Hf) as [Hsx Hsy].
    rewrite gridContour_without_cells by lia. reflexivity.
Qed.

(** *** Rasterisation *)

Lemma write_cell_wf g c v : grid_wf g -> grid_wf (write_cell g c v).
Proof. unfold grid_wf, write_cell, getSizeX, getSizeY. cbn. rewrite length_insert. auto. Qed.

Lemma insideGrid_extent g g' p : extent g' = extent g -> insideGrid g' p = insideGrid g p.
Proof.
  intros He. unfold insideGrid, cellByPos, cellByIndex, getSizeX, getSizeY.
  rewrite He. reflexivity.
Qed.

Lemma addTriangleSample_outside g zMin zMax p :
  insideGrid g p = false -> addTriangleSample (g, zMin, zMax) p = (g, zMin, zMax).
Proof.
  unfold insideGrid, addTriangleSample. intros H.
  destruct (cellByPos g _ _) as [c|]; [discriminate H | reflexivity].
Qed.

Lemma addTriangleSample_grid st p :
  extent (st_grid (addTriangleSample st p)) = extent (st_grid st) /\
  (grid_wf (st_grid st) -> grid_wf (st_grid (addTriangleSample st p))).
Proof.
  destruct st as [[g zMin] zMax]. unfold addTriangleSample, st_grid.
  destruct (cellByPos g _ _) as [c|]; cbn; auto using write_cell_wf.
Qed.

Lemma edgeLoop_grid (n : nat) : forall st p Ap,
  extent (st_grid (edgeLoop n st p Ap)) = extent (st_grid st) /\
  (grid_wf (st_grid st) -> grid_wf (st_grid (edgeLoop n st p Ap))).
Proof.
  induction n as [|n IH]; intros st p Ap; cbn [edgeLoop]; [auto|].
  destruct (IH (addTriangleSample st p) (add3f p Ap) Ap) as [He Hw].
  destruct (addTriangleSample_grid st p) as [He' Hw'].
  split; [congruence | auto].
Qed.

(** The samples that fall out of the grid can be dropped from the walk
    along the edge: the loop does what it does on the others alone. *)
Lemma edgeLoop_skips_outside (n : nat) : forall g zMin zMax p Ap,
  edgeLoop n (g, zMin, zMax) p Ap
  = fold_left addTriangleSample
              (List.filter (insideGrid g) (edgeSamples n p Ap)) (g, zMin, zMax).
Proof.
  induction n as [|n IH]; intros g zMin zMax p Ap; [reflexivity|].
  cbn [edgeLoop edgeSamples List.filter].
  destruct (insideGrid g p) eqn:E.
  - cbn [fold_left].
    destruct (addTriangleSample (g, zMin, zMax) p) as [[g1 zMin1] zMax1] eqn:Es.
    rewrite IH.
    pose proof (addTriangleSample_grid (g, zMin, zMax) p) as [He _].
    rewrite Es in He. cbn in He.
    f_equal. apply filter_ext. intros q. apply insideGrid_extent, He.
  - rewrite addTriangleSample_outside by exact E. apply IH.
Qed.


End GridProperties.

(** ** The loops of the contour end *)

Lemma count_in_pos (v : Z) (l : list Z) (i : nat) :
  l !! i = Some v -> (0 < count_in v l)%nat.
Proof.
  revert i. induction l as [|a l IH]; intros [|i] H; try discriminate; cbn in *.
  - injection H as ->. rewrite Z.eqb_refl. lia.
  - specialize (IH i H). destruct (a =? v); lia.
Qed.

Section ContourTermination.
Context {geom : GridGeometry}.

Lemma cellByIndex_lt (g : CDynamicGrid) (cx cy : Z) (c : nat) :
  grid_wf g -> cellByIndex g cx cy = Some c -> (c < length (m_map g))%nat.
Proof.
  unfold grid_wf, cellByIndex. intros Hwf.
  destruct (cx <? 0) eqn:E1; [discriminate|].
  destruct (getSizeX g <=? cx) eqn:E2; [discriminate|].
  destruct (cy <? 0) eqn:E3; [discriminate|].
  destruct (getSizeY g <=? cy) eqn:E4; [discriminate|].
  cbn [orb]. intros H. injection H as <-. rewrite Hwf. nia.
Qed.

Lemma cell_is_lookup (g : CDynamicGrid) (cx cy v : Z) :
  grid_wf g -> cell_is g cx cy v = true ->
  exists c, cellByIndex g cx cy = Some c /\ m_map g !! c = Some v.
Proof.
  unfold cell_is, read_cell. intros Hwf.
  destruct (cellByIndex g cx cy) as [c|] eqn:Ec; [|discriminate].
  destruct (lookup_lt_is_Some_2 _ _ (cellByIndex_lt _ _ _ _ Hwf Ec)) as [a Ha].
  rewrite Ha. cbn [default from_option id]. intros H. apply Z.eqb_eq in H. subst a.
  eauto.
Qed.

Lemma lambdaCellIsBorder_occupied (g : CDynamicGrid) (cx cy : Z) :
  lambdaCellIsBorder g cx cy = true -> cell_is g cx cy CELL_OCCUPIED = true.
Proof.
  unfold lambdaCellIsBorder, cell_is.
  destruct (cellByIndex g cx cy) as [c|]; [|discriminate].
  destruct (read_cell g c =? CELL_OCCUPIED); [reflexivity | discriminate].
Qed.

Lemma nextBorderCell_occupied (g : CDynamicGrid) (cx cy cx' cy' : Z) :
  nextBorderCell g cx cy = Some (cx', cy') ->
  cell_is g cx' cy' CELL_OCCUPIED = true.
Proof.
  unfold nextBorderCell. intros H. apply find_some in H as [_ H].
  apply lambdaCellIsBorder_occupied in H. exact H.
Qed.

(** The walk along the border ends: every step turns an Occupied cell
    into a Visited one. *)
Lemma traceLoop_ok (fuel : nat) : forall g cx cy p,
  grid_wf g -> cell_is g cx cy CELL_OCCUPIED = true ->
  (count_cells CELL_OCCUPIED g <= S fuel)%nat ->
  exists g' p', traceLoop fuel g cx cy p = Ok (g', p').
Proof.
  induction fuel as [|fuel IH]; intros g cx cy p Hwf Hocc Hcnt;
    destruct (cell_is_lookup _ _ _ _ Hwf Hocc) as (c & Hc & Hl);
    cbn [traceLoop]; rewrite Hc;
    pose proof (count_in_insert CELL_OCCUPIED CELL_VISITED _ _ Hl ltac:(discriminate)) as Hdec;
    pose proof (write_cell_wf g c CELL_VISITED Hwf) as Hwf';
    destruct (nextBorderCell (write_cell g c CELL_VISITED) cx cy) as [[cx' cy']|] eqn:En;
    try (eexists _, _; reflexivity).
  - apply nextBorderCell_occupied in En.
    destruct (cell_is_lookup _ _ _ _ Hwf' En) as (c' & _ & Hl').
    apply count_in_pos in Hl'. unfold count_cells in Hcnt.
    cbn [write_cell m_map] in Hl'. lia.
  - apply nextBorderCell_occupied in En.
    apply IH; [exact Hwf' | exact En |].
    unfold count_cells in *. cbn [write_cell m_map]. lia.
Qed.

Lemma findFirstOccupied_ok (g : CDynamicGrid) (fuel : nat) : forall cx cy,
  grid_wf g ->
  0 <= cx < getSizeX g -> 0 <= cy < getSizeY g ->
  (Z.to_nat ((getSizeY g - cy) * getSizeX g - cx) <= fuel)%nat ->
  findFirstOccupied fuel g (getSizeX g) (getSizeY g) cx cy
  = Err (AssertionFailed "cy < ny") \/
  exists cx' cy',
    findFirstOccupied fuel g (getSizeX g) (getSizeY g) cx cy = Ok (cx', cy') /\
    cell_is g cx' cy' CELL_OCCUPIED = true.
Proof.
  induction fuel as [|fuel IH]; intros cx cy Hwf Hx Hy Hf; [exfalso; nia|].
  cbn [findFirstOccupied].
  destruct (cellByIndex g cx cy) as [c|] eqn:Ec.
  2:{ unfold cellByIndex in Ec.
      destruct (cx <? 0) eqn:E1; [lia|].
      destruct (getSizeX g <=? cx) eqn:E2; [lia|].
      destruct (cy <? 0) eqn:E3; [lia|].
      destruct (getSizeY g <=? cy) eqn:E4; [lia|]. discriminate Ec. }
  destruct (read_cell g c =? CELL_OCCUPIED) eqn:Er.
  { right. exists cx, cy. split; [reflexivity|].
    unfold cell_is. rewrite Ec. exact Er. }
  destruct (getSizeX g <=? cx + 1) eqn:E5.
  - destruct (cy + 1 <? getSizeY g) eqn:E6; [|left; reflexivity].
    cbn [ASSERT_ mbind result_bind]. apply IH; auto; try lia.
  - apply IH; auto; try lia.
Qed.

(** The contour of a whole grid is computed, or an assertion fails or the
    grid has no cell at all: the loops end. *)
Lemma gridContour_terminates (g : CDynamicGrid) :
  grid_wf g -> gridContour g <> Err OutOfFuel.
Proof.
  intros Hwf. unfold gridContour.
  destruct (Z_lt_le_dec 0 (getSizeX g)) as [Hx|Hx];
    [destruct (Z_lt_le_dec 0 (getSizeY g)) as [Hy|Hy]|].
  - assert (Hfind := findFirstOccupied_ok g (Z.to_nat (getSizeX g * getSizeY g)) 0 0
                         Hwf ltac:(lia) ltac:(lia) ltac:(lia)).
    destruct Hfind as [->|(cx & cy & -> & Hocc)]; [discriminate|].
    cbn [mbind result_bind].
    destruct (count_cells CELL_OCCUPIED g) as [|n] eqn:En.
    + destruct (cell_is_lookup _ _ _ _ Hwf Hocc) as (c & _ & Hl).
      apply count_in_pos in Hl. unfold count_cells in En. lia.
    + destruct (traceLoop_ok (S n) g cx cy [] Hwf Hocc) as (g' & p' & ->);
        [lia | discriminate].
  - assert (E : cellByIndex g 0 0 = None).
    { unfold cellByIndex. destruct (getSizeY g <=? 0) eqn:E; [|lia].
      rewrite !orb_true_r. reflexivity. }
    destruct (Z.to_nat _); cbn [findFirstOccupied]; rewrite E; discriminate.
  - assert (E : cellByIndex g 0 0 = None).
    { unfold cellByIndex. destruct (getSizeX g <=? 0) eqn:E; [|lia].
      rewrite !orb_true_r. reflexivity. }
    destruct (Z.to_nat _); cbn [findFirstOccupied]; rewrite E; discriminate.
Qed.

(** Asking a shape under construction for its contour gives a contour or
    a failure of the program, not a loop without end. *)
Lemma getContour_terminates (self : Shape2p5) :
  building self -> getContour self <> Err OutOfFuel.
Proof.
  intros (Hc & g & Hg & Hwf). unfold getContour, computeShape. rewrite Hc, Hg.
  cbn [ASSERT_ mbind result_bind has_value negb].
  unfold internalGridFloodFill. rewrite Hg.
  destruct (floodFill_ok g) as (g' & -> & Hf & _).
  cbn [mbind result_bind]. unfold internalGridContour. cbn [grid_].
  pose proof (gridContour_terminates g' (filled_from_wf _ _ Hf Hwf)) as Hterm.
  destruct (gridContour g') as [[g2 p]|e]; cbn [mbind result_bind].
  - discriminate.
  - intros H. apply Hterm. injection H as ->. reflexivity.
Qed.

End ContourTermination.

(** ** Shape2p5 *)

(** C3. [mergeWith(s)] looks at the contour of its argument
    only: it fails on the assertion when that contour is empty, and returns
    with the receiver as it was otherwise. The code that gathers the points
    and recomputes a hull is compiled out. *)
Theorem mergeWith_checks_argument_only (self s : Shape2p5) (cs : TPolygon2D) :
  contour_ s = Some cs ->
  mergeWith self s
  = if is_empty cs then Err (AssertionFailed "!s.contour_->empty()") else Ok self.
Proof.
  intros H. unfold mergeWith. rewrite H. cbn [deref mbind result_bind].
  destruct cs; reflexivity.
Qed.

Lemma mergeWith_checks_argument_only_witness :
  contour_ farTriangleShape = Some [pt2 5 5; pt2 6 5; pt2 5 6] /\
  mergeWith squareShape farTriangleShape = Ok squareShape.
Proof.
  split; [reflexivity|].
  exact (mergeWith_checks_argument_only squareShape farTriangleShape
           [pt2 5 5; pt2 6 5; pt2 5 6] eq_refl).
Defined.

(** The overload on a list of points asserts on the receiver instead, and
    changes nothing either. *)
Lemma mergeWith_pts_checks_receiver_only
      (self : Shape2p5) (pts : list TPoint3Df) (c : TPolygon2D) :
  contour_ self = Some c ->
  mergeWith_pts self pts
  = if is_empty c then Err (AssertionFailed "!contour_->empty()") else Ok self.
Proof.
  intros H. unfold mergeWith_pts. rewrite H. cbn [deref mbind result_bind].
  destruct c; reflexivity.
Qed.

(** C3, where the specification and the code part: a receiver with an
    empty contour is merged without a failure; and merging the far triangle
    into the unit square leaves the square, whose vertices are all left of
    the vertex (6, 5) of the triangle: no hull of the union. *)
Lemma mergeWith_neither_merges_nor_checks_receiver :
  ~ (forall (self s : Shape2p5) (c cs : TPolygon2D),
        contour_ self = Some c -> contour_ s = Some cs ->
        is_empty c || is_empty cs = true ->
        is_ok (mergeWith self s) = false) /\
  (exists self' c',
      mergeWith squareShape farTriangleShape = Ok self' /\
      contour_ self' = Some c' /\
      contour_ farTriangleShape = Some [pt2 5 5; pt2 6 5; pt2 5 6] /\
      forallb (fun v => (v_x v <? v_x (pt2 6 5))%dbl) c' = true).
Proof.
  split.
  - intros H.
    specialize (H emptyContourShape farTriangleShape [] [pt2 5 5; pt2 6 5; pt2 5 6]
                  eq_refl eq_refl eq_refl).
    discriminate H.
  - exists squareShape, [pt2 0 0; pt2 1 0; pt2 1 1; pt2 0 1].
    repeat split; vm_compute; reflexivity.
Qed.

Section ShapeProperties.
Context {geom : GridGeometry}.

(** *** Build sequences keep the grid whole *)

Lemma buildInit_building (self : Shape2p5) (bbMin bbMax : TPoint2Df) (numCells : Z) :
  building (buildInit self bbMin bbMax numCells).
Proof.
  unfold building, buildInit. cbn [contour_ grid_]. split; [reflexivity|].
  eexists. split; [reflexivity|].
  unfold grid_wf, fill, CDynamicGrid_new, getSizeX, getSizeY. cbn [m_map extent].
  rewrite length_map, length_replicate. reflexivity.
Qed.

Lemma buildInit_no_occupied (self : Shape2p5) (bbMin bbMax : TPoint2Df) (numCells : Z)
      (g : CDynamicGrid) :
  grid_ (buildInit self bbMin bbMax numCells) = Some g ->
  count_cells CELL_OCCUPIED g = O.
Proof.
  unfold buildInit. cbn [grid_]. intros H. injection H as <-.
  unfold count_cells, fill. cbn [m_map].
  induction (m_map (CDynamicGrid_new _ _ _ _ _)) as [|a l IH]; [reflexivity|].
  cbn. exact IH.
Qed.

Lemma buildAddPoint_building (self self' : Shape2p5) (pt : TPoint3Df) :
  building self -> buildAddPoint self pt = Ok self' -> building self'.
Proof.
  intros (Hc & g & Hg & Hwf). unfold buildAddPoint. rewrite Hg.
  cbn [deref mbind result_bind].
  destruct (cellByPos g _ _) as [c|]; [|discriminate].
  intros H. apply Ok_inj in H. subst self'.
  split; [exact Hc|]. eexists. split; [reflexivity|]. apply write_cell_wf, Hwf.
Qed.

Lemma addTriangleEdge_grid (step : float) (t : TTriangle)
      (st st' : CDynamicGrid * float * float) (i0 : Z) :
  addTriangleEdge step t st i0 = Ok st' ->
  extent (st_grid st') = extent (st_grid st) /\
  (grid_wf (st_grid st) -> grid_wf (st_grid st')).
Proof.
  unfold addTriangleEdge. intros H. bind_inv H. apply Ok_inj in H. subst st'.
  apply edgeLoop_grid.
Qed.

Lemma buildAddTriangle_building (self self' : Shape2p5) (t : TTriangle) :
  building self -> buildAddTriangle self t = Ok self' -> building self'.
Proof.
  intros (Hc & g & Hg & Hwf). unfold buildAddTriangle. rewrite Hg.
  cbn [deref mbind result_bind]. intros H.
  bind_inv H. bind_inv H. bind_inv H.
  destruct a1 as [[g3 zMin] zMax]. apply Ok_inj in H. subst self'.
  apply addTriangleEdge_grid in Ha as [_ H1].
  apply addTriangleEdge_grid in Ha0 as [_ H2].
  apply addTriangleEdge_grid in Ha1 as [_ H3].
  split; [exact Hc|]. exists g3. split; [reflexivity|].
  apply H3, H2, H1, Hwf.
Qed.

Lemma runBuild_building (ops : list BuildOp) : forall self self' : Shape2p5,
  building self -> runBuild self ops = Ok self' -> building self'.
Proof.
  induction ops as [|op ops IH]; intros self self' Hb H; cbn [runBuild] in H.
  - apply Ok_inj in H. subst. exact Hb.
  - bind_inv H. apply (IH a self'); [|exact H].
    destruct op as [pt|t]; cbn [applyBuildOp] in Ha.
    + eapply buildAddPoint_building; eauto.
    + eapply buildAddTriangle_building; eauto.
Qed.

(** C4. After [buildInit] and any sequence of additions that leaves no
    cell Occupied, asking for the contour fails. The seed fill returns,
    the scan for the first Occupied cell reaches the end of the grid and
    the assertion [cy < ny] does not hold; this is the failure on every
    grid that has a cell (the padding gives at least three in each
    direction). *)
Theorem contour_of_empty_build_fails
        (self0 self : Shape2p5) (bbMin bbMax : TPoint2Df) (numCells : Z)
        (ops : list BuildOp) (g : CDynamicGrid) :
  runBuild (buildInit self0 bbMin bbMax numCells) ops = Ok self ->
  grid_ self = Some g ->
  count_cells CELL_OCCUPIED g = O ->
  is_ok (getContour self) = false /\
  (0 < getSizeX g -> 0 < getSizeY g ->
   getContour self = Err (AssertionFailed "cy < ny")).
Proof.
  intros Hrun Hg Hno.
  destruct (runBuild_building ops _ _ (buildInit_building _ _ _ _) Hrun)
    as (Hc & g' & Hg' & Hwf).
  rewrite Hg in Hg'. injection Hg' as <-.
  split.
  - eapply getContour_none_fails; eauto.
  - intros Hx Hy. eapply getContour_none; eauto.
Qed.

(** C5. When the seed cell (0, 0) is not Undefined at the
    start, [internalGridFloodFill] returns at once and leaves every cell as
    it was: it reports nothing. *)
Theorem flood_fill_returns_on_defined_seed (self : Shape2p5) (g : CDynamicGrid) :
  grid_ self = Some g ->
  cell_is g 0 0 CELL_UNDEFINED = false ->
  internalGridFloodFill self = Ok self.
Proof.
  intros Hg Hseed. unfold internalGridFloodFill. rewrite Hg.
  rewrite floodFill_fixed by (rewrite Inside_cell_is; exact Hseed).
  cbn [mbind result_bind]. destruct self; cbn in *. subst. reflexivity.
Qed.

(** C9. The fill returns on every grid, and a second run on
    the grid it leaves changes no cell: the seed cell is Free by then, or
    was not Undefined in the first place. *)
Theorem flood_fill_is_idempotent (self : Shape2p5) (g : CDynamicGrid) :
  grid_ self = Some g ->
  exists self1 : Shape2p5,
    internalGridFloodFill self = Ok self1 /\
    internalGridFloodFill self1 = Ok self1.
Proof.
  intros Hg. unfold internalGridFloodFill at 1. rewrite Hg.
  destruct (floodFill_ok g) as (g' & -> & _ & Hin).
  cbn [mbind result_bind]. eexists. split; [reflexivity|].
  unfold internalGridFloodFill. cbn [grid_ contour_ zMin_ zMax_].
  rewrite (floodFill_fixed g' Hin). reflexivity.
Qed.

(** What the fill changes: cells that were Undefined, to Free. *)
Lemma flood_fill_only_frees (self self1 : Shape2p5) (g : CDynamicGrid) :
  grid_ self = Some g ->
  internalGridFloodFill self = Ok self1 ->
  exists g1, grid_ self1 = Some g1 /\ filled_from g g1.
Proof.
  intros Hg. unfold internalGridFloodFill. rewrite Hg.
  destruct (floodFill_ok g) as (g' & -> & Hf & _).
  cbn [mbind result_bind]. intros H. apply Ok_inj in H. subst self1.
  exists g'. split; [reflexivity | exact Hf].
Qed.

End ShapeProperties.

Section Rasterisation.
Context {geom : GridGeometry}.

Lemma fold_samples_grid (l : list TPoint3Df) : forall st,
  extent (st_grid (fold_left addTriangleSample l st)) = extent (st_grid st).
Proof.
  induction l as [|p l IH]; intros st; [reflexivity|].
  cbn [fold_left]. rewrite IH. apply addTriangleSample_grid.
Qed.

Lemma addTriangleEdge_skips (step : float) (t : TTriangle)
      (g : CDynamicGrid) (zMin zMax : float) (i0 : Z) :
  addTriangleEdge step t (g, zMin, zMax) i0
  = (n ← edgeSteps step t i0;
     Ok (fold_left addTriangleSample
                   (List.filter (insideGrid g) (edgeSamplesOf t i0 n))
                   (g, zMin, zMax))).
Proof.
  unfold addTriangleEdge, edgeSteps, edgeSamplesOf.
  destruct (to_int _) as [n|e]; [|reflexivity].
  cbn [mbind result_bind]. rewrite edgeLoop_skips_outside. reflexivity.
Qed.

Lemma filter_inside_after (l l' : list TPoint3Df) (st : CDynamicGrid * float * float) :
  List.filter (insideGrid (st_grid (fold_left addTriangleSample l st))) l'
  = List.filter (insideGrid (st_grid st)) l'.
Proof.
  apply filter_ext. intros q. apply insideGrid_extent, fold_samples_grid.
Qed.

Lemma buildAddTriangle_skips (self : Shape2p5) (g : CDynamicGrid) (t : TTriangle) :
    grid_ self = Some g ->
    buildAddTriangle self t
    = (samples ← triangleSamples (float_of_double (getResolution g)) t;
       let st := fold_left addTriangleSample
                           (List.filter (insideGrid g) samples)
                           (g, zMin_ self, zMax_ self) in
       Ok {| contour_ := contour_ self; grid_ := Some (st_grid st);
             zMin_ := st_zMin st; zMax_ := st_zMax st |}).
Proof.
  intros Hg. unfold buildAddTriangle, triangleSamples. rewrite Hg.
  cbn [deref mbind result_bind].
  rewrite addTriangleEdge_skips.
  destruct (edgeSteps _ t 0) as [n0|e0]; [|reflexivity]. cbn [mbind result_bind].
  set (st1 := fold_left addTriangleSample _ (g, zMin_ self, zMax_ self)).
  assert (E1 : st1 = (st_grid st1, st_zMin st1, st_zMax st1)) by (destruct st1 as [[? ?] ?]; reflexivity).
  rewrite E1 at 1. rewrite addTriangleEdge_skips.
  destruct (edgeSteps _ t 1) as [n1|e1]; [|reflexivity]. cbn [mbind result_bind].
  rewrite <- E1.
  set (st2 := fold_left addTriangleSample _ st1).
  assert (E2 : st2 = (st_grid st2, st_zMin st2, st_zMax st2)) by (destruct st2 as [[? ?] ?]; reflexivity).
  rewrite E2 at 1. rewrite addTriangleEdge_skips.
  destruct (edgeSteps _ t 2) as [n2|e2]; [|reflexivity]. cbn [mbind result_bind].
  rewrite <- E2.
  rewrite !List.filter_app, !fold_left_app.
  assert (F1 : forall l', List.filter (insideGrid (st_grid st1)) l'
                          = List.filter (insideGrid g) l').
  { intros l'. apply (filter_inside_after _ l' (g, zMin_ self, zMax_ self)). }
  assert (F2 : forall l', List.filter (insideGrid (st_grid st2)) l'
                          = List.filter (insideGrid g) l').
  { intros l'. unfold st2. rewrite filter_inside_after. apply F1. }
  rewrite F2. unfold st2. rewrite F1. unfold st1.
  destruct (fold_left addTriangleSample
              (List.filter (insideGrid g) (edgeSamplesOf t 2 n2)) _) as [[g3 z3] z3'].
  reflexivity.
Qed.


End Rasterisation.

(** *** Evaluations on the example grid *)


Lemma contour_of_empty_build_fails_witness :
  runBuild (geom := mrpt_geometry) initShape [AddTriangle outerTriangle] = Ok emptyBuild /\
  count_cells CELL_OCCUPIED (gridOf emptyBuild) = O /\
  getContour (geom := mrpt_geometry) emptyBuild = Err (AssertionFailed "cy < ny").
Proof.
  split; [vm_compute; reflexivity|]. split; [vm_compute; reflexivity|].
  apply (contour_of_empty_build_fails
           (geom := mrpt_geometry) blankShape emptyBuild (pt2f (-1) (-1)) (pt2f 1 1) 10
           [AddTriangle outerTriangle] (gridOf emptyBuild));
    vm_compute; reflexivity.
Defined.

(** An empty point set: [getContour] right after [buildInit]. *)
Example contour_of_untouched_grid_fails :
  getContour (geom := mrpt_geometry) initShape = Err (AssertionFailed "cy < ny").
Proof. vm_compute. reflexivity. Qed.

(** C5, where the specification and the code part: with a point in the
    corner cell the seed is Occupied when the fill starts, and the fill
    returns without a failure. *)
Lemma flood_fill_reports_nothing_on_defined_seed :
  ~ (forall (self : Shape2p5) (g : CDynamicGrid),
        grid_ self = Some g ->
        cell_is g 0 0 CELL_UNDEFINED = false ->
        is_ok (internalGridFloodFill self) = false).
Proof.
  intros H.
  specialize (H seedOccupiedShape (gridOf seedOccupiedShape)).
  assert (Hok : is_ok (internalGridFloodFill seedOccupiedShape)
                = true) by (vm_compute; reflexivity).
  rewrite H in Hok; [discriminate Hok | vm_compute; reflexivity | vm_compute; reflexivity].
Qed.

Lemma flood_fill_returns_on_defined_seed_witness :
  cell_is (gridOf seedOccupiedShape) 0 0 CELL_UNDEFINED = false /\
  internalGridFloodFill seedOccupiedShape = Ok seedOccupiedShape.
Proof.
  split; [vm_compute; reflexivity|].
  apply (flood_fill_returns_on_defined_seed
           seedOccupiedShape (gridOf seedOccupiedShape));
    vm_compute; reflexivity.
Defined.

Lemma flood_fill_is_idempotent_witness :
  exists self1 : Shape2p5,
    internalGridFloodFill originShape = Ok self1 /\
    internalGridFloodFill self1 = Ok self1.
Proof.
  apply (flood_fill_is_idempotent originShape (gridOf originShape)).
  vm_compute. reflexivity.
Defined.

(** The first run does change the grid of that shape: 99 cells become
    Free. *)
Example flood_fill_on_origin_shape :
  exists self1 : Shape2p5,
    internalGridFloodFill originShape = Ok self1 /\
    count_cells CELL_UNDEFINED (gridOf originShape) = 99%nat /\
    count_cells CELL_FREE (gridOf self1) = 99%nat /\
    count_cells CELL_OCCUPIED (gridOf self1) = 1%nat.
Proof. vm_compute. eexists. repeat split. Qed.

(** * Further properties *)

(** ** The friction model *)

Lemma vec_at_short {A : Type} (v : list A) (i : Z) :
  (length v <= Z.to_nat i)%nat ->
  vec_at v i = Err (UndefinedBehaviour "vector index out of range").
Proof.
  intros H. unfold vec_at. destruct (i <? 0); [reflexivity|].
  rewrite (lookup_ge_None_2 _ _ H). reflexivity.
Qed.

Lemma vec_at_Ok_inv {A : Type} (v : list A) (i : Z) (a : A) :
  vec_at v i = Ok a -> 0 <= i /\ v !! Z.to_nat i = Some a.
Proof.
  unfold vec_at. destruct (i <? 0) eqn:E; [discriminate|].
  destruct (v !! Z.to_nat i) as [b|]; [|discriminate].
  intros H. apply Ok_inj in H. subst. split; [lia | reflexivity].
Qed.

Lemma list_four {A : Type} (v : list A) (a0 a1 a2 a3 : A) :
  v !! 0%nat = Some a0 -> v !! 1%nat = Some a1 ->
  v !! 2%nat = Some a2 -> v !! 3%nat = Some a3 ->
  exists rest, v = a0 :: a1 :: a2 :: a3 :: rest.
Proof.
  destruct v as [|b0 [|b1 [|b2 [|b3 rest]]]]; cbn; try discriminate.
  intros H0 H1 H2 H3. exists rest. congruence.
Qed.

(** Any number times a NaN, and a NaN with anything, is a NaN. *)
Lemma dmul_nan_r (a : double) : (a * S754_nan)%dbl = S754_nan.
Proof. destruct a; reflexivity. Qed.
Lemma dmul_nan_l (a : double) : (S754_nan * a)%dbl = S754_nan.
Proof. reflexivity. Qed.
Lemma ddiv_nan_l (a : double) : (S754_nan / a)%dbl = S754_nan.
Proof. reflexivity. Qed.
Lemma dsub_nan_r (a : double) : (a - S754_nan)%dbl = S754_nan.
Proof. destruct a; reflexivity. Qed.
Lemma dadd_nan_r (a : double) : (a + S754_nan)%dbl = S754_nan.
Proof. destruct a; reflexivity. Qed.
Lemma dadd_nan_l (a : double) : (S754_nan + a)%dbl = S754_nan.
Proof. reflexivity. Qed.

(** The saturation of an infinite slip is a NaN: the Heaviside term of
    the identity branch is 0, and [inf * 0] is not a number. *)
Lemma miS_infinity (a a0 : double) : is_infinity a = true -> miS a a0 = S754_nan.
Proof.
  destruct a as [|s| |]; try discriminate. intros _. unfold miS, miH.
  assert (H : (a0 >? SFabs (S754_infinity s))%dbl = false).
  { destruct a0 as [[]|[]| |[] ? ?]; reflexivity. }
  rewrite H. reflexivity.
Qed.

(** A wheel that does not turn on a contact point that moves backwards:
    the slip is a quotient by zero. *)
Lemma slipRatio_stopped_backwards (a b : double) :
  is_zero a = true -> is_finite b = true -> (b <? double_of_Z 0)%dbl = true ->
  is_infinity (slipRatio a b) = true.
Proof.
  change (double_of_Z 0) with (S754_zero false).
  destruct a as [sa| | |]; try discriminate. intros _.
  destruct b as [sb|sb| |sb mb eb]; try discriminate; intros _.
  destruct sb; intros H; [|discriminate H].
  destruct sa; reflexivity.
Qed.

Section FrictionEdgeCases.
Context {libm : LibM}.
Variable self : EllipseCurveMethod.
Variable veh : VehicleBase.

(** X1. [evaluate_friction] returns a force exactly when the vehicle has
    at least four wheels, both axle widths are positive and the index is
    one of 0, 1, 2, 3. *)
Theorem evaluate_friction_succeeds_iff (wi : Z) (input : TFrictionInput) :
  is_ok (evaluate_friction self veh wi input) = true <->
  exists (p0 p1 p2 p3 : TVector2D) (rest : list TVector2D),
    wheelPositions veh = p0 :: p1 :: p2 :: p3 :: rest /\
    (axleWidth p2 p3 >? double_of_Z 0)%dbl = true /\
    (axleWidth p0 p1 >? double_of_Z 0)%dbl = true /\
    0 <= wi <= 3.
Proof.
  split.
  - unfold evaluate_friction.
    destruct (friction_stages self veh wi input) as [tr|e] eqn:H; [|discriminate].
    intros _. pose proof (friction_stages_index _ _ _ _ _ H) as Hwi.
    unfold friction_stages in H. do 6 bind_inv H.
    apply vec_at_Ok_inv in Ha as [_ H3]. apply vec_at_Ok_inv in Ha0 as [_ H0].
    apply vec_at_Ok_inv in Ha1 as [_ H2]. apply vec_at_Ok_inv in Ha2 as [_ H1].
    destruct (list_four _ _ _ _ _ H0 H1 H2 H3) as [rest Hv].
    apply ASSERT_Ok_inv in Ha3. apply ASSERT_Ok_inv in Ha4.
    exists a0, a2, a1, a, rest. auto.
  - intros (p0 & p1 & p2 & p3 & rest & Hpos & Hf & Hr & Hwi).
    destruct (vec_at_cons4 p0 p1 p2 p3 rest) as (H0 & H1 & H2 & H3).
    unfold evaluate_friction, friction_stages.
    rewrite Hpos, H0, H1, H2, H3. cbn [mbind result_bind].
    rewrite Hf, Hr. cbn [ASSERT_ mbind result_bind].
    assert (Hw : wi = 0 \/ wi = 1 \/ wi = 2 \/ wi = 3) by lia.
    destruct Hw as [-> | [-> | [-> | ->]]]; reflexivity.
Qed.

(** X2. What fails first: with fewer than four wheels the read of
    [pos[3]] is out of range; then the assertion on the front axle, then
    the one on the rear axle, whatever the wheel index. *)
Theorem evaluate_friction_failure_order (wi : Z) (input : TFrictionInput) :
  ((length (wheels veh) < 4)%nat ->
   evaluate_friction self veh wi input
   = Err (UndefinedBehaviour "vector index out of range")) /\
  (forall (p0 p1 p2 p3 : TVector2D) (rest : list TVector2D),
      wheelPositions veh = p0 :: p1 :: p2 :: p3 :: rest ->
      ((axleWidth p2 p3 >? double_of_Z 0)%dbl = false ->
       evaluate_friction self veh wi input = Err (AssertionFailed "Axf > 0")) /\
      ((axleWidth p2 p3 >? double_of_Z 0)%dbl = true ->
       (axleWidth p0 p1 >? double_of_Z 0)%dbl = false ->
       evaluate_friction self veh wi input = Err (AssertionFailed "Axr > 0"))).
Proof.
  split.
  - intros Hlen. unfold evaluate_friction, friction_stages.
    rewrite (vec_at_short (wheelPositions veh) 3); [reflexivity|].
    unfold wheelPositions. rewrite length_map.
    change (Z.to_nat 3) with 3%nat. lia.
  - intros p0 p1 p2 p3 rest Hpos.
    destruct (vec_at_cons4 p0 p1 p2 p3 rest) as (H0 & H1 & H2 & H3).
    unfold evaluate_friction, friction_stages.
    rewrite Hpos, H0, H1, H2, H3. cbn [mbind result_bind].
    split; [intros -> | intros -> ->]; reflexivity.
Qed.

(** X3. The guard on the slip catches a NaN, not an infinity. When the
    wheel does not turn ([R * w] is a zero) and the contact point moves
    backwards ([vxT < 0]), the slip is infinite, its saturation is a NaN,
    and so are the longitudinal force and the angular velocity that is
    written back to the wheel. *)
Theorem stopped_wheel_moving_backwards_gives_nan
        (wi : Z) (input : TFrictionInput) (tr : friction_trace) :
  friction_stages self veh wi input = Ok tr ->
  is_zero (t_R tr * getW (wheel input))%dbl = true ->
  is_finite (t_vxT tr) = true ->
  (t_vxT tr <? double_of_Z 0)%dbl = true ->
  is_infinity (t_s tr) = true /\
  t_wheel_long_friction tr = S754_nan /\
  exists (force : TVector2D) (wheel' : Wheel),
    evaluate_friction self veh wi input = Ok (force, wheel') /\
    getW wheel' = S754_nan.
Proof.
  intros H Hz Hf Hneg.
  destruct (friction_stages_inv _ _ _ _ _ H) as (_ & _ & Hs & Hl & _ & Ha & Hw).
  assert (Hinf : is_infinity (t_s tr) = true).
  { rewrite Hs. apply slipRatio_stopped_backwards; assumption. }
  assert (Hnan : t_wheel_long_friction tr = S754_nan).
  { rewrite Hl, (miS_infinity _ _ Hinf), dmul_nan_r. reflexivity. }
  split; [exact Hinf|]. split; [exact Hnan|].
  exists (t_res tr), (setW (wheel input) (t_new_w tr)).
  split; [unfold evaluate_friction; rewrite H; reflexivity|].
  cbn [getW setW w]. rewrite Hw, Ha, Hnan.
  rewrite dmul_nan_r, ddiv_nan_l, dsub_nan_r, dmul_nan_l, dadd_nan_r. reflexivity.
Qed.




End FrictionEdgeCases.

(** X5. At the bound [|x| = x0] the saturation returns a zero, for every
    finite [x]. *)
Theorem miS_is_zero_at_the_bound (a a0 : double) :
  is_finite a = true -> (SFabs a =? a0)%dbl = true -> is_zero (miS a a0) = true.
Proof. exact (miS_at_bound a a0). Qed.

(** X6. Beyond the band the saturation does not see the sign of [x]:
    [miS(-x, x0)] and [miS(x, x0)] are the same number. *)
Theorem miS_ignores_sign_beyond_the_band (a a0 : double) :
  is_finite a = true -> (SFabs a >? a0)%dbl = true ->
  same_value (miS (- a)%dbl a0) (miS a a0).
Proof. exact (miS_even_beyond_bound a a0). Qed.

(** *** Evaluations on the example car *)

Example evaluate_friction_on_two_wheels :
  evaluate_friction (libm := taylor_libm) default_params twoWheeler 0
                    (exInput frontRight (double_of_Z 5))
  = Err (UndefinedBehaviour "vector index out of range").
Proof. vm_compute. reflexivity. Qed.

Lemma stopped_wheel_moving_backwards_gives_nan_witness :
  exists tr : friction_trace,
    friction_stages (libm := taylor_libm) default_params (exVehicle reversing noAccel) 3
                    (exInput frontRight (double_of_Z 0)) = Ok tr /\
    is_zero (t_R tr * getW frontRight)%dbl = true /\
    (t_vxT tr <? double_of_Z 0)%dbl = true /\
    t_wheel_long_friction tr = S754_nan /\
    exists (force : TVector2D) (wheel' : Wheel),
      evaluate_friction (libm := taylor_libm) default_params
                        (exVehicle reversing noAccel) 3
                        (exInput frontRight (double_of_Z 0)) = Ok (force, wheel') /\
      getW wheel' = S754_nan.
Proof.
  match eval vm_compute in
        (friction_stages (libm := taylor_libm) default_params
                         (exVehicle reversing noAccel) 3
                         (exInput frontRight (double_of_Z 0))) with
  | Ok ?t =>
      exists t;
      split; [vm_compute; reflexivity|];
      split; [vm_compute; reflexivity|];
      split; [vm_compute; reflexivity|];
      apply (stopped_wheel_moving_backwards_gives_nan
               (libm := taylor_libm) default_params (exVehicle reversing noAccel) 3
               (exInput frontRight (double_of_Z 0)) t);
      vm_compute; reflexivity
  end.
Defined.


Lemma miS_is_zero_at_the_bound_witness :
  is_zero (miS (dlit (-1) 10) (dlit 1 10)) = true.
Proof.
  apply (miS_is_zero_at_the_bound (dlit (-1) 10) (dlit 1 10)); vm_compute; reflexivity.
Defined.

Lemma miS_ignores_sign_beyond_the_band_witness :
  same_value (miS (- dlit 2 10)%dbl (dlit 1 10)) (miS (dlit 2 10) (dlit 1 10)).
Proof.
  apply (miS_ignores_sign_beyond_the_band (dlit 2 10) (dlit 1 10));
    vm_compute; reflexivity.
Defined.

(** ** The contour of a shape *)

Section ContourProperties.
Context {geom : GridGeometry}.

(** The scan of [internalGridContour] stops at the first Occupied cell in
    row order, or fails when there is none from where it starts. *)
Lemma findFirstOccupied_scan (g : CDynamicGrid) (fuel : nat) : forall cx cy,
  grid_wf g ->
  0 <= cx < getSizeX g -> 0 <= cy < getSizeY g ->
  (Z.to_nat ((getSizeY g - cy) * getSizeX g - cx) <= fuel)%nat ->
  (exists cx' cy',
      findFirstOccupied fuel g (getSizeX g) (getSizeY g) cx cy = Ok (cx', cy') /\
      0 <= cx' < getSizeX g /\ 0 <= cy' < getSizeY g /\
      cx + cy * getSizeX g <= cx' + cy' * getSizeX g /\
      m_map g !! Z.to_nat (cx' + cy' * getSizeX g) = Some CELL_OCCUPIED /\
      forall i, cx + cy * getSizeX g <= i < cx' + cy' * getSizeX g ->
                m_map g !! Z.to_nat i <> Some CELL_OCCUPIED) \/
  (findFirstOccupied fuel g (getSizeX g) (getSizeY g) cx cy
   = Err (AssertionFailed "cy < ny") /\
   forall i, cx + cy * getSizeX g <= i ->
             m_map g !! Z.to_nat i <> Some CELL_OCCUPIED).
Proof.
  induction fuel as [|fuel IH]; intros cx cy Hwf Hx Hy Hf; [exfalso; nia|].
  cbn [findFirstOccupied]. unfold cellByIndex.
  destruct (cx <? 0) eqn:E1; [lia|].
  destruct (getSizeX g <=? cx) eqn:E2; [lia|].
  destruct (cy <? 0) eqn:E3; [lia|].
  destruct (getSizeY g <=? cy) eqn:E4; [lia|].
  cbn [orb]. unfold read_cell.
  assert (Hlt : (Z.to_nat (cx + cy * getSizeX g) < length (m_map g))%nat).
  { rewrite Hwf. nia. }
  destruct (lookup_lt_is_Some_2 _ _ Hlt) as [c Hc]. rewrite Hc.
  cbn [default from_option id].
  destruct (c =? CELL_OCCUPIED) eqn:Ec.
  { apply Z.eqb_eq in Ec. subst c. left. exists cx, cy.
    split; [reflexivity|]. split; [lia|]. split; [lia|]. split; [lia|].
    split; [exact Hc|]. intros i Hi. lia. }
  apply Z.eqb_neq in Ec.
  assert (Hhere : forall i, cx + cy * getSizeX g <= i ->
                            i < cx + cy * getSizeX g + 1 ->
                            m_map g !! Z.to_nat i <> Some CELL_OCCUPIED).
  { intros i H1 H2. replace i with (cx + cy * getSizeX g) by lia.
    rewrite Hc. congruence. }
  destruct (getSizeX g <=? cx + 1) eqn:E5.
  - destruct (cy + 1 <? getSizeY g) eqn:E6.
    + cbn [ASSERT_ mbind result_bind].
      destruct (IH 0 (cy + 1)) as [(cx' & cy' & Hr & Hx' & Hy' & Hle & Ho & Hbefore)
                                  |(Hr & Hnone)]; auto; try lia.
      * left. exists cx', cy'. rewrite Hr.
        split; [reflexivity|]. split; [lia|]. split; [lia|]. split; [nia|].
        split; [exact Ho|]. intros i Hi.
        destruct (Z_lt_le_dec i (cx + cy * getSizeX g + 1)) as [Hl|Hl];
          [apply Hhere; lia | apply Hbefore; nia].
      * right. rewrite Hr. split; [reflexivity|]. intros i Hi.
        destruct (Z_lt_le_dec i (cx + cy * getSizeX g + 1)) as [Hl|Hl];
          [apply Hhere; lia | apply Hnone; nia].
    + right. split; [reflexivity|]. intros i Hi.
      destruct (Z_lt_le_dec i (cx + cy * getSizeX g + 1)) as [Hl|Hl];
        [apply Hhere; lia|].
      rewrite lookup_ge_None_2; [discriminate|]. rewrite Hwf. nia.
  - destruct (IH (cx + 1) cy) as [(cx' & cy' & Hr & Hx' & Hy' & Hle & Ho & Hbefore)
                                 |(Hr & Hnone)]; auto; try lia.
    + left. exists cx', cy'. rewrite Hr.
      split; [reflexivity|]. split; [lia|]. split; [lia|]. split; [lia|].
      split; [exact Ho|]. intros i Hi.
      destruct (Z_lt_le_dec i (cx + cy * getSizeX g + 1)) as [Hl|Hl];
        [apply Hhere; lia | apply Hbefore; lia].
    + right. rewrite Hr. split; [reflexivity|]. intros i Hi.
      destruct (Z_lt_le_dec i (cx + cy * getSizeX g + 1)) as [Hl|Hl];
        [apply Hhere; lia | apply Hnone; lia].
Qed.

Lemma count_in_pos_lookup (v : Z) (l : list Z) :
  (0 < count_in v l)%nat -> exists i, l !! i = Some v.
Proof.
  induction l as [|a l IH]; cbn; [lia|].
  destruct (a =? v) eqn:E.
  - apply Z.eqb_eq in E. subst. intros _. exists O. reflexivity.
  - intros H. destruct (IH H) as [i Hi]. exists (S i). exact Hi.
Qed.

(** With an Occupied cell on a whole grid the contour is traced. *)
Lemma gridContour_some (g : CDynamicGrid) :
  grid_wf g -> 0 <= getSizeX g ->
  (0 < count_cells CELL_OCCUPIED g)%nat ->
  exists g' p, gridContour g = Ok (g', p).
Proof.
  intros Hwf Hsx Hpos.
  destruct (count_in_pos_lookup _ _ Hpos) as [i Hi].
  pose proof (lookup_lt_Some _ _ _ Hi) as Hlt. rewrite Hwf in Hlt.
  assert (Hxy : 0 < getSizeX g * getSizeY g) by lia.
  assert (Hx : 0 < getSizeX g).
  { destruct (Z.eq_dec (getSizeX g) 0) as [E|E]; [rewrite E in Hxy; lia | lia]. }
  assert (Hy : 0 < getSizeY g) by (apply (Z.mul_pos_cancel_l _ _ Hx); exact Hxy).
  unfold gridContour.
  destruct (findFirstOccupied_scan g (Z.to_nat (getSizeX g * getSizeY g)) 0 0)
    as [(cx & cy & -> & Hcx & Hcy & _ & Ho & _)|(_ & Hnone)]; auto; try lia.
  - cbn [mbind result_bind].
    assert (Hocc : cell_is g cx cy CELL_OCCUPIED = true).
    { unfold cell_is, cellByIndex, read_cell.
      destruct (cx <? 0) eqn:E1; [lia|].
      destruct (getSizeX g <=? cx) eqn:E2; [lia|].
      destruct (cy <? 0) eqn:E3; [lia|].
      destruct (getSizeY g <=? cy) eqn:E4; [lia|].
      cbn [orb]. rewrite Ho. reflexivity. }
    destruct (count_cells CELL_OCCUPIED g) as [|n] eqn:En; [lia|].
    apply (traceLoop_ok (S n) g cx cy [] Hwf Hocc). lia.
  - exfalso. apply (Hnone (Z.of_nat i)); [lia|]. rewrite Nat2Z.id. exact Hi.
Qed.

(** What a computed contour is, whatever was rasterised. *)
Lemma getContour_computed_inv (self self' : Shape2p5) (c : TPolygon2D) :
  contour_ self = None ->
  getContour self = Ok (c, self') ->
  c = placeholderContour /\
  self' = {| contour_ := Some placeholderContour; grid_ := None;
             zMin_ := zMin_ self; zMax_ := zMax_ self |}.
Proof.
  intros Hc. unfold getContour. rewrite Hc. intros H.
  bind_inv H. unfold computeShape in Ha. do 4 bind_inv Ha.
  destruct a3 as [s3 raw]. apply Ok_inj in Ha. subst a.
  cbn [contour_ deref mbind result_bind] in H. apply Ok_inj in H.
  injection H as <- <-.
  unfold internalGridFloodFill in Ha2.
  destruct (grid_ self) as [g|]; [|discriminate]. bind_inv Ha2.
  apply Ok_inj in Ha2. subst a2.
  unfold internalGridContour in Ha3. cbn [grid_] in Ha3. bind_inv Ha3.
  destruct a2 as [g' p]. apply Ok_inj in Ha3. injection Ha3 as <- _.
  split; reflexivity.
Qed.

Lemma getContour_computes (self : Shape2p5) (g : CDynamicGrid) :
  contour_ self = None -> grid_ self = Some g -> grid_wf g ->
  0 <= getSizeX g -> (0 < count_cells CELL_OCCUPIED g)%nat ->
  getContour self
  = Ok (placeholderContour,
        {| contour_ := Some placeholderContour; grid_ := None;
           zMin_ := zMin_ self; zMax_ := zMax_ self |}).
Proof.
  intros Hc Hg Hwf Hsx Hpos.
  assert (Hok : exists r, getContour self = Ok r).
  { unfold getContour, computeShape. rewrite Hc, Hg.
    cbn [ASSERT_ mbind result_bind has_value negb].
    unfold internalGridFloodFill. rewrite Hg.
    destruct (floodFill_ok g) as (g1 & -> & Hf & _).
    cbn [mbind result_bind]. unfold internalGridContour. cbn [grid_].
    destruct (filled_from_sizes _ _ Hf) as [Hsx1 Hsy1].
    destruct (gridContour_some g1) as (g2 & p & ->).
    - eapply filled_from_wf; eauto.
    - lia.
    - destruct (count_in_pos_lookup _ _ Hpos) as [i Hi].
      apply (count_in_pos _ _ i).
      eapply filled_from_keeps; [exact Hf | discriminate | exact Hi].
    - cbn [mbind result_bind deref contour_]. eauto. }
  destruct Hok as [[c self'] Hr]. rewrite Hr.
  destruct (getContour_computed_inv _ _ _ Hc Hr) as [-> ->]. reflexivity.
Qed.

(** X7. The contour that [getContour] computes from a grid is the fixed
    square of side 0.5 around the origin, whatever was rasterised; the
    grid is dropped and [zMin], [zMax] are kept. *)
Theorem computed_contour_is_the_fixed_square
        (self self' : Shape2p5) (c : TPolygon2D) :
  contour_ self = None ->
  getContour self = Ok (c, self') ->
  c = placeholderContour /\
  contour_ self' = Some placeholderContour /\ grid_ self' = None /\
  zMin_ self' = zMin_ self /\ zMax_ self' = zMax_ self.
Proof.
  intros Hc H. destruct (getContour_computed_inv _ _ _ Hc H) as [-> ->].
  repeat split.
Qed.

(** X8. The contour is cached: after a successful [getContour], asking
    again returns the same contour and changes nothing. A shape with
    neither a contour nor a grid fails on the assertion [grid_]. *)
Theorem getContour_is_cached (self : Shape2p5) :
  (forall (c : TPolygon2D) (self' : Shape2p5),
      getContour self = Ok (c, self') -> getContour self' = Ok (c, self')) /\
  (contour_ self = None -> grid_ self = None ->
   getContour self = Err (AssertionFailed "grid_")).
Proof.
  split.
  - intros c self' H. destruct (contour_ self) as [c0|] eqn:Hc.
    + unfold getContour in H. rewrite Hc in H. apply Ok_inj in H.
      injection H as <- <-. unfold getContour. rewrite Hc. reflexivity.
    + destruct (getContour_computed_inv _ _ _ Hc H) as [-> ->]. reflexivity.
  - intros Hc Hg. unfold getContour, computeShape. rewrite Hc, Hg. reflexivity.
Qed.

(** X9. On a shape under construction [getContour] succeeds exactly when
    some cell of the grid is Occupied. *)
Theorem getContour_succeeds_iff_occupied (self : Shape2p5) (g : CDynamicGrid) :
  contour_ self = None -> grid_ self = Some g -> grid_wf g -> 0 <= getSizeX g ->
  (is_ok (getContour self) = true <-> (0 < count_cells CELL_OCCUPIED g)%nat).
Proof.
  intros Hc Hg Hwf Hsx. split.
  - intros Hok. destruct (count_cells CELL_OCCUPIED g) as [|n] eqn:En; [|lia].
    rewrite (getContour_none_fails self g Hg Hc Hwf En) in Hok. discriminate.
  - intros Hpos. rewrite (getContour_computes self g); auto.
Qed.

End ContourProperties.

(** ** Build sequences *)

Lemma marked_from_refl (g : CDynamicGrid) : marked_from g g.
Proof. repeat split; auto. Qed.

Lemma marked_from_trans (g1 g2 g3 : CDynamicGrid) :
  marked_from g1 g2 -> marked_from g2 g3 -> marked_from g1 g3.
Proof.
  intros (He1 & Hl1 & H1) (He2 & Hl2 & H2). repeat split; try congruence.
  intros i. destruct (H2 i) as [E2|[L2 E2]].
  - destruct (H1 i) as [E1|[L1 E1]]; [left; congruence | right; split; congruence].
  - right. split; [lia | exact E2].
Qed.

Lemma marked_from_write (g : CDynamicGrid) (c : nat) :
  marked_from g (write_cell g c CELL_OCCUPIED).
Proof.
  unfold write_cell. repeat split; cbn [m_map extent]; [apply length_insert|].
  intros i. destruct (decide (i = c)) as [->|Hne].
  - destruct (decide (c < length (m_map g))%nat) as [Hlt|Hge].
    + right. split; [exact Hlt | apply list_lookup_insert_eq, Hlt].
    + left. rewrite list_insert_ge by lia. reflexivity.
  - left. apply list_lookup_insert_ne. congruence.
Qed.

Lemma marked_from_keeps_occupied (g g' : CDynamicGrid) (i : nat) :
  marked_from g g' ->
  m_map g !! i = Some CELL_OCCUPIED -> m_map g' !! i = Some CELL_OCCUPIED.
Proof. intros (_ & _ & H) Hi. destruct (H i) as [E|[_ E]]; congruence. Qed.

Section BuildProperties.
Context {geom : GridGeometry}.

Lemma addTriangleSample_marked (st : CDynamicGrid * float * float) (p : TPoint3Df) :
  marked_from (st_grid st) (st_grid (addTriangleSample st p)).
Proof.
  destruct st as [[g zMin] zMax]. unfold addTriangleSample, st_grid.
  destruct (cellByPos g _ _) as [c|]; cbn [fst];
    [apply marked_from_write | apply marked_from_refl].
Qed.

Lemma edgeLoop_marked (n : nat) : forall st p Ap,
  marked_from (st_grid st) (st_grid (edgeLoop n st p Ap)).
Proof.
  induction n as [|n IH]; intros st p Ap; cbn [edgeLoop]; [apply marked_from_refl|].
  eapply marked_from_trans; [apply addTriangleSample_marked | apply IH].
Qed.

Lemma addTriangleEdge_marked (step : float) (t : TTriangle)
      (st st' : CDynamicGrid * float * float) (i0 : Z) :
  addTriangleEdge step t st i0 = Ok st' -> marked_from (st_grid st) (st_grid st').
Proof.
  unfold addTriangleEdge. intros H. bind_inv H. apply Ok_inj in H. subst st'.
  apply edgeLoop_marked.
Qed.

Lemma applyBuildOp_marked (self self' : Shape2p5) (op : BuildOp) (g : CDynamicGrid) :
  grid_ self = Some g -> applyBuildOp self op = Ok self' ->
  contour_ self' = contour_ self /\
  exists g', grid_ self' = Some g' /\ marked_from g g'.
Proof.
  intros Hg. destruct op as [pt|t]; cbn [applyBuildOp].
  - unfold buildAddPoint. rewrite Hg. cbn [deref mbind result_bind].
    destruct (cellByPos g _ _) as [c|]; [|discriminate].
    intros H. apply Ok_inj in H. subst self'. cbn [contour_ grid_].
    split; [reflexivity|]. eexists. split; [reflexivity | apply marked_from_write].
  - unfold buildAddTriangle. rewrite Hg. cbn [deref mbind result_bind]. intros H.
    do 3 bind_inv H. destruct a1 as [[g3 zMin] zMax]. apply Ok_inj in H. subst self'.
    cbn [contour_ grid_]. split; [reflexivity|]. exists g3. split; [reflexivity|].
    apply addTriangleEdge_marked in Ha. apply addTriangleEdge_marked in Ha0.
    apply addTriangleEdge_marked in Ha1. cbn [st_grid fst] in *.
    eapply marked_from_trans; [exact Ha|]. eapply marked_from_trans; eauto.
Qed.

Lemma runBuild_marked (ops : list BuildOp) : forall (self self' : Shape2p5) g,
  grid_ self = Some g -> runBuild self ops = Ok self' ->
  contour_ self' = contour_ self /\
  exists g', grid_ self' = Some g' /\ marked_from g g'.
Proof.
  induction ops as [|op ops IH]; intros self self' g Hg H; cbn [runBuild] in H.
  - apply Ok_inj in H. subst. split; [reflexivity|].
    exists g. split; [exact Hg | apply marked_from_refl].
  - bind_inv H.
    destruct (applyBuildOp_marked _ _ _ _ Hg Ha) as (Hc1 & g1 & Hg1 & Hm1).
    destruct (IH _ _ _ Hg1 H) as (Hc2 & g2 & Hg2 & Hm2).
    split; [congruence|]. exists g2. split; [exact Hg2|].
    eapply marked_from_trans; eauto.
Qed.

Lemma runBuild_app (ops1 ops2 : list BuildOp) : forall self self' : Shape2p5,
  runBuild self (ops1 ++ ops2)%list = Ok self' ->
  exists mid, runBuild self ops1 = Ok mid /\ runBuild mid ops2 = Ok self'.
Proof.
  induction ops1 as [|op ops1 IH]; intros self self' H; cbn [runBuild app] in *.
  - exists self. split; [reflexivity | exact H].
  - bind_inv H. destruct (IH _ _ H) as (mid & H1 & H2).
    exists mid. rewrite Ha. cbn [mbind result_bind]. split; assumption.
Qed.

(** X10. Rasterisation never resizes the grid, never touches the contour
    and never unmarks a cell: after any sequence of [buildAddPoint] and
    [buildAddTriangle] every cell is as it was or Occupied. Right after
    [buildInit] all cells are Undefined, so that they are Undefined or
    Occupied when the contour is asked for. *)
Theorem build_only_marks_cells
        (self0 self : Shape2p5) (bbMin bbMax : TPoint2Df) (numCells : Z)
        (ops : list BuildOp) :
  runBuild (buildInit self0 bbMin bbMax numCells) ops = Ok self ->
  contour_ self = None /\
  exists g0 g,
    grid_ (buildInit self0 bbMin bbMax numCells) = Some g0 /\
    grid_ self = Some g /\
    marked_from g0 g /\
    forall (i : nat) (c : Z),
      m_map g !! i = Some c -> c = CELL_UNDEFINED \/ c = CELL_OCCUPIED.
Proof.
  intros H.
  pose proof (fun g0 Hg0 => runBuild_marked ops _ _ g0 Hg0 H) as Hmk.
  destruct (Hmk _ eq_refl) as (Hc & g & Hg & Hm). clear Hmk.
  split; [exact Hc|]. eexists _, g. split; [reflexivity|]. split; [exact Hg|].
  split; [exact Hm|]. intros i c Hi.
  destruct Hm as (_ & _ & Hm). destruct (Hm i) as [E|[_ E]].
  - left. rewrite E in Hi. unfold fill in Hi. cbn [m_map] in Hi.
    rewrite list_lookup_fmap in Hi.
    destruct (m_map (CDynamicGrid_new _ _ _ _ _) !! i); cbn in Hi; congruence.
  - right. congruence.
Qed.

(** X11. A build sequence in which one [buildAddPoint] is made, and which
    succeeds, always gives a contour: the fixed square. *)
Theorem build_with_a_point_has_a_contour
        (self0 self : Shape2p5) (bbMin bbMax : TPoint2Df) (numCells : Z)
        (ops1 ops2 : list BuildOp) (pt : TPoint3Df) :
  runBuild (buildInit self0 bbMin bbMax numCells) (ops1 ++ AddPoint pt :: ops2)%list
  = Ok self ->
  getContour self
  = Ok (placeholderContour,
        {| contour_ := Some placeholderContour; grid_ := None;
           zMin_ := zMin_ self; zMax_ := zMax_ self |}).
Proof.
  intros H. pose proof (runBuild_building _ _ _ (buildInit_building _ _ _ _) H)
    as (Hc & g & Hg & Hwf).
  apply runBuild_app in H as (s1 & H1 & H2). cbn [runBuild applyBuildOp] in H2.
  bind_inv H2. rename a into s2.
  pose proof (runBuild_building _ _ _ (buildInit_building _ _ _ _) H1)
    as (_ & g1 & Hg1 & Hwf1).
  unfold buildAddPoint in Ha. rewrite Hg1 in Ha. cbn [deref mbind result_bind] in Ha.
  destruct (cellByPos g1 _ _) as [c|] eqn:Ec; [|discriminate].
  apply Ok_inj in Ha. subst s2.
  pose proof (fun g0 Hg0 => runBuild_marked ops2 _ _ g0 Hg0 H2) as Hmk.
  destruct (Hmk _ eq_refl) as (_ & g' & Hg' & Hm). clear Hmk.
  rewrite Hg in Hg'. injection Hg' as <-.
  pose proof (cellByIndex_lt _ _ _ _ Hwf1 Ec) as Hlt.
  assert (Hocc : m_map g !! c = Some CELL_OCCUPIED).
  { eapply marked_from_keeps_occupied; [exact Hm|].
    cbn [write_cell m_map]. apply list_lookup_insert_eq, Hlt. }
  assert (Hsx : 0 <= getSizeX g).
  { destruct Hm as (He & _). unfold getSizeX. rewrite He. cbn [write_cell extent].
    unfold cellByPos, cellByIndex in Ec. fold (getSizeX g1).
    destruct (x2idx (extent g1) _ <? 0) eqn:E1; [discriminate|].
    destruct (getSizeX g1 <=? x2idx (extent g1) _) eqn:E2; [discriminate|]. lia. }
  apply (getContour_computes self g Hc Hg Hwf Hsx).
  apply (count_in_pos _ _ c Hocc).
Qed.

Lemma fsub_diag (a : float) :
  is_finite a = true -> (a - a)%flt = S754_zero false.
Proof.
  destruct a as [s|s| |s m e]; try discriminate; intros _.
  - destruct s; reflexivity.
  - unfold fsub, SFsub.
    match goal with
    | |- binary_normalize _ _ (IntDef.Z.sub ?a ?a) _ _ = _ =>
        change (IntDef.Z.sub a a) with (Z.sub a a); rewrite Z.sub_diag
    end.
    reflexivity.
Qed.

(** A triangle that is one point has edges of no step. *)
Lemma addTriangleEdge_pointTriangle (step : float) (v : TPoint3Df)
      (st : CDynamicGrid * float * float) (i0 : Z) :
  finitePoint v = true -> is_finite step = true -> is_zero step = false ->
  addTriangleEdge step (pointTriangle v) st i0 = Ok st.
Proof.
  intros Hv Hs Hz. unfold addTriangleEdge.
  assert (Hvx : forall i, vertex (pointTriangle v) i = v).
  { intros i. unfold vertex, pointTriangle. cbn.
    destruct (i =? 0); [reflexivity|]. destruct (i =? 1); reflexivity. }
  rewrite !Hvx. unfold finitePoint in Hv.
  apply andb_prop in Hv as [Hv Hvz]. apply andb_prop in Hv as [Hvx' Hvy].
  unfold sub3f, norm3f. cbn [f3_x f3_y f3_z].
  rewrite !fsub_diag by assumption.
  destruct step as [s|s| |s m e]; try discriminate.
  reflexivity.
Qed.

(** X12. A triangle collapsed to a point marks nothing, even over the
    grid: every edge has length 0, so no sample is taken and the shape is
    left as it was. *)
Theorem point_triangle_marks_nothing
        (self : Shape2p5) (g : CDynamicGrid) (v : TPoint3Df) :
  grid_ self = Some g ->
  finitePoint v = true ->
  is_finite (float_of_double (getResolution g)) = true ->
  is_zero (float_of_double (getResolution g)) = false ->
  buildAddTriangle self (pointTriangle v) = Ok self.
Proof.
  intros Hg Hv Hs Hz. unfold buildAddTriangle. rewrite Hg.
  cbn [deref mbind result_bind].
  do 3 (rewrite addTriangleEdge_pointTriangle by assumption;
        cbn [mbind result_bind]).
  destruct self; cbn in *. subst. reflexivity.
Qed.

End BuildProperties.

(** ** The z range of a build *)

(** The comparisons of IEEE numbers, read on the keys. *)
Lemma finite_compare_spec (e1 e2 : Z) (m1 m2 : positive) :
  match IntDef.Z.compare e1 e2 with
  | Eq => PosDef.Pos.compare_cont Eq m1 m2
  | Lt => Lt
  | Gt => Gt
  end
  = if decide (e1 < e2 \/ (e1 = e2 /\ (m1 < m2)%positive)) then Lt
    else if decide (e1 = e2 /\ m1 = m2) then Eq else Gt.
Proof.
  change (IntDef.Z.compare e1 e2) with (Z.compare e1 e2).
  change (PosDef.Pos.compare_cont Eq m1 m2) with (Pos.compare m1 m2).
  destruct (Z.compare_spec e1 e2), (Pos.compare_spec m1 m2);
    repeat case_decide; try reflexivity; try lia.
Qed.

Lemma finite_compare_opp_spec (e1 e2 : Z) (m1 m2 : positive) :
  match IntDef.Z.compare e1 e2 with
  | Eq => CompOpp (PosDef.Pos.compare_cont Eq m1 m2)
  | Lt => Gt
  | Gt => Lt
  end
  = if decide (e1 < e2 \/ (e1 = e2 /\ (m1 < m2)%positive)) then Gt
    else if decide (e1 = e2 /\ m1 = m2) then Eq else Lt.
Proof.
  change (IntDef.Z.compare e1 e2) with (Z.compare e1 e2).
  change (PosDef.Pos.compare_cont Eq m1 m2) with (Pos.compare m1 m2).
  destruct (Z.compare_spec e1 e2), (Pos.compare_spec m1 m2);
    repeat case_decide; try reflexivity; try lia.
Qed.

Lemma SFltb_key (a b : spec_float) :
  SFltb a b = true <->
  is_nan a = false /\ is_nan b = false /\ key_lt (SFkey a) (SFkey b).
Proof.
  unfold SFltb, SFcompare.
  destruct a as [sa|sa| |sa ma ea], b as [sb|sb| |sb mb eb];
    try destruct sa; try destruct sb; cbn [is_nan SFkey key_lt];
    try rewrite finite_compare_spec; try rewrite finite_compare_opp_spec;
    repeat case_decide; cbn [CompOpp];
    split; try discriminate; try (intros (? & ? & ?); try discriminate; lia);
    try (intros _; repeat split; lia).
Qed.

Lemma SFleb_key (a b : spec_float) :
  SFleb a b = true <->
  is_nan a = false /\ is_nan b = false /\
  (key_lt (SFkey a) (SFkey b) \/ SFkey a = SFkey b).
Proof.
  unfold SFleb, SFcompare.
  destruct a as [sa|sa| |sa ma ea], b as [sb|sb| |sb mb eb];
    try destruct sa; try destruct sb; cbn [is_nan SFkey key_lt];
    try rewrite finite_compare_spec; try rewrite finite_compare_opp_spec;
    repeat case_decide; cbn [CompOpp];
    (split;
     [ try discriminate; intros _;
       (split; [reflexivity|split; [reflexivity|]]);
       first [left; lia | right; reflexivity
             | right; f_equal; [f_equal|]; lia ]
     | intros (Ha & Hb & [Hk|Hk]); try discriminate; try reflexivity;
       try (exfalso; lia);
       try (injection Hk; intros; exfalso; lia) ]).
Qed.

Lemma SFleb_refl (a : spec_float) : is_nan a = false -> SFleb a a = true.
Proof. intros H. apply SFleb_key. auto. Qed.

Lemma SFltb_leb (a b : spec_float) : SFltb a b = true -> SFleb a b = true.
Proof.
  rewrite SFltb_key, SFleb_key. intros (Ha & Hb & H). auto.
Qed.

Lemma SFleb_trans (a b c : spec_float) :
  SFleb a b = true -> SFleb b c = true -> SFleb a c = true.
Proof.
  rewrite !SFleb_key. intros (Ha & Hb & Hab) (_ & Hc & Hbc).
  split; [exact Ha|split; [exact Hc|]].
  destruct (SFkey a) as [[a1 a2] a3], (SFkey b) as [[b1 b2] b3],
    (SFkey c) as [[c1 c2] c3].
  unfold key_lt in *.
  destruct Hab as [Hab|Hab], Hbc as [Hbc|Hbc];
    try (injection Hab as -> -> ->); try (injection Hbc as -> -> ->);
    auto; left; lia.
Qed.

Lemma SFltb_false_leb (a b : spec_float) :
  is_nan a = false -> is_nan b = false -> SFltb a b = false -> SFleb b a = true.
Proof.
  intros Ha Hb H. apply SFleb_key. split; [exact Hb|split; [exact Ha|]].
  assert (Hn : ~ key_lt (SFkey a) (SFkey b)).
  { intros Hk. rewrite (proj2 (SFltb_key a b)) in H by auto. discriminate H. }
  destruct (SFkey a) as [[a1 a2] a3], (SFkey b) as [[b1 b2] b3].
  unfold key_lt in *.
  destruct (decide (a1 = b1 /\ a2 = b2 /\ a3 = b3)) as [(-> & -> & ->)|Hne];
    [right; reflexivity|left; lia].
Qed.

Lemma keep_min_spec (var z : float) :
  is_nan var = false ->
  is_nan (keep_min var z) = false /\
  SFleb (keep_min var z) var = true /\
  (is_nan z = false -> SFleb (keep_min var z) z = true).
Proof.
  intros Hv. unfold keep_min. destruct (z <? var)%flt eqn:E.
  - pose proof (proj1 (SFltb_key _ _) E) as (Hz & _ & _).
    split; [exact Hz|split; [apply SFltb_leb, E|intros _; apply SFleb_refl, Hz]].
  - split; [exact Hv|split; [apply SFleb_refl, Hv|]].
    intros Hz. apply SFltb_false_leb; assumption.
Qed.

Lemma keep_max_spec (var z : float) :
  is_nan var = false ->
  is_nan (keep_max var z) = false /\
  SFleb var (keep_max var z) = true /\
  (is_nan z = false -> SFleb z (keep_max var z) = true).
Proof.
  intros Hv. unfold keep_max. destruct (z >? var)%flt eqn:E.
  - pose proof (proj1 (SFltb_key _ _) E) as (_ & Hz & _).
    split; [exact Hz|split; [apply SFltb_leb, E|intros _; apply SFleb_refl, Hz]].
  - split; [exact Hv|split; [apply SFleb_refl, Hv|]].
    intros Hz. apply SFltb_false_leb; assumption.
Qed.

Section ZRange.
Context {geom : GridGeometry}.
Variable P : float -> float -> Prop.
Hypothesis P_widen : forall zMin zMax z, P zMin zMax -> P (keep_min zMin z) (keep_max zMax z).

Lemma addTriangleSample_zrange (st : CDynamicGrid * float * float) (p : TPoint3Df) :
  P (st_zMin st) (st_zMax st) ->
  P (st_zMin (addTriangleSample st p)) (st_zMax (addTriangleSample st p)).
Proof.
  destruct st as [[g zMin] zMax]. unfold addTriangleSample.
  destruct (cellByPos g _ _); cbn; intros H; [apply P_widen, H|exact H].
Qed.

Lemma edgeLoop_zrange (n : nat) : forall st p Ap,
  P (st_zMin st) (st_zMax st) ->
  P (st_zMin (edgeLoop n st p Ap)) (st_zMax (edgeLoop n st p Ap)).
Proof.
  induction n as [|n IH]; intros st p Ap H; cbn [edgeLoop]; [exact H|].
  apply IH, addTriangleSample_zrange, H.
Qed.

Lemma addTriangleEdge_zrange (step : float) (t : TTriangle)
      (st st' : CDynamicGrid * float * float) (i0 : Z) :
  addTriangleEdge step t st i0 = Ok st' ->
  P (st_zMin st) (st_zMax st) -> P (st_zMin st') (st_zMax st').
Proof.
  unfold addTriangleEdge. intros H HP. bind_inv H. apply Ok_inj in H. subst st'.
  apply edgeLoop_zrange, HP.
Qed.

Lemma applyBuildOp_zrange (self self' : Shape2p5) (op : BuildOp) :
  applyBuildOp self op = Ok self' ->
  P (zMin_ self) (zMax_ self) -> P (zMin_ self') (zMax_ self').
Proof.
  destruct op as [pt|t]; cbn [applyBuildOp]; intros H HP.
  - unfold buildAddPoint in H. bind_inv H.
    destruct (cellByPos a _ _); [|discriminate H].
    apply Ok_inj in H. subst self'. cbn. apply P_widen, HP.
  - unfold buildAddTriangle in H. bind_inv H.
    bind_inv H. bind_inv H. bind_inv H.
    destruct a2 as [[g3 zMin3] zMax3]. apply Ok_inj in H. subst self'. cbn.
    apply (addTriangleEdge_zrange _ _ _ _ _ Ha2).
    apply (addTriangleEdge_zrange _ _ _ _ _ Ha1).
    apply (addTriangleEdge_zrange _ _ _ _ _ Ha0). exact HP.
Qed.

Lemma runBuild_zrange (ops : list BuildOp) : forall self self' : Shape2p5,
  runBuild self ops = Ok self' ->
  P (zMin_ self) (zMax_ self) -> P (zMin_ self') (zMax_ self').
Proof.
  induction ops as [|op ops IH]; intros self self' H HP; cbn [runBuild] in H.
  - apply Ok_inj in H. subst. exact HP.
  - bind_inv H. apply (IH _ _ H). apply (applyBuildOp_zrange _ _ _ Ha HP).
Qed.
End ZRange.

Lemma zRangeOrdered_widen (zMin zMax z : float) :
  zRangeOrdered zMin zMax -> zRangeOrdered (keep_min zMin z) (keep_max zMax z).
Proof.
  intros (Hmin & Hmax & H).
  destruct (keep_min_spec zMin z Hmin) as (Hn1 & Hle1 & Hz1).
  destruct (keep_max_spec zMax z Hmax) as (Hn2 & Hle2 & Hz2).
  split; [exact Hn1|split; [exact Hn2|]].
  destruct (is_nan z) eqn:Ez.
  - destruct z; try discriminate Ez. unfold keep_min, keep_max.
    replace (S754_nan <? zMin)%flt with false by (destruct zMin; reflexivity).
    replace (S754_nan >? zMax)%flt with false by (destruct zMax as [[]|[]| |[]]; reflexivity).
    exact H.
  - right. apply (SFleb_trans _ z); auto.
Qed.

Lemma zRangeCovers_widen (z0 zMin zMax z : float) :
  zRangeCovers z0 zMin zMax -> zRangeCovers z0 (keep_min zMin z) (keep_max zMax z).
Proof.
  intros (H1 & H2).
  pose proof (proj1 (SFleb_key _ _) H1) as (Hmin & _ & _).
  pose proof (proj1 (SFleb_key _ _) H2) as (_ & Hmax & _).
  destruct (keep_min_spec zMin z Hmin) as (_ & Hle1 & _).
  destruct (keep_max_spec zMax z Hmax) as (_ & Hle2 & _).
  split; [apply (SFleb_trans _ zMin)|apply (SFleb_trans _ zMax)]; assumption.
Qed.

Section ZRangeOfBuild.
Context {geom : GridGeometry}.

Lemma buildInit_zRangeOrdered (self0 : Shape2p5) (bbMin bbMax : TPoint2Df) (numCells : Z) :
  zRangeOrdered (zMin_ (buildInit self0 bbMin bbMax numCells))
                (zMax_ (buildInit self0 bbMin bbMax numCells)).
Proof.
  cbn [buildInit zMin_ zMax_]. split; [reflexivity|split; [reflexivity|]].
  left. split; reflexivity.
Qed.

(** X13. From [buildInit] on, the z range is never NaN, and it is either
    untouched ([zMin = FLT_MAX], [zMax = -FLT_MAX]) or in order
    ([zMin <= zMax]), whatever points and triangles are added, also with
    NaN or infinite heights. *)
Theorem build_keeps_z_range_ordered
        (self0 self : Shape2p5) (bbMin bbMax : TPoint2Df) (numCells : Z)
        (ops : list BuildOp) :
  runBuild (buildInit self0 bbMin bbMax numCells) ops = Ok self ->
  zRangeOrdered (zMin_ self) (zMax_ self).
Proof.
  intros H.
  apply (runBuild_zrange zRangeOrdered zRangeOrdered_widen ops _ _ H).
  apply buildInit_zRangeOrdered.
Qed.

(** X14. The z range of a finished build holds every point that was added
    with [buildAddPoint] and whose height is a number:
    [zMin <= pt.z <= zMax], whatever was added before and after. *)
Theorem added_point_is_within_z_range
        (self0 self : Shape2p5) (bbMin bbMax : TPoint2Df) (numCells : Z)
        (ops1 ops2 : list BuildOp) (pt : TPoint3Df) :
  runBuild (buildInit self0 bbMin bbMax numCells) (ops1 ++ AddPoint pt :: ops2)%list
  = Ok self ->
  is_nan (f3_z pt) = false ->
  zRangeCovers (f3_z pt) (zMin_ self) (zMax_ self).
Proof.
  intros H Hz. apply runBuild_app in H as (s1 & H1 & H2).
  cbn [runBuild applyBuildOp] in H2. bind_inv H2. rename a into s2.
  apply (runBuild_zrange _ (zRangeCovers_widen (f3_z pt)) ops2 _ _ H2).
  pose proof (runBuild_zrange zRangeOrdered zRangeOrdered_widen ops1 _ _ H1
                              (buildInit_zRangeOrdered _ _ _ _)) as (Hmin & Hmax & _).
  unfold buildAddPoint in Ha. bind_inv Ha.
  destruct (cellByPos a _ _); [|discriminate Ha].
  apply Ok_inj in Ha. subst s2. cbn [zMin_ zMax_].
  destruct (keep_min_spec (zMin_ s1) (f3_z pt) Hmin) as (_ & _ & H3).
  destruct (keep_max_spec (zMax_ s1) (f3_z pt) Hmax) as (_ & _ & H4).
  split; [apply H3, Hz|apply H4, Hz].
Qed.

End ZRangeOfBuild.

(** ** The seed fill, cell by cell *)

Lemma linked_Inside g x y : linked g x y -> Inside g x y = true.
Proof. intros H. destruct H; assumption. Qed.

Lemma Inside_mono g0 g x y :
  filled_from g0 g -> Inside g x y = true -> Inside g0 x y = true.
Proof.
  intros Hf H. destruct (filled_from_sizes _ _ Hf) as [Hsx Hsy].
  destruct (Inside_inv _ _ _ H) as (Hx & Hy & Hc & Hl).
  destruct Hf as (He & _ & Hf).
  unfold Inside, cellByIndex, read_cell. rewrite <- Hsx, <- Hsy.
  destruct (x <? 0) eqn:E1; [lia|]. destruct (y <? 0) eqn:E2; [lia|].
  destruct (x >? getSizeX g - 1) eqn:E3; [lia|].
  destruct (y >? getSizeY g - 1) eqn:E4; [lia|].
  destruct (getSizeX g <=? x) eqn:E5; [lia|].
  destruct (getSizeY g <=? y) eqn:E6; [lia|].
  cbn [orb].
  destruct (Hf (Z.to_nat (x + y * getSizeX g))) as [E|[E F]].
  - rewrite <- E, Hl. reflexivity.
  - rewrite E. reflexivity.
Qed.

(** [Set] frees the cell and no other. *)
Lemma Inside_Set g x y a b :
  Inside g x y = true ->
  Inside (Set_ g x y) a b = if decide (a = x /\ b = y) then false else Inside g a b.
Proof.
  intros H. destruct (Set_Inside _ _ _ H) as (Hs & _ & Hfree).
  destruct (filled_from_sizes _ _ Hs) as [Hsx Hsy].
  destruct (Inside_inv _ _ _ H) as (Hx & Hy & Hc & Hl).
  case_decide as Hab.
  - destruct Hab as [-> ->].
    apply (Inside_false_of_cell _ _ _ CELL_FREE); [discriminate|].
    rewrite Hsx. exact Hfree.
  - destruct (Inside g a b) eqn:E.
    + destruct (Inside_inv _ _ _ E) as (Ha & Hb & Hc' & Hl').
      unfold Inside, cellByIndex, read_cell. rewrite Hsx, Hsy.
      destruct (a <? 0) eqn:E1; [lia|]. destruct (b <? 0) eqn:E2; [lia|].
      destruct (a >? getSizeX g - 1) eqn:E3; [lia|].
      destruct (b >? getSizeY g - 1) eqn:E4; [lia|].
      destruct (getSizeX g <=? a) eqn:E5; [lia|].
      destruct (getSizeY g <=? b) eqn:E6; [lia|].
      cbn [orb].
      destruct Hs as (_ & _ & Hs).
      destruct (Hs (Z.to_nat (a + b * getSizeX g))) as [Eq|[_ F]].
      * rewrite Eq, Hl'. reflexivity.
      * exfalso. unfold Set_ in F.
        destruct (x <? 0) eqn:F1; [lia|]. destruct (y <? 0) eqn:F2; [lia|].
        destruct (x >? getSizeX g - 1) eqn:F3; [lia|].
        destruct (y >? getSizeY g - 1) eqn:F4; [lia|].
        cbn [orb] in F. rewrite Hc in F. cbn [write_cell m_map] in F.
        destruct (decide (Z.to_nat (x + y * getSizeX g) = Z.to_nat (a + b * getSizeX g)))
          as [Heq|Hne].
        -- apply Hab. 
           assert (x + y * getSizeX g = a + b * getSizeX g) by nia.
           assert (y = b) by nia. split; nia.
        -- rewrite list_lookup_insert_ne in F by exact Hne.
           rewrite Hl' in F. discriminate F.
    + destruct (Inside (Set_ g x y) a b) eqn:E'; [|reflexivity].
      rewrite (Inside_mono _ _ _ _ Hs E') in E. discriminate.
Qed.


Lemma extendLeft_span (fuel : nat) : forall g lx y g' lx',
  extendLeft fuel g lx y = Ok (g', lx') ->
  filled_from g g' /\ lx' <= lx /\
  (forall a, lx' <= a < lx -> Inside g a y = true) /\
  Inside g (lx' - 1) y = false /\
  (forall a b, Inside g' a b
               = if decide (b = y /\ lx' <= a < lx) then false else Inside g a b).
Proof.
  induction fuel as [|fuel IH]; intros g lx y g' lx' H; cbn [extendLeft] in H;
    destruct (Inside g (lx - 1) y) eqn:E; try discriminate H.
  1,3: apply Ok_inj in H; injection H as <- <-;
    (split; [apply filled_from_refl|]); (split; [lia|]); (split; [intros a Ha; lia|]);
    (split; [exact E|]); intros a b; case_decide; [lia|reflexivity].
  destruct (IH _ _ _ _ _ H) as (Hf & Hle & Hall & Hstop & Hin).
  destruct (Set_Inside _ _ _ E) as (Hs & _).
  split; [eapply filled_from_trans; eauto|]. split; [lia|].
  split; [|split].
  - intros a Ha. destruct (decide (a = lx - 1)) as [->|Hne]; [exact E|].
    specialize (Hall a ltac:(lia)). rewrite (Inside_Set _ _ _ _ _ E) in Hall.
    case_decide; [discriminate Hall|exact Hall].
  - rewrite (Inside_Set _ _ _ _ _ E) in Hstop. case_decide; [lia|exact Hstop].
  - intros a b. rewrite Hin, (Inside_Set _ _ _ _ _ E).
    repeat case_decide; try reflexivity; lia.
Qed.

Lemma extendRight_span (fuel : nat) : forall g x y g' x',
  extendRight fuel g x y = Ok (g', x') ->
  filled_from g g' /\ x <= x' /\
  (forall a, x <= a < x' -> Inside g a y = true) /\
  Inside g x' y = false /\
  (forall a b, Inside g' a b
               = if decide (b = y /\ x <= a < x') then false else Inside g a b).
Proof.
  induction fuel as [|fuel IH]; intros g x y g' x' H; cbn [extendRight] in H;
    destruct (Inside g x y) eqn:E; try discriminate H.
  1,3: apply Ok_inj in H; injection H as <- <-;
    (split; [apply filled_from_refl|]); (split; [lia|]); (split; [intros a Ha; lia|]);
    (split; [exact E|]); intros a b; case_decide; [lia|reflexivity].
  destruct (IH _ _ _ _ _ H) as (Hf & Hle & Hall & Hstop & Hin).
  destruct (Set_Inside _ _ _ E) as (Hs & _).
  split; [eapply filled_from_trans; eauto|]. split; [lia|].
  split; [|split].
  - intros a Ha. destruct (decide (a = x)) as [->|Hne]; [exact E|].
    specialize (Hall a ltac:(lia)). rewrite (Inside_Set _ _ _ _ _ E) in Hall.
    case_decide; [discriminate Hall|exact Hall].
  - rewrite (Inside_Set _ _ _ _ _ E) in Hstop. case_decide; [lia|exact Hstop].
  - intros a b. rewrite Hin, (Inside_Set _ _ _ _ _ E).
    repeat case_decide; try reflexivity; lia.
Qed.

(** The two loops together free one run of Undefined cells of the row,
    which no Undefined cell borders. *)
Lemma span_freed (f1 f2 : nat) g x y g1 lx g2 x' :
  extendLeft f1 g x y = Ok (g1, lx) ->
  extendRight f2 g1 x y = Ok (g2, x') ->
  filled_from g g2 /\ lx <= x <= x' /\
  (forall a, lx <= a < x' -> Inside g a y = true) /\
  Inside g (lx - 1) y = false /\ Inside g x' y = false /\
  (forall a b, Inside g2 a b
               = if decide (b = y /\ lx <= a < x') then false else Inside g a b).
Proof.
  intros H1 H2.
  destruct (extendLeft_span _ _ _ _ _ _ H1) as (Hf1 & Hl1 & Ha1 & Hs1 & Hi1).
  destruct (extendRight_span _ _ _ _ _ _ H2) as (Hf2 & Hl2 & Ha2 & Hs2 & Hi2).
  split; [eapply filled_from_trans; eauto|]. split; [lia|].
  split; [|split; [exact Hs1|split]].
  - intros a Ha. destruct (decide (a < x)) as [Hlt|Hge]; [apply Ha1; lia|].
    specialize (Ha2 a ltac:(lia)). rewrite Hi1 in Ha2.
    case_decide; [discriminate Ha2|exact Ha2].
  - rewrite Hi1 in Hs2. case_decide; [lia|exact Hs2].
  - intros a b. rewrite Hi2, Hi1. repeat case_decide; try reflexivity; lia.
Qed.

(** [lambdaScan] queues the first cell of every run of Undefined cells of
    the row. *)
Lemma scanLoop_spec (n : nat) : forall g x y (b : bool) (s : list Coord),
  exists new : list Coord,
    scanLoop n g x y b s = (s ++ new)%list /\
    (forall c, In c new ->
               snd c = y /\ x <= fst c < x + Z.of_nat n /\ Inside g (fst c) y = true) /\
    (forall a, x <= a < x + Z.of_nat n -> Inside g a y = true ->
               (exists q, In (q, y) new /\ x <= q <= a /\
                          forall c, q <= c <= a -> Inside g c y = true) \/
               (b = true /\ forall c, x <= c <= a -> Inside g c y = true)).
Proof.
  induction n as [|n IH]; intros g x y b s; cbn [scanLoop].
  { exists []. rewrite app_nil_r. split; [reflexivity|].
    split; [intros c []|intros a Ha; lia]. }
  destruct (Inside g x y) eqn:E; cbn [negb].
  - destruct b; cbn [negb].
    + destruct (IH g (x + 1) y true s) as (new & -> & Hnew & Hrun).
      exists new. split; [reflexivity|]. split.
      * intros c Hc. destruct (Hnew c Hc) as (? & ? & ?). repeat split; auto; lia.
      * intros a Ha Hin. destruct (decide (a = x)) as [->|Hne].
        { right. split; [reflexivity|]. intros c Hc. replace c with x by lia. exact E. }
        destruct (Hrun a ltac:(lia) Hin) as [(q & Hq & Hqa & Hall)|[_ Hall]].
        -- left. exists q. split; [exact Hq|]. split; [lia|exact Hall].
        -- right. split; [reflexivity|]. intros c Hc.
           destruct (decide (c = x)) as [->|Hcx]; [exact E|]. apply Hall. lia.
    + destruct (IH g (x + 1) y true (s ++ [(x, y)])%list) as (new & -> & Hnew & Hrun).
      exists ((x, y) :: new). split; [rewrite <- app_assoc; reflexivity|]. split.
      * intros c [<-|Hc]; [cbn; repeat split; [lia|lia|exact E]|].
        destruct (Hnew c Hc) as (? & ? & ?). repeat split; auto; lia.
      * intros a Ha Hin. left. destruct (decide (a = x)) as [->|Hne].
        { exists x. split; [left; reflexivity|]. split; [lia|].
          intros c Hc. replace c with x by lia. exact E. }
        destruct (Hrun a ltac:(lia) Hin) as [(q & Hq & Hqa & Hall)|[_ Hall]].
        -- exists q. split; [right; exact Hq|]. split; [lia|exact Hall].
        -- exists x. split; [left; reflexivity|]. split; [lia|]. intros c Hc.
           destruct (decide (c = x)) as [->|Hcx]; [exact E|]. apply Hall. lia.
  - destruct (IH g (x + 1) y false s) as (new & -> & Hnew & Hrun).
    exists new. split; [reflexivity|]. split.
    + intros c Hc. destruct (Hnew c Hc) as (? & ? & ?). repeat split; auto; lia.
    + intros a Ha Hin. destruct (decide (a = x)) as [->|Hne]; [congruence|].
      destruct (Hrun a ltac:(lia) Hin) as [(q & Hq & Hqa & Hall)|[Hb _]];
        [|discriminate Hb].
      left. exists q. split; [exact Hq|]. split; [lia|exact Hall].
Qed.

Lemma lambdaScan_spec g (s : list Coord) (lx rx y : Z) :
  exists new : list Coord,
    lambdaScan g s lx rx y = (s ++ new)%list /\
    (forall c, In c new -> snd c = y /\ lx <= fst c <= rx /\ Inside g (fst c) y = true) /\
    (forall a, lx <= a <= rx -> Inside g a y = true ->
               exists q, In (q, y) new /\ lx <= q <= a /\
                         forall c, q <= c <= a -> Inside g c y = true).
Proof.
  unfold lambdaScan.
  destruct (scanLoop_spec (Z.to_nat (rx - lx + 1)) g lx y false s) as (new & -> & Hnew & Hrun).
  exists new. split; [reflexivity|]. split.
  - intros c Hc. destruct (Hnew c Hc) as (? & ? & ?). repeat split; auto; lia.
  - intros a Ha Hin. destruct (Hrun a ltac:(lia) Hin) as [H|[Hb _]]; [exact H|discriminate Hb].
Qed.

(** The cells of a run of Undefined cells are linked to the seed when one
    cell of the row next to the run is. *)
Lemma run_linked g0 (x y : Z) (lx x' : Z) :
  linked g0 x y -> lx <= x <= x' ->
  (forall a, lx <= a < x' -> Inside g0 a y = true) ->
  forall a, lx <= a < x' -> linked g0 a y.
Proof.
  intros Hx Hle Hall.
  assert (Hr : forall n : nat, x + Z.of_nat n < x' -> linked g0 (x + Z.of_nat n) y).
  { induction n as [|n IHn]; intros Hn.
    - replace (x + Z.of_nat 0) with x by lia. exact Hx.
    - apply (linked_step g0 (x + Z.of_nat n) y); [apply IHn; lia| |apply Hall; lia].
      left. split; [reflexivity|]. left. lia. }
  assert (Hl : forall n : nat, lx <= x - Z.of_nat n -> linked g0 (x - Z.of_nat n) y).
  { induction n as [|n IHn]; intros Hn.
    - replace (x - Z.of_nat 0) with x by lia. exact Hx.
    - apply (linked_step g0 (x - Z.of_nat n) y); [apply IHn; lia| |apply Hall; lia].
      left. split; [reflexivity|]. right. lia. }
  intros a Ha. destruct (decide (x <= a)).
  - replace a with (x + Z.of_nat (Z.to_nat (a - x))) by lia. apply Hr. lia.
  - replace a with (x - Z.of_nat (Z.to_nat (x - a))) by lia. apply Hl. lia.
Qed.

(** One turn of the loop of the fill keeps its invariant. *)
Lemma fill_step g0 g (x y : Z) (s : list Coord) (f1 f2 : nat) g1 lx g2 x' :
  fillInvariant g0 g ((x, y) :: s) ->
  extendLeft f1 g x y = Ok (g1, lx) ->
  extendRight f2 g1 x y = Ok (g2, x') ->
  fillInvariant g0 g2
    (lambdaScan g2 (lambdaScan g2 s lx (x' - 1) (y + 1)) lx (x' - 1) (y - 1)).
Proof.
  intros (Hf & Hq & Hlk & Hrow & Hcol) H1 H2.
  destruct (span_freed _ _ _ _ _ _ _ _ _ H1 H2) as (Hf2 & Hle & Hall & Hsl & Hsr & Hin).
  inversion Hq as [|? ? Hhead Htail]; subst. cbn [fst snd] in Hhead.
  assert (Hf02 : filled_from g0 g2) by (eapply filled_from_trans; eauto).
  assert (Hspan : forall a, lx <= a < x' -> linked g0 a y).
  { apply (run_linked g0 x y lx x' Hhead Hle).
    intros a Ha. apply (Inside_mono g0 g _ _ Hf), Hall, Ha. }
  destruct (lambdaScan_spec g2 s lx (x' - 1) (y + 1)) as (new1 & -> & Hn1 & Hr1).
  destruct (lambdaScan_spec g2 (s ++ new1)%list lx (x' - 1) (y - 1)) as (new2 & -> & Hn2 & Hr2).
  assert (Hold : forall a b, freed g0 g2 a b ->
                             (b = y /\ lx <= a < x') \/ freed g0 g a b).
  { intros a b [Ha0 Ha2]. rewrite Hin in Ha2.
    case_decide as Hd; [left; exact Hd|right; split; assumption]. }
  split; [exact Hf02|]. split; [|split; [|split]].
  - rewrite !Forall_app. split; [split; [exact Htail|]|];
      apply List.Forall_forall; intros [q b] Hc.
    + destruct (Hn1 _ Hc) as (Hb & Hq1 & Hq2).
      cbn [fst snd] in *. subst b.
      apply (linked_step g0 q y); [apply Hspan; lia| |apply (Inside_mono g0 g2); assumption].
      right. split; [reflexivity|]. left. reflexivity.
    + destruct (Hn2 _ Hc) as (Hb & Hq1 & Hq2).
      cbn [fst snd] in *. subst b.
      apply (linked_step g0 q y); [apply Hspan; lia| |apply (Inside_mono g0 g2); assumption].
      right. split; [reflexivity|]. right. reflexivity.
  - intros a b Hfr. destruct (Hold a b Hfr) as [[-> Ha]|Hfr']; [apply Hspan, Ha|].
    apply Hlk, Hfr'.
  - intros a b Hfr. rewrite !Hin. destruct (Hold a b Hfr) as [[-> Ha]|Hfr'].
    + split; case_decide as Hd; try reflexivity.
      * assert (a = lx) as -> by lia. exact Hsl.
      * assert (a + 1 = x') as -> by lia. exact Hsr.
    + destruct (Hrow a b Hfr') as [Hl Hr]. rewrite Hl, Hr.
      split; case_decide; reflexivity.
  - intros a b b' Hfr Hb' Ha'. destruct (Hold a b Hfr) as [[-> Ha]|Hfr'].
    + destruct Hb' as [->| ->].
      * destruct (Hr1 a ltac:(lia) Ha') as (q & Hq1 & Hq2 & Hq3).
        exists q. split; [|split; [lia|exact Hq3]].
        apply in_or_app. left. apply in_or_app. right. exact Hq1.
      * destruct (Hr2 a ltac:(lia) Ha') as (q & Hq1 & Hq2 & Hq3).
        exists q. split; [|split; [lia|exact Hq3]].
        apply in_or_app. right. exact Hq1.
    + assert (Ha'g : Inside g a b' = true).
      { rewrite Hin in Ha'. case_decide; [discriminate Ha'|exact Ha']. }
      destruct (Hcol a b b' Hfr' Hb' Ha'g) as (q & Hq1 & Hq2 & Hq3).
      assert (Hout : ~ (b' = y /\ lx <= a < x')).
      { intros Hd. rewrite Hin in Ha'. rewrite decide_True in Ha' by exact Hd.
        discriminate Ha'. }
      assert (Hkeep : forall c, q <= c <= a -> ~ (b' = y /\ lx <= c < x')).
      { intros c Hc [-> Hcs]. 
        assert (Hx' : Inside g x' y = true) by (apply Hq3; lia).
        congruence. }
      exists q. split; [|split; [exact Hq2|]].
      * destruct Hq1 as [Heq|Hq1].
        -- injection Heq as <- <-. exfalso.
           apply (Hkeep x ltac:(lia)). split; [reflexivity|].
           assert (Hxx : Inside g x y = true) by (apply Hq3; lia).
           destruct (decide (x = x')) as [Hxe|Hxe]; [|lia].
           rewrite <- Hxe in Hsr. congruence.
        -- apply in_or_app. left. apply in_or_app. left. exact Hq1.
      * intros c Hc. rewrite Hin. rewrite decide_False by (apply Hkeep, Hc).
        apply Hq3, Hc.
Qed.

Lemma floodLoop_invariant g0 (fuel : nat) : forall g (s : list Coord) g',
  floodLoop fuel g s = Ok g' ->
  fillInvariant g0 g s -> fillInvariant g0 g' [].
Proof.
  induction fuel as [|fuel IH]; intros g s g' H Hinv;
    destruct s as [|[x y] s]; cbn [floodLoop] in H; try discriminate H.
  1,2: apply Ok_inj in H; subst g'; exact Hinv.
  bind_inv H. destruct a as [g1 lx]. bind_inv H. destruct a as [g2 x'].
  apply (IH _ _ _ H). eapply fill_step; eauto.
Qed.

Lemma linked_seed_inv g x y : linked g x y -> Inside g 0 0 = true.
Proof. induction 1; assumption. Qed.

(** What the fill has done when it returns. *)
Lemma floodFill_linked g :
  exists g', floodFill g = Ok g' /\ filled_from g g' /\
             forall x y, Inside g x y = true ->
                         (Inside g' x y = false <-> linked g x y).
Proof.
  destruct (floodFill_ok g) as (g' & Hrun & Hf & Hseed).
  exists g'. split; [exact Hrun|]. split; [exact Hf|].
  unfold floodFill in Hrun. destruct (Inside g 0 0) eqn:E; cbn [negb] in Hrun.
  - assert (Hinv : fillInvariant g g' []).
    { apply (floodLoop_invariant g _ _ _ _ Hrun).
      split; [apply filled_from_refl|]. split.
      - constructor; [|constructor]. apply linked_seed, E.
      - split; [|split];
          [ intros x y [H1 H2] | intros x y [H1 H2] | intros x y y' [H1 H2] ];
          congruence. }
    destruct Hinv as (_ & _ & Hlk & Hrow & Hcol).
    intros x y Hxy. split; [intros H; apply Hlk; split; assumption|].
    intros Hl. clear Hxy. induction Hl as [|x y x1 y1 Hl IHl Hadj Hin]; [exact Hseed|].
    assert (Hfr : freed g g' x y) by (split; [apply linked_Inside, Hl|exact IHl]).
    destruct (Inside g' x1 y1) eqn:E1; [exfalso|reflexivity].
    destruct Hadj as [[-> Hx]|[-> Hy]].
    + destruct (Hrow x y Hfr) as [Hl1 Hr1]. destruct Hx as [-> | ->]; congruence.
    + destruct (Hcol x y y1 Hfr Hy E1) as (q & [] & _).
  - apply Ok_inj in Hrun. subst g'. intros x y Hxy. split; [congruence|].
    intros Hl. apply linked_seed_inv in Hl. congruence.
Qed.

Lemma cellByIndex_extent g g' x y :
  extent g' = extent g -> cellByIndex g' x y = cellByIndex g x y.
Proof. intros He. unfold cellByIndex, getSizeX, getSizeY. rewrite He. reflexivity. Qed.

(** X15. The fill changes only Undefined cells that a chain of Undefined
    cells links to the seed cell (0, 0), and it makes them Free: an
    Undefined region that Occupied cells close off is left Undefined. *)
Theorem flood_fill_frees_only_linked_cells (self : Shape2p5) (g : CDynamicGrid) :
  grid_ self = Some g ->
  exists g1 : CDynamicGrid,
    internalGridFloodFill self
    = Ok {| contour_ := contour_ self; grid_ := Some g1;
            zMin_ := zMin_ self; zMax_ := zMax_ self |} /\
    forall (x y : Z) (c : nat),
      cellByIndex g x y = Some c ->
      m_map g1 !! c <> m_map g !! c ->
      linked g x y /\ m_map g1 !! c = Some CELL_FREE.
Proof.
  intros Hg. unfold internalGridFloodFill. rewrite Hg.
  destruct (floodFill_linked g) as (g1 & -> & Hf & Hiff).
  exists g1. split; [reflexivity|]. intros x y c Hc Hne.
  pose proof Hf as (He & _ & Hcells).
  destruct (Hcells c) as [E|[E F]]; [contradiction|]. split; [|exact F].
  assert (Hin : Inside g x y = true).
  { rewrite Inside_cell_is. unfold cell_is, read_cell. rewrite Hc, E. reflexivity. }
  apply (Hiff x y Hin).
  rewrite Inside_cell_is. unfold cell_is, read_cell.
  rewrite (cellByIndex_extent _ _ _ _ He), Hc, F. reflexivity.
Qed.

(** X16. The fill frees every Undefined cell that a chain of Undefined
    cells links to the seed cell (0, 0). *)
Theorem flood_fill_frees_every_linked_cell (self : Shape2p5) (g : CDynamicGrid) :
  grid_ self = Some g ->
  exists g1 : CDynamicGrid,
    internalGridFloodFill self
    = Ok {| contour_ := contour_ self; grid_ := Some g1;
            zMin_ := zMin_ self; zMax_ := zMax_ self |} /\
    forall x y : Z, linked g x y -> cell_is g1 x y CELL_FREE = true.
Proof.
  intros Hg. unfold internalGridFloodFill. rewrite Hg.
  destruct (floodFill_linked g) as (g1 & -> & Hf & Hiff).
  exists g1. split; [reflexivity|]. intros x y Hl.
  pose proof (linked_Inside _ _ _ Hl) as Hin.
  pose proof (proj2 (Hiff x y Hin) Hl) as Hout.
  destruct (Inside_inv _ _ _ Hin) as (_ & _ & Hc & Hu).
  pose proof Hf as (He & _ & Hcells).
  rewrite Inside_cell_is in Hout. unfold cell_is, read_cell in *.
  rewrite (cellByIndex_extent _ _ _ _ He), Hc in *.
  destruct (Hcells (Z.to_nat (x + y * getSizeX g))) as [E|[_ F]].
  - rewrite E, Hu in Hout. discriminate Hout.
  - rewrite F. reflexivity.
Qed.

(** ** The walk along the border *)



Section ContourWalk.
Context {geom : GridGeometry}.



End ContourWalk.

(** ** The volume *)

Lemma binary_round_aux_sign (prec emax : Z) (sx : bool) (mx ex : Z) (lx : location) :
  match binary_round_aux prec emax sx mx ex lx with
  | S754_nan => True
  | S754_zero s | S754_infinity s | S754_finite s _ _ => s = sx
  end.
Proof.
  unfold binary_round_aux.
  destruct (shr_fexp prec emax mx ex lx) as [mrs' e'].
  destruct (shr_fexp prec emax _ e' loc_Exact) as [mrs'' e''].
  destruct (shr_m mrs''); [reflexivity| |exact I].
  destruct (_ <=? _); reflexivity.
Qed.

Lemma sign_clear_abs (a : spec_float) : sign_clear (SFabs a).
Proof. destruct a; cbn; auto. Qed.

Lemma sign_clear_mul (prec emax : Z) (a b : spec_float) :
  sign_clear a -> sign_clear b -> sign_clear (SFmul prec emax a b).
Proof.
  destruct a as [sa|sa| |sa ma ea], b as [sb|sb| |sb mb eb]; cbn [sign_clear SFmul];
    try exact (fun _ _ => I); intros -> ->; try reflexivity.
  pose proof (binary_round_aux_sign prec emax (xorb false false)
                (Zpos (ma * mb)) (ea + eb) loc_Exact) as H.
  unfold SFmul. 
  destruct (binary_round_aux _ _ _ _ _ _); cbn [sign_clear]; auto.
Qed.

Lemma sign_clear_ldexp (prec emax : Z) (a : spec_float) (e : Z) :
  sign_clear a -> sign_clear (SFldexp prec emax a e).
Proof.
  destruct a as [sa|sa| |sa ma ea]; cbn [sign_clear SFldexp]; auto.
  intros ->. unfold binary_round.
  destruct (shl_align ma (ea + e) _) as [mz ez].
  pose proof (binary_round_aux_sign prec emax false (Zpos mz) ez loc_Exact) as H.
  destruct (binary_round_aux _ _ _ _ _ _); cbn [sign_clear]; auto.
Qed.

Lemma sign_clear_not_negative (a : double) :
  sign_clear a -> (a <? double_of_Z 0)%dbl = false.
Proof.
  change (double_of_Z 0) with (S754_zero false).
  destruct a as [sa|sa| |sa ma ea]; cbn [sign_clear]; intros H; subst; reflexivity.
Qed.

Section Volume.
Context {area : PolygonArea}.

(** X18. The volume is never negative: it is a NaN or a number whose sign
    bit is clear, whatever the order of [zMin] and [zMax] and the
    orientation of the contour. On a shape without a contour, such as one
    under construction, [volume] does not compute the contour: the read
    is undefined. *)
Theorem volume_is_never_negative (self : Shape2p5) :
  (forall c : TPolygon2D,
      contour_ self = Some c ->
      exists v : double,
        volume self = Ok v /\ sign_clear v /\ (v <? double_of_Z 0)%dbl = false) /\
  (contour_ self = None ->
   volume self = Err (UndefinedBehaviour "empty optional dereferenced")).
Proof.
  unfold volume. split; [intros c Hc|intros Hc]; rewrite Hc; [|reflexivity].
  cbn [deref mbind result_bind]. eexists. split; [reflexivity|].
  assert (H : sign_clear (SFabs (signedArea c)
                          * double_of_float (SFabs (zMin_ self - zMax_ self)%flt))%dbl).
  { apply sign_clear_mul; [apply sign_clear_abs|].
    apply sign_clear_ldexp, sign_clear_abs. }
  split; [exact H|apply sign_clear_not_negative, H].
Qed.

(** X19. A shape set by hand with [zMin = zMax], a number, and a contour
    of finite area has volume zero. *)
Theorem flat_shape_has_no_volume
        (self : Shape2p5) (contour : TPolygon2D) (z : float) :
  is_finite z = true -> is_finite (signedArea contour) = true ->
  exists v : double,
    volume (setShapeManual self contour z z) = Ok v /\ is_zero v = true.
Proof.
  intros Hz Ha. unfold volume, setShapeManual. cbn [contour_ zMin_ zMax_ deref mbind result_bind].
  eexists. split; [reflexivity|]. rewrite (fsub_diag z Hz).
  apply dmul_finite_zero; [|reflexivity].
  destruct (signedArea contour); try discriminate Ha; reflexivity.
Qed.

End Volume.

(** ** What is not read *)

Section FrictionInputs.
Context {libm : LibM}.

(** X20. What the friction model does not read: the velocity of the
    wheel centre that the caller passes ([wheelCogLocalVel], rotated into
    the wheel frame and then left unused), and the parameter [CA_]. The
    force and the new spin are the same whatever they are. *)
Theorem friction_ignores_wheel_velocity_and_CA
        (self : EllipseCurveMethod) (veh : VehicleBase) (wi : Z)
        (input : TFrictionInput) (v : TVector2D) (ca : double) :
  evaluate_friction
    {| CA_ := ca; Caf_ := Caf_ self; Cs_ := Cs_ self; ss_ := ss_ self;
       Cafs_ := Cafs_ self; Csaf_ := Csaf_ self |}
    veh wi
    {| context_dt := context_dt input; wheel := wheel input;
       motorTorque := motorTorque input; wheelCogLocalVel := v |}
  = evaluate_friction self veh wi input.
Proof. reflexivity. Qed.

End FrictionInputs.

(** X21. The overload of [mergeWith] on a list of points reads nothing of
    the points and changes nothing of the shape: it is a check of the
    contour of the receiver. *)
Theorem mergeWith_pts_ignores_the_points
        (self : Shape2p5) (pts pts' : list TPoint3Df) :
  mergeWith_pts self pts = mergeWith_pts self pts' /\
  (forall self' : Shape2p5, mergeWith_pts self pts = Ok self' -> self' = self) /\
  (is_ok (mergeWith_pts self pts) = true <->
   exists c, contour_ self = Some c /\ is_empty c = false).
Proof.
  split; [reflexivity|]. unfold mergeWith_pts.
  destruct (contour_ self) as [[|p c]|]; cbn; split.
  - intros self' H. discriminate H.
  - split; [intros H; discriminate H|]. intros (c0 & Hc & He). injection Hc as <-.
    discriminate He.
  - intros self' H. apply Ok_inj in H. congruence.
  - split; [|reflexivity]. intros _. eexists. split; reflexivity.
  - intros self' H. discriminate H.
  - split; [intros H; discriminate H|]. intros (c0 & Hc & _). discriminate Hc.
Qed.

(** ** Triangles that cannot be sampled *)

Lemma fsub_not_finite_l (a b : float) :
  is_finite a = false -> is_finite (a - b)%flt = false.
Proof.
  destruct a as [sa|sa| |sa ma ea]; try discriminate; intros _;
    destruct b as [sb|sb| |sb mb eb]; try reflexivity;
    destruct sa, sb; reflexivity.
Qed.

Lemma fsub_not_finite_r (a b : float) :
  is_finite b = false -> is_finite (a - b)%flt = false.
Proof.
  destruct b as [sb|sb| |sb mb eb]; try discriminate; intros _;
    destruct a as [sa|sa| |sa ma ea]; try reflexivity;
    destruct sa, sb; reflexivity.
Qed.

Lemma fmul_square_not_finite (a : float) :
  is_finite a = false -> nan_or_pinf (a * a)%flt = true.
Proof. destruct a as [sa|[]| |sa ma ea]; try discriminate; reflexivity. Qed.

Lemma fadd_nan_or_pinf_l (a b : float) :
  nan_or_pinf a = true -> nan_or_pinf (a + b)%flt = true.
Proof.
  destruct a as [sa|[]| |sa ma ea]; try discriminate; intros _;
    destruct b as [sb|[]| |sb mb eb]; reflexivity.
Qed.

Lemma fadd_nan_or_pinf_r (a b : float) :
  nan_or_pinf b = true -> nan_or_pinf (a + b)%flt = true.
Proof.
  destruct b as [sb|[]| |sb mb eb]; try discriminate; intros _;
    destruct a as [sa|[]| |sa ma ea]; reflexivity.
Qed.

Lemma fsqrt_nan_or_pinf (a : float) :
  nan_or_pinf a = true -> nan_or_pinf (fsqrt a) = true.
Proof. destruct a as [sa|[]| |sa ma ea]; try discriminate; reflexivity. Qed.

Lemma fdiv_nan_or_pinf (a s : float) :
  nan_or_pinf a = true -> is_finite (a / s)%flt = false.
Proof.
  destruct a as [sa|[]| |sa ma ea]; try discriminate; intros _;
    destruct s as [sb|sb| |sb mb eb]; reflexivity.
Qed.

Lemma fdiv_by_zero_or_nan (a s : float) :
  is_zero s || is_nan s = true -> is_finite (a / s)%flt = false.
Proof.
  destruct s as [sb|sb| |sb mb eb]; try discriminate; intros _;
    destruct a as [sa|sa| |sa ma ea]; reflexivity.
Qed.

Lemma to_int_ceil_not_finite (a : float) :
  is_finite a = false ->
  to_int (SF_ceil a) = Err (UndefinedBehaviour "float to int conversion out of range").
Proof. destruct a; try discriminate; reflexivity. Qed.

Lemma norm3f_not_finite (v : TPoint3Df) :
  finitePoint v = false -> nan_or_pinf (norm3f v) = true.
Proof.
  unfold finitePoint, norm3f. intros H. apply fsqrt_nan_or_pinf.
  destruct (is_finite (f3_x v)) eqn:Ex;
    [destruct (is_finite (f3_y v)) eqn:Ey|]; cbn [andb] in H.
  - apply fadd_nan_or_pinf_r, fmul_square_not_finite, H.
  - apply fadd_nan_or_pinf_l, fadd_nan_or_pinf_r, fmul_square_not_finite, Ey.
  - apply fadd_nan_or_pinf_l, fadd_nan_or_pinf_l, fmul_square_not_finite, Ex.
Qed.

Lemma sub3f_not_finite (a b : TPoint3Df) :
  finitePoint a && finitePoint b = false -> finitePoint (sub3f b a) = false.
Proof.
  unfold finitePoint, sub3f. cbn [f3_x f3_y f3_z]. intros H.
  destruct (is_finite (f3_x a)) eqn:Ax;
    [|rewrite (fsub_not_finite_r _ _ Ax); reflexivity].
  destruct (is_finite (f3_y a)) eqn:Ay;
    [|rewrite (fsub_not_finite_r _ _ Ay); apply andb_false_intro1, andb_false_r].
  destruct (is_finite (f3_z a)) eqn:Az;
    [|rewrite (fsub_not_finite_r _ _ Az); apply andb_false_r].
  cbn [andb] in H.
  destruct (is_finite (f3_x b)) eqn:Bx;
    [|rewrite (fsub_not_finite_l _ _ Bx); reflexivity].
  destruct (is_finite (f3_y b)) eqn:By;
    [|rewrite (fsub_not_finite_l _ _ By); apply andb_false_intro1, andb_false_r].
  cbn [andb] in H. rewrite (fsub_not_finite_l _ _ H). apply andb_false_r.
Qed.

Section UnsampledTriangles.
Context {geom : GridGeometry}.

(** The only way in which the loop over an edge fails. *)
Lemma addTriangleEdge_result (step : float) (t : TTriangle)
      (st : CDynamicGrid * float * float) (i0 : Z) :
  (exists st', addTriangleEdge step t st i0 = Ok st') \/
  addTriangleEdge step t st i0 = Err noSteps.
Proof.
  unfold addTriangleEdge, to_int.
  destruct (SF_ceil _) as [z|]; [|right; reflexivity].
  destruct (_ && _); [left; eexists; reflexivity|right; reflexivity].
Qed.

Lemma addTriangleEdge_not_finite (step : float) (t : TTriangle)
      (st : CDynamicGrid * float * float) (i0 : Z) :
  finitePoint (vertex t i0) && finitePoint (vertex t ((i0 + 1) mod 3)) = false ->
  addTriangleEdge step t st i0 = Err noSteps.
Proof.
  intros H. unfold addTriangleEdge.
  rewrite to_int_ceil_not_finite; [reflexivity|].
  apply fdiv_nan_or_pinf, norm3f_not_finite, sub3f_not_finite, H.
Qed.

Lemma addTriangleEdge_no_resolution (step : float) (t : TTriangle)
      (st : CDynamicGrid * float * float) (i0 : Z) :
  is_zero step || is_nan step = true ->
  addTriangleEdge step t st i0 = Err noSteps.
Proof.
  intros H. unfold addTriangleEdge.
  rewrite to_int_ceil_not_finite; [reflexivity|].
  apply fdiv_by_zero_or_nan, H.
Qed.

(** X22. A triangle with a vertex that has a NaN or an infinite
    coordinate is not skipped: the number of steps of an edge at that
    vertex is the conversion to [int] of a NaN or of an infinity, which is
    undefined. *)
Theorem triangle_with_non_finite_vertex_is_undefined
        (self : Shape2p5) (g : CDynamicGrid) (t : TTriangle) :
  grid_ self = Some g ->
  finitePoint (vertex0 t) && finitePoint (vertex1 t) && finitePoint (vertex2 t) = false ->
  buildAddTriangle self t
  = Err (UndefinedBehaviour "float to int conversion out of range").
Proof.
  intros Hg H. unfold buildAddTriangle. rewrite Hg. cbn [deref mbind result_bind].
  destruct (finitePoint (vertex0 t) && finitePoint (vertex1 t)) eqn:H01.
  - cbn [andb] in H. apply andb_prop in H01 as [H0 H1].
    destruct (addTriangleEdge_result (float_of_double (getResolution g)) t
                (g, zMin_ self, zMax_ self) 0) as [[st1 ->]| ->]; [|reflexivity].
    cbn [mbind result_bind].
    rewrite addTriangleEdge_not_finite; [reflexivity|].
    change (vertex t ((1 + 1) mod 3)) with (vertex2 t). rewrite H. apply andb_false_r.
  - rewrite addTriangleEdge_not_finite; [reflexivity|exact H01].
Qed.

(** X23. On a grid whose resolution is 0 or a NaN every triangle is
    undefined, a triangle that is one point included: the length of the
    first edge is divided by the resolution. *)
Theorem triangle_on_grid_without_resolution_is_undefined
        (self : Shape2p5) (g : CDynamicGrid) (t : TTriangle) :
  grid_ self = Some g ->
  is_zero (float_of_double (getResolution g))
  || is_nan (float_of_double (getResolution g)) = true ->
  buildAddTriangle self t
  = Err (UndefinedBehaviour "float to int conversion out of range").
Proof.
  intros Hg H. unfold buildAddTriangle. rewrite Hg. cbn [deref mbind result_bind].
  rewrite addTriangleEdge_no_resolution; [reflexivity|exact H].
Qed.

End UnsampledTriangles.

(** ** The samples of a triangle *)

Lemma zRange_numbers_widen (zMin zMax z : float) :
  is_nan zMin = false /\ is_nan zMax = false ->
  is_nan (keep_min zMin z) = false /\ is_nan (keep_max zMax z) = false.
Proof.
  intros [H1 H2]. split; [apply (keep_min_spec zMin z H1)|apply (keep_max_spec zMax z H2)].
Qed.

Section TriangleSamples.
Context {geom : GridGeometry}.

Lemma cellByPos_extent (g g' : CDynamicGrid) (x y : double) :
  extent g' = extent g -> cellByPos g' x y = cellByPos g x y.
Proof.
  intros He. unfold cellByPos, cellByIndex, getSizeX, getSizeY. rewrite He. reflexivity.
Qed.

Lemma fold_samples_marked (l : list TPoint3Df) : forall st,
  marked_from (st_grid st) (st_grid (fold_left addTriangleSample l st)).
Proof.
  induction l as [|p l IH]; intros st; cbn [fold_left]; [apply marked_from_refl|].
  eapply marked_from_trans; [apply addTriangleSample_marked|apply IH].
Qed.

Lemma fold_samples_widen (P : float -> float -> Prop)
      (P_widen : forall zMin zMax z, P zMin zMax -> P (keep_min zMin z) (keep_max zMax z))
      (l : list TPoint3Df) : forall st,
  P (st_zMin st) (st_zMax st) ->
  P (st_zMin (fold_left addTriangleSample l st))
    (st_zMax (fold_left addTriangleSample l st)).
Proof.
  induction l as [|p l IH]; intros st H; cbn [fold_left]; [exact H|].
  apply IH, (addTriangleSample_zrange P P_widen), H.
Qed.

(** Every sample over a cell leaves the cell Occupied and its height in
    the z range. *)
Lemma fold_samples_cover (l : list TPoint3Df) : forall st p c,
  In p l ->
  cellByPos (st_grid st) (double_of_float (f3_x p)) (double_of_float (f3_y p)) = Some c ->
  (c < length (m_map (st_grid st)))%nat ->
  m_map (st_grid (fold_left addTriangleSample l st)) !! c = Some CELL_OCCUPIED /\
  (is_nan (st_zMin st) = false -> is_nan (st_zMax st) = false ->
   is_nan (f3_z p) = false ->
   zRangeCovers (f3_z p) (st_zMin (fold_left addTriangleSample l st))
                (st_zMax (fold_left addTriangleSample l st))).
Proof.
  induction l as [|q l IH]; intros st p c Hin Hc Hlt; [destruct Hin|].
  cbn [fold_left]. destruct Hin as [->|Hin].
  - destruct st as [[g zMin] zMax]. unfold st_grid, st_zMin, st_zMax in *.
    cbn [fst snd] in *.
    assert (Es : addTriangleSample (g, zMin, zMax) p
                 = (write_cell g c CELL_OCCUPIED, keep_min zMin (f3_z p),
                    keep_max zMax (f3_z p))).
    { unfold addTriangleSample. rewrite Hc. reflexivity. }
    rewrite Es. split.
    + eapply marked_from_keeps_occupied; [apply fold_samples_marked|].
      cbn [st_grid fst write_cell m_map]. apply list_lookup_insert_eq, Hlt.
    + intros Hmin Hmax Hz.
      apply (fold_samples_widen _ (zRangeCovers_widen (f3_z p))).
      unfold st_zMin, st_zMax. cbn [fst snd].
      destruct (keep_min_spec zMin (f3_z p) Hmin) as (_ & _ & H1).
      destruct (keep_max_spec zMax (f3_z p) Hmax) as (_ & _ & H2).
      split; [apply H1, Hz|apply H2, Hz].
  - pose proof (addTriangleSample_marked st q) as (He & Hl & _).
    destruct (IH (addTriangleSample st q) p c Hin) as [H1 H2].
    + rewrite (cellByPos_extent _ _ _ _ He). exact Hc.
    + rewrite Hl. exact Hlt.
    + split; [exact H1|]. intros Hmin Hmax Hz.
      destruct (addTriangleSample_zrange _ zRange_numbers_widen st q (conj Hmin Hmax))
        as [Hmin' Hmax'].
      apply H2; assumption.
Qed.

(** X24. Every sample of a triangle that lies over a cell of the grid
    leaves that cell Occupied, whatever the later samples do; and when
    the z range and the height of the sample are numbers, the z range
    holds that height afterwards. *)
Theorem triangle_samples_are_marked
        (self : Shape2p5) (g : CDynamicGrid) (t : TTriangle)
        (samples : list TPoint3Df) (p : TPoint3Df) (c : nat) :
  grid_ self = Some g -> grid_wf g ->
  triangleSamples (float_of_double (getResolution g)) t = Ok samples ->
  In p samples ->
  cellByPos g (double_of_float (f3_x p)) (double_of_float (f3_y p)) = Some c ->
  exists (g' : CDynamicGrid) (zMin zMax : float),
    buildAddTriangle self t
    = Ok {| contour_ := contour_ self; grid_ := Some g'; zMin_ := zMin; zMax_ := zMax |} /\
    m_map g' !! c = Some CELL_OCCUPIED /\
    (is_nan (zMin_ self) = false -> is_nan (zMax_ self) = false ->
     is_nan (f3_z p) = false -> zRangeCovers (f3_z p) zMin zMax).
Proof.
  intros Hg Hwf Hs Hin Hc.
  rewrite (buildAddTriangle_skips self g t Hg), Hs. cbn [mbind result_bind].
  eexists _, _, _. split; [reflexivity|].
  apply (fold_samples_cover _ (g, zMin_ self, zMax_ self) p c).
  - apply filter_In. split; [exact Hin|]. unfold insideGrid. rewrite Hc. reflexivity.
  - exact Hc.
  - unfold cellByPos in Hc. exact (cellByIndex_lt g _ _ c Hwf Hc).
Qed.

End TriangleSamples.

(** ** The life of a shape *)

Section Lifecycle.
Context {geom : GridGeometry}.

(** X25. Once [getContour] has returned, the build is over: the shape has
    no grid (a computed contour drops it, and so does [setShapeManual]),
    and [buildAddPoint] and [buildAddTriangle] then read the empty
    [grid_], which is undefined. *)
Theorem build_after_contour_is_undefined
        (self self' : Shape2p5) (c : TPolygon2D) (pt : TPoint3Df) (t : TTriangle) :
  getContour self = Ok (c, self') ->
  grid_ self = None \/ contour_ self = None ->
  contour_ self' = Some c /\ grid_ self' = None /\
  buildAddPoint self' pt = Err (UndefinedBehaviour "empty optional dereferenced") /\
  buildAddTriangle self' t = Err (UndefinedBehaviour "empty optional dereferenced").
Proof.
  intros H Hor.
  assert (Hs : contour_ self' = Some c /\ grid_ self' = None).
  { destruct (contour_ self) as [c0|] eqn:Hc.
    - destruct Hor as [Hg|Hn]; [|discriminate Hn].
      unfold getContour in H. rewrite Hc in H. apply Ok_inj in H.
      injection H as <- <-. split; assumption.
    - destruct (getContour_computed_inv _ _ _ Hc H) as [-> ->]. split; reflexivity. }
  destruct Hs as [Hc' Hg']. split; [exact Hc'|]. split; [exact Hg'|].
  unfold buildAddPoint, buildAddTriangle. rewrite Hg'. split; reflexivity.
Qed.

End Lifecycle.

(** ** Evaluations on the example builds *)

Lemma build_keeps_z_range_ordered_witness :
  runBuild (geom := mrpt_geometry) (buildInit (geom := mrpt_geometry) blankShape (pt2f (-1) (-1)) (pt2f 1 1) 10)
           (riseBuildBefore ++ AddPoint risePoint :: riseBuildAfter)%list = Ok riseShape /\
  zRangeOrdered (zMin_ riseShape) (zMax_ riseShape).
Proof.
  split; [vm_compute; reflexivity|].
  apply (build_keeps_z_range_ordered
           (geom := mrpt_geometry) blankShape riseShape (pt2f (-1) (-1)) (pt2f 1 1) 10
           (riseBuildBefore ++ AddPoint risePoint :: riseBuildAfter)%list).
  vm_compute. reflexivity.
Defined.

Lemma added_point_is_within_z_range_witness :
  runBuild (geom := mrpt_geometry) (buildInit (geom := mrpt_geometry) blankShape (pt2f (-1) (-1)) (pt2f 1 1) 10)
           (riseBuildBefore ++ AddPoint risePoint :: riseBuildAfter)%list = Ok riseShape /\
  is_nan (f3_z risePoint) = false /\
  zRangeCovers (f3_z risePoint) (zMin_ riseShape) (zMax_ riseShape).
Proof.
  split; [vm_compute; reflexivity|]. split; [reflexivity|].
  apply (added_point_is_within_z_range
           (geom := mrpt_geometry) blankShape riseShape (pt2f (-1) (-1)) (pt2f 1 1) 10
           riseBuildBefore riseBuildAfter risePoint); vm_compute; reflexivity.
Defined.

Lemma computed_contour_is_the_fixed_square_witness :
  contour_ riseShape = None /\
  exists self' : Shape2p5,
    getContour (geom := mrpt_geometry) riseShape = Ok (placeholderContour, self') /\
    contour_ self' = Some placeholderContour /\ grid_ self' = None /\
    zMin_ self' = zMin_ riseShape /\ zMax_ self' = zMax_ riseShape.
Proof.
  split; [vm_compute; reflexivity|].
  match eval vm_compute in (getContour (geom := mrpt_geometry) riseShape) with
  | Ok (?c, ?s) =>
      exists s; split; [vm_compute; reflexivity|];
      apply (computed_contour_is_the_fixed_square (geom := mrpt_geometry) riseShape s c);
      vm_compute; reflexivity
  end.
Defined.

Lemma getContour_succeeds_iff_occupied_witness :
  contour_ originShape = None /\ grid_ originShape = Some (gridOf originShape) /\
  grid_wf (gridOf originShape) /\ 0 <= getSizeX (gridOf originShape) /\
  (is_ok (getContour (geom := mrpt_geometry) originShape) = true
   <-> (0 < count_cells CELL_OCCUPIED (gridOf originShape))%nat).
Proof.
  split; [vm_compute; reflexivity|]. split; [vm_compute; reflexivity|].
  split; [vm_compute; reflexivity|]. split; [vm_compute; discriminate|].
  apply (getContour_succeeds_iff_occupied (geom := mrpt_geometry) originShape
                                          (gridOf originShape)).
  - vm_compute; reflexivity.
  - vm_compute; reflexivity.
  - vm_compute; reflexivity.
  - vm_compute; discriminate.
Defined.

Lemma build_only_marks_cells_witness :
  runBuild (geom := mrpt_geometry) (buildInit (geom := mrpt_geometry) blankShape (pt2f (-1) (-1)) (pt2f 1 1) 10)
           (riseBuildBefore ++ AddPoint risePoint :: riseBuildAfter)%list = Ok riseShape /\
  contour_ riseShape = None /\
  exists g0 g,
    grid_ (buildInit (geom := mrpt_geometry) blankShape (pt2f (-1) (-1)) (pt2f 1 1) 10) = Some g0 /\
    grid_ riseShape = Some g /\
    marked_from g0 g /\
    forall (i : nat) (c : Z),
      m_map g !! i = Some c -> c = CELL_UNDEFINED \/ c = CELL_OCCUPIED.
Proof.
  split; [vm_compute; reflexivity|].
  apply (build_only_marks_cells
           (geom := mrpt_geometry) blankShape riseShape (pt2f (-1) (-1)) (pt2f 1 1) 10
           (riseBuildBefore ++ AddPoint risePoint :: riseBuildAfter)%list).
  vm_compute. reflexivity.
Defined.

Lemma build_with_a_point_has_a_contour_witness :
  runBuild (geom := mrpt_geometry) (buildInit (geom := mrpt_geometry) blankShape (pt2f (-1) (-1)) (pt2f 1 1) 10)
           (riseBuildBefore ++ AddPoint risePoint :: riseBuildAfter)%list = Ok riseShape /\
  getContour (geom := mrpt_geometry) riseShape
  = Ok (placeholderContour,
        {| contour_ := Some placeholderContour; grid_ := None;
           zMin_ := zMin_ riseShape; zMax_ := zMax_ riseShape |}).
Proof.
  split; [vm_compute; reflexivity|].
  apply (build_with_a_point_has_a_contour
           (geom := mrpt_geometry) blankShape riseShape (pt2f (-1) (-1)) (pt2f 1 1) 10
           riseBuildBefore riseBuildAfter risePoint).
  vm_compute. reflexivity.
Defined.

Lemma point_triangle_marks_nothing_witness :
  grid_ initShape = Some (gridOf initShape) /\
  finitePoint (pt3f 0 0 0) = true /\
  is_finite (float_of_double (getResolution (gridOf initShape))) = true /\
  is_zero (float_of_double (getResolution (gridOf initShape))) = false /\
  buildAddTriangle (geom := mrpt_geometry) initShape (pointTriangle (pt3f 0 0 0))
  = Ok initShape.
Proof.
  split; [vm_compute; reflexivity|]. split; [vm_compute; reflexivity|].
  split; [vm_compute; reflexivity|]. split; [vm_compute; reflexivity|].
  apply (point_triangle_marks_nothing (geom := mrpt_geometry) initShape
                                      (gridOf initShape) (pt3f 0 0 0));
    vm_compute; reflexivity.
Defined.

Lemma flood_fill_frees_only_linked_cells_witness :
  grid_ originShape = Some (gridOf originShape) /\
  exists g1 : CDynamicGrid,
    internalGridFloodFill originShape
    = Ok {| contour_ := contour_ originShape; grid_ := Some g1;
            zMin_ := zMin_ originShape; zMax_ := zMax_ originShape |} /\
    forall (x y : Z) (c : nat),
      cellByIndex (gridOf originShape) x y = Some c ->
      m_map g1 !! c <> m_map (gridOf originShape) !! c ->
      linked (gridOf originShape) x y /\ m_map g1 !! c = Some CELL_FREE.
Proof.
  split; [vm_compute; reflexivity|].
  apply (flood_fill_frees_only_linked_cells originShape (gridOf originShape)).
  vm_compute. reflexivity.
Defined.

Lemma flood_fill_frees_every_linked_cell_witness :
  grid_ originShape = Some (gridOf originShape) /\
  exists g1 : CDynamicGrid,
    internalGridFloodFill originShape
    = Ok {| contour_ := contour_ originShape; grid_ := Some g1;
            zMin_ := zMin_ originShape; zMax_ := zMax_ originShape |} /\
    forall x y : Z, linked (gridOf originShape) x y -> cell_is g1 x y CELL_FREE = true.
Proof.
  split; [vm_compute; reflexivity|].
  apply (flood_fill_frees_every_linked_cell originShape (gridOf originShape)).
  vm_compute. reflexivity.
Defined.


Lemma flat_shape_has_no_volume_witness :
  is_finite (float_of_Z 1) = true /\
  is_finite (signedArea (PolygonArea := shoelace_area) [pt2 0 0; pt2 1 0; pt2 1 1; pt2 0 1]) = true /\
  exists v : double,
    volume (area := shoelace_area)
           (setShapeManual blankShape [pt2 0 0; pt2 1 0; pt2 1 1; pt2 0 1]
                           (float_of_Z 1) (float_of_Z 1)) = Ok v /\
    is_zero v = true.
Proof.
  split; [vm_compute; reflexivity|]. split; [vm_compute; reflexivity|].
  apply (flat_shape_has_no_volume (area := shoelace_area) blankShape
           [pt2 0 0; pt2 1 0; pt2 1 1; pt2 0 1] (float_of_Z 1));
    vm_compute; reflexivity.
Defined.

Example volume_of_the_unit_square :
  volume (area := shoelace_area) squareShape = Ok (double_of_Z 1).
Proof. vm_compute. reflexivity. Qed.

Lemma triangle_with_non_finite_vertex_is_undefined_witness :
  grid_ initShape = Some (gridOf initShape) /\
  finitePoint (vertex0 nanTriangle) && finitePoint (vertex1 nanTriangle)
  && finitePoint (vertex2 nanTriangle) = false /\
  buildAddTriangle (geom := mrpt_geometry) initShape nanTriangle
  = Err (UndefinedBehaviour "float to int conversion out of range").
Proof.
  split; [vm_compute; reflexivity|]. split; [vm_compute; reflexivity|].
  apply (triangle_with_non_finite_vertex_is_undefined
           (geom := mrpt_geometry) initShape (gridOf initShape) nanTriangle);
    vm_compute; reflexivity.
Defined.

Lemma triangle_on_grid_without_resolution_is_undefined_witness :
  grid_ pointBoxShape = Some (gridOf pointBoxShape) /\
  is_zero (float_of_double (getResolution (gridOf pointBoxShape)))
  || is_nan (float_of_double (getResolution (gridOf pointBoxShape))) = true /\
  buildAddTriangle (geom := mrpt_geometry) pointBoxShape (pointTriangle (pt3f 0 0 0))
  = Err (UndefinedBehaviour "float to int conversion out of range").
Proof.
  split; [vm_compute; reflexivity|]. split; [vm_compute; reflexivity|].
  apply (triangle_on_grid_without_resolution_is_undefined
           (geom := mrpt_geometry) pointBoxShape (gridOf pointBoxShape)
           (pointTriangle (pt3f 0 0 0)));
    vm_compute; reflexivity.
Defined.

Lemma triangle_samples_are_marked_witness :
  exists (samples : list TPoint3Df) (c : nat),
    grid_ initShape = Some (gridOf initShape) /\ grid_wf (gridOf initShape) /\
    triangleSamples (float_of_double (getResolution (gridOf initShape))) leavingTriangle
    = Ok samples /\
    In (pt3f 0 0 0) samples /\
    cellByPos (geom := mrpt_geometry) (gridOf initShape)
              (double_of_float (f3_x (pt3f 0 0 0))) (double_of_float (f3_y (pt3f 0 0 0)))
    = Some c /\
    exists (g' : CDynamicGrid) (zMin zMax : float),
      buildAddTriangle (geom := mrpt_geometry) initShape leavingTriangle
      = Ok {| contour_ := contour_ initShape; grid_ := Some g';
              zMin_ := zMin; zMax_ := zMax |} /\
      m_map g' !! c = Some CELL_OCCUPIED /\
      (is_nan (zMin_ initShape) = false -> is_nan (zMax_ initShape) = false ->
       is_nan (f3_z (pt3f 0 0 0)) = false -> zRangeCovers (f3_z (pt3f 0 0 0)) zMin zMax).
Proof.
  match eval vm_compute in
        (triangleSamples (float_of_double (getResolution (gridOf initShape)))
                         leavingTriangle) with
  | Ok ?l =>
      match eval vm_compute in
            (cellByPos (geom := mrpt_geometry) (gridOf initShape)
                       (double_of_float (f3_x (pt3f 0 0 0)))
                       (double_of_float (f3_y (pt3f 0 0 0)))) with
      | Some ?c =>
          exists l, c;
          assert (Hin : In (pt3f 0 0 0) l) by (left; vm_compute; reflexivity);
          split; [vm_compute; reflexivity|];
          split; [vm_compute; reflexivity|];
          split; [vm_compute; reflexivity|];
          split; [exact Hin|];
          split; [vm_compute; reflexivity|];
          apply (triangle_samples_are_marked
                   (geom := mrpt_geometry) initShape (gridOf initShape) leavingTriangle
                   l (pt3f 0 0 0) c);
          [ vm_compute; reflexivity | vm_compute; reflexivity | vm_compute; reflexivity
          | exact Hin | vm_compute; reflexivity ]
      end
  end.
Defined.

Lemma build_after_contour_is_undefined_witness :
  exists self' : Shape2p5,
    getContour (geom := mrpt_geometry) riseShape = Ok (placeholderContour, self') /\
    (grid_ riseShape = None \/ contour_ riseShape = None) /\
    contour_ self' = Some placeholderContour /\ grid_ self' = None /\
    buildAddPoint (geom := mrpt_geometry) self' risePoint
    = Err (UndefinedBehaviour "empty optional dereferenced") /\
    buildAddTriangle (geom := mrpt_geometry) self' leavingTriangle
    = Err (UndefinedBehaviour "empty optional dereferenced").
Proof.
  match eval vm_compute in (getContour (geom := mrpt_geometry) riseShape) with
  | Ok (?c, ?s) =>
      exists s;
      assert (Hor : grid_ riseShape = None \/ contour_ riseShape = None)
        by (right; vm_compute; reflexivity);
      split; [vm_compute; reflexivity|]; split; [exact Hor|];
      apply (build_after_contour_is_undefined
               (geom := mrpt_geometry) riseShape s placeholderContour risePoint
               leavingTriangle); [vm_compute; reflexivity|exact Hor]
  end.
Defined.
